(** * Rendertron's renderer: page rendering and extraction pipeline

    A shallow embedding of [src/renderer.ts] (class [Renderer]) and of the
    request handlers of [src/rendertron.ts], and proofs about the
    navigation lifecycle, the meta-tag override protocol, the content
    sanitizer, the preview metadata extractors and the answers of the
    handlers.

    Conventions of the model:
    - a JavaScript string is a [string]; its characters stand for code units
      in the range 0..255;
    - a JavaScript number that [parseInt] can return is a [double]: an
      integer (already rounded to the nearest double), an infinity or NaN;
      the numbers read from the query are a [number]: an integer or [NaN];
    - the DOM is a tree of [node]s; element and attribute names are stored
      the way the HTML parser stores them (lower case);
    - the browser engine is driven through a state-and-exception monad whose
      state carries the live document and the trace of engine calls; every
      awaited engine call may reject, [browser.newPage()] and
      [page.close()] included. *)

From Stdlib Require Import ZArith Ascii String List Lia Bool.
From stdpp Require Import base option list strings gmap fin_maps pretty.

Local Open Scope string_scope.
Local Open Scope Z_scope.
Local Open Scope list_scope.

(* ===================================================================== *)
(** ** JavaScript strings *)
(* ===================================================================== *)

Module JsString.

(** [s.startsWith(p)] *)
Definition startsWith (p s : string) : bool := String.prefix p s.

(** [s.indexOf(p)]: index of the first occurrence of [p], or -1. *)
Fixpoint indexOf_from (p s : string) (i : Z) : Z :=
  if String.prefix p s then i
  else match s with
       | EmptyString => -1
       | String _ s' => indexOf_from p s' (i + 1)
       end.

Definition indexOf (p s : string) : Z := indexOf_from p s 0.

(** [s.substr(0, n)] for [0 <= n]: the first [n] code units. *)
Fixpoint take (n : nat) (s : string) : string :=
  match n, s with
  | S n', String c s' => String c (take n' s')
  | _, _ => EmptyString
  end.

(** [s.substring(n)] for [0 <= n]: everything from index [n] on. *)
Fixpoint drop (n : nat) (s : string) : string :=
  match n, s with
  | S n', String _ s' => drop n' s'
  | _, _ => s
  end.

Definition substr0 (s : string) (n : Z) : string := take (Z.to_nat n) s.
Definition substring_from (s : string) (n : Z) : string := drop (Z.to_nat n) s.

(** White space and line terminators removed by [trim] and skipped by
    [parseInt], among the code units below 256: TAB, LF, VT, FF, CR, SP
    and NBSP. *)
Definition is_ws (c : ascii) : bool :=
  let n := nat_of_ascii c in
  (Nat.eqb n 9 || Nat.eqb n 10 || Nat.eqb n 11 || Nat.eqb n 12
   || Nat.eqb n 13 || Nat.eqb n 32 || Nat.eqb n 160)%bool.

Fixpoint trimStart (s : string) : string :=
  match s with
  | String c s' => if is_ws c then trimStart s' else s
  | EmptyString => EmptyString
  end.

Fixpoint trimEnd (s : string) : string :=
  match s with
  | EmptyString => EmptyString
  | String c s' =>
      match trimEnd s' with
      | EmptyString => if is_ws c then EmptyString else String c EmptyString
      | t => String c t
      end
  end.

(** [s.trim()] *)
Definition trim (s : string) : string := trimEnd (trimStart s).

(** [s.replace(p, '')] with a string pattern: only the first occurrence
    of [p] is removed, wherever it stands. *)
Fixpoint replace_first (p s : string) : string :=
  if String.prefix p s then drop (String.length p) s
  else match s with
       | EmptyString => EmptyString
       | String c s' => String c (replace_first p s')
       end.

(** JavaScript numbers as far as the server reads them from the query:
    an integer or [NaN]. *)
Inductive number := NaN | Num (z : Z).

(** JavaScript numbers as far as [parseInt] returns them: [NaN], an
    infinity, or a double whose value is the integer [z]. *)
Inductive double :=
| NotANumber
| Infinity (negative : bool)
| Integer (z : Z).

Coercion Integer : Z >-> double.

(** The Number value for the integer [z]: [z] itself below 2^53 in
    magnitude; above, the nearest integer with a 53-bit significand, ties
    to the even significand; an infinity when that is 2^1024 or more. *)
Definition to_double (z : Z) : double :=
  let a := Z.abs z in
  if a <? 2 ^ 53 then Integer z
  else
    let e := Z.log2 a - 52 in
    let q := Z.shiftr a e in
    let r := a - Z.shiftl q e in
    let half := Z.shiftl 1 (e - 1) in
    let q := if (half <? r) || ((r =? half) && Z.odd q) then q + 1 else q in
    let v := Z.shiftl q e in
    if 2 ^ 1024 <=? v then Infinity (z <? 0)
    else Integer (Z.sgn z * v).

Definition digit_val (radix : Z) (c : ascii) : option Z :=
  let n := Z.of_nat (nat_of_ascii c) in
  let v := if (48 <=? n) && (n <=? 57) then Some (n - 48)
           else if (97 <=? n) && (n <=? 122) then Some (n - 87)
           else if (65 <=? n) && (n <=? 90) then Some (n - 55)
           else None in
  match v with
  | Some d => if d <? radix then Some d else None
  | None => None
  end.

(** Longest prefix of digits of the radix, accumulated from the left;
    [None] when the string does not start with a digit. *)
Fixpoint digits (radix : Z) (acc : option Z) (s : string) : option Z :=
  match s with
  | EmptyString => acc
  | String c s' =>
      match digit_val radix c with
      | Some d => digits radix (Some (radix * default 0 acc + d)) s'
      | None => acc
      end
  end.

(** [parseInt(s)] without a radix argument: leading white space is
    skipped, then an optional sign, then an optional [0x]/[0X] prefix
    selecting radix 16, then the longest run of digits; no digit at all
    gives [NaN].  The result is the Number value for the integer read
    (with more than 20 significant decimal digits the standard lets an
    implementation approximate it; V8 rounds it correctly). *)
Definition parseInt (s : string) : double :=
  let s1 := trimStart s in
  let '(sign, s2) :=
    match s1 with
    | String "-" r => (-1, r)
    | String "+" r => (1, r)
    | _ => (1, s1)
    end in
  let '(radix, s3) :=
    match s2 with
    | String "0" (String "x" r) => (16, r)
    | String "0" (String "X" r) => (16, r)
    | _ => (10, s2)
    end in
  match digits radix None s3 with
  | Some v => to_double (sign * v)
  | None => NotANumber
  end.

(** Truthiness of a value that is [undefined] or a number. *)
Definition truthy_number (v : option double) : bool :=
  match v with
  | Some (Integer z) => negb (z =? 0)
  | Some (Infinity _) => true
  | Some NotANumber => false
  | None => false
  end.

End JsString.

Import JsString.

(* ===================================================================== *)
(** ** The DOM *)
(* ===================================================================== *)

(** Layout facts of an element that the renderer reads but that are not
    attributes: the intrinsic size of an image and whether the element has
    an offset parent. *)
Record layout := mkLayout {
  naturalWidth : Z;
  naturalHeight : Z;
  hasOffsetParent : bool
}.

Definition no_layout : layout := mkLayout 0 0 false.

Unset Elimination Schemes.
Inductive node :=
| Text (data : string)
| Element (tag : string) (attrs : gmap string string) (box : layout)
          (children : list node).
Set Elimination Schemes.

(** The children of the root [html] element, in tree order. *)
Definition Document := list node.

Section node_induction.
Variable P : node -> Prop.
Hypothesis P_text : forall s, P (Text s).
Hypothesis P_elem : forall t a b ks, Forall P ks -> P (Element t a b ks).

Fixpoint node_ind (n : node) : P n :=
  match n with
  | Text s => P_text s
  | Element t a b ks =>
      P_elem t a b ks
        ((fix go (l : list node) : Forall P l :=
            match l with
            | [] => List.Forall_nil P
            | k :: r => List.Forall_cons P k r (node_ind k) (go r)
            end) ks)
  end.
End node_induction.

Module Dom.

(** [e.getAttribute(name)]: [None] stands for [null]. *)
Definition getAttribute (name : string) (n : node) : option string :=
  match n with
  | Text _ => None
  | Element _ a _ _ => a !! name
  end.

(** [e.setAttribute(name, v)] *)
Definition setAttribute (name v : string) (n : node) : node :=
  match n with
  | Text s => Text s
  | Element t a b ks => Element t (<[name := v]> a) b ks
  end.

(** A reflected string attribute such as [meta.content]: the empty string
    when the attribute is missing. *)
Definition reflected (name : string) (n : node) : string :=
  default "" (getAttribute name n).

(** The simple selectors the renderer uses. *)
Inductive simple_selector :=
| SelTag (t : string)                         (* [t] *)
| SelAttrEq (t name v : string)               (* [t[name="v"]] *)
| SelAttrContains (t name v : string)         (* [t[name*="v"]] *)
| SelNoAttr (t name : string).                (* [t:not([name])] *)

(** A selector list [s1, s2, ...]. *)
Definition selector := list simple_selector.

Definition contains (p s : string) : bool := negb (indexOf p s =? -1).

(** ASCII lower case. *)
Definition lower_char (c : ascii) : ascii :=
  let n := nat_of_ascii c in
  if (Nat.leb 65 n && Nat.leb n 90)%bool then ascii_of_nat (n + 32) else c.

Fixpoint lower (s : string) : string :=
  match s with
  | EmptyString => EmptyString
  | String c s' => String (lower_char c) (lower s')
  end.

(** HTML compares the values of some attributes without regard to ASCII
    case in attribute selectors; of the attributes the renderer selects
    on, these are [rel] and [type]. *)
Definition case_insensitive (name : string) : bool :=
  String.eqb name "rel" || String.eqb name "type".

Definition comparable (name v : string) : string :=
  if case_insensitive name then lower v else v.

Definition matches1 (s : simple_selector) (n : node) : bool :=
  match n with
  | Text _ => false
  | Element t a _ _ =>
      match s with
      | SelTag t' => String.eqb t t'
      | SelAttrEq t' name v =>
          String.eqb t t' &&
          match a !! name with
          | Some x => String.eqb (comparable name x) (comparable name v)
          | None => false
          end
      | SelAttrContains t' name v =>
          String.eqb t t' &&
          match a !! name with
          | Some x => contains (comparable name v) (comparable name x)
          | None => false
          end
      | SelNoAttr t' name =>
          String.eqb t t' &&
          match a !! name with Some _ => false | None => true end
      end
  end.

Definition matches (sel : selector) (n : node) : bool :=
  existsb (fun s => matches1 s n) sel.

(** [root.querySelectorAll(sel)] over the descendants given as a forest,
    in tree order. *)
Fixpoint matching_in (sel : selector) (n : node) : list node :=
  match n with
  | Text _ => []
  | Element _ _ _ ks =>
      (if matches sel n then [n] else [])
        ++ (fix go (l : list node) : list node :=
              match l with
              | [] => []
              | k :: r => matching_in sel k ++ go r
              end) ks
  end.

Fixpoint querySelectorAll (sel : selector) (l : list node) : list node :=
  match l with
  | [] => []
  | k :: r => matching_in sel k ++ querySelectorAll sel r
  end.

(** [root.querySelector(sel)]: the first match or [null]. *)
Definition querySelector (sel : selector) (l : list node) : option node :=
  head (querySelectorAll sel l).

(** The effect of calling [e.remove()] on every element of
    [querySelectorAll(sel)]: each matching element leaves the tree with
    its whole subtree. *)
Fixpoint remove_in (sel : selector) (n : node) : node :=
  match n with
  | Text s => Text s
  | Element t a b ks =>
      Element t a b
        ((fix go (l : list node) : list node :=
            match l with
            | [] => []
            | k :: r => if matches sel k then go r
                        else remove_in sel k :: go r
            end) ks)
  end.

Fixpoint remove_all (sel : selector) (l : list node) : list node :=
  match l with
  | [] => []
  | k :: r => if matches sel k then remove_all sel r
              else remove_in sel k :: remove_all sel r
  end.

(** Apply [f] to the first element, in tree order, of the forest that
    matches [sel]; [None] when there is none. *)
Fixpoint update_in (sel : selector) (f : node -> node) (n : node)
  : option node :=
  match n with
  | Text _ => None
  | Element t a b ks =>
      if matches sel n then Some (f n)
      else
        option_map (Element t a b)
          ((fix go (l : list node) : option (list node) :=
              match l with
              | [] => None
              | k :: r =>
                  match update_in sel f k with
                  | Some k' => Some (k' :: r)
                  | None => option_map (cons k) (go r)
                  end
              end) ks)
  end.

Fixpoint update_first (sel : selector) (f : node -> node) (l : list node)
  : option (list node) :=
  match l with
  | [] => None
  | k :: r =>
      match update_in sel f k with
      | Some k' => Some (k' :: r)
      | None => option_map (cons k) (update_first sel f r)
      end
  end.

Definition is_head (n : node) : bool :=
  match n with
  | Element t _ _ _ => String.eqb t "head"
  | Text _ => false
  end.

(** [document.head]: the first [head] element among the children of the
    root element, or [null]. *)
Definition head_children (d : Document) : option (list node) :=
  match List.find is_head d with
  | Some (Element _ _ _ ks) => Some ks
  | _ => None
  end.

(** Replace the children of [document.head]. *)
Fixpoint set_head_children (ks' : list node) (d : Document) : Document :=
  match d with
  | [] => []
  | n :: r =>
      if is_head n then
        match n with
        | Element t a b _ => Element t a b ks' :: r
        | Text _ => n :: r
        end
      else n :: set_head_children ks' r
  end.

(** [e.textContent]: the text of all descendants, in tree order. *)
Fixpoint textContent (n : node) : string :=
  match n with
  | Text s => s
  | Element _ _ _ ks =>
      (fix go (l : list node) : string :=
         match l with
         | [] => ""
         | k :: r => textContent k +:+ go r
         end) ks
  end.

Definition is_element (n : node) : bool :=
  match n with Element _ _ _ _ => true | Text _ => false end.

(** [e.childElementCount] *)
Definition childElementCount (n : node) : nat :=
  match n with
  | Element _ _ _ ks => length (List.filter is_element ks)
  | Text _ => 0%nat
  end.

(** The tree after a script has gone over its elements and changed each
    one by [f], which leaves the children alone. *)
Fixpoint amend_in (f : node -> node) (n : node) : node :=
  match n with
  | Text s => Text s
  | Element t a b ks =>
      f (Element t a b
           ((fix go (l : list node) : list node :=
               match l with
               | [] => []
               | k :: r => amend_in f k :: go r
               end) ks))
  end.

Fixpoint amend_all (f : node -> node) (l : list node) : list node :=
  match l with
  | [] => []
  | k :: r => amend_in f k :: amend_all f r
  end.

End Dom.

Import Dom.

(* ===================================================================== *)
(** ** The browser engine and the host platform *)
(* ===================================================================== *)

(** [puppeteer.Response]: [status()] and [headers()] (header names are in
    lower case). *)
Record Response := mkResponse {
  r_status : Z;
  r_headers : gmap string string
}.

(** [type ErrorType = 'Forbidden'|'NoResponse'] *)
Inductive ErrorType := Forbidden | NoResponse.

(** The functions the renderer sends into the page. *)
Inductive script :=
| StatusCodeMeta | HeaderMeta
| GetTitle | GetDescription | GetDomainName | GetImg
| StripPage | InjectBaseHref.

(** Awaited engine calls that may reject. *)
Inductive engine_op :=
| OpNewPage | OpSetViewport | OpRun (s : script) | OpContent | OpScreenshot
| OpClose.

(** What an awaited call can throw. *)
Inductive exn :=
| TypeError
| ReferenceError
| URIError
| EngineError (op : engine_op)
| ScreenshotError (type : ErrorType).

Inductive outcome (A : Type) :=
| Ok (a : A)
| Raised (e : exn).
Arguments Ok {A} a.
Arguments Raised {A} e.

(** How [page.goto] settles: it resolves with the main response or with
    [null], or it rejects (time-out, network error). *)
Inductive goto_result :=
| GotoResolves (r : option Response)
| GotoThrows.

(** The behaviour of the browser for one request. *)
Record Browser := mkBrowser {
  (** the document in the page once navigation has settled or was given up *)
  loaded : Document;
  (** the ['response'] events fired while navigating, in order *)
  emitted : list Response;
  navigation : goto_result;
  (** the awaited calls that reject *)
  faults : engine_op -> bool;
  (** the value of the page's own global variable [uri], if the page has
      one: [getImg]'s page function is shipped to the page as text and is
      passed no argument, so its free variable [uri] is looked up there *)
  page_uri : option string;
  (** resolution of a URL attribute against the document base URL *)
  resolve : string -> string;
  (** markup of the children of an element, [e.innerHTML] *)
  innerHTML : node -> string;
  (** [page.content()] *)
  page_content : Document -> string;
  (** [page.screenshot(options)] *)
  capture : Document -> gmap string string -> string
}.

(** WHATWG [URL] objects, as far as the renderer reads them. *)
Record URL := mkURL { hostname : string; origin : string }.

(** Node's [url] module and the global [URL] constructor. *)
Record Platform := mkPlatform {
  (** [new URL(s)]; [None] when the constructor throws a [TypeError] *)
  new_URL : string -> option URL;
  (** [url.parse(s)]: the [protocol] and [host] fields, [None] for [null] *)
  url_parse : string -> option string * option string;
  (** whether [url.parse(s)] throws a [URIError] instead (an authority
      whose user part cannot be decoded); the fields are read only when it
      does not *)
  url_parse_throws : string -> bool
}.

(** [Config], as far as the renderer reads it. *)
Record Config := mkConfig { width : Z; height : Z; timeout : Z }.

(** Engine calls, in the order they are issued.  [NewPage] and [Close]
    are recorded when the call resolves: a page context has been opened,
    has been closed. *)
Inductive event :=
| NewPage
| SetViewport (w h : Z) (isMobile : bool)
| SetUserAgent (ua : string)
| EvaluateOnNewDocument (src : string)
| AddListener (name : string)
| Goto (url : string) (timeout : Z)
| ConsoleError
| Run (s : script)
| Content
| Screenshot (options : gmap string string)
| Close.

(** The state of a request: the live document of its page and the engine
    calls made so far, newest first. *)
Record page := mkPage { dom : Document; trace : list event }.

Definition blank : page := mkPage [] [].

(** Computations that await engine calls. *)
Definition M (A : Type) : Type := page -> outcome A * page.

#[export] Instance M_ret : MRet M := fun A a p => (Ok a, p).
#[export] Instance M_bind : MBind M := fun A B f m p =>
  match m p with
  | (Ok a, p') => f a p'
  | (Raised e, p') => (Raised e, p')
  end.

Definition throw {A} (e : exn) : M A := fun p => (Raised e, p).

Definition emit (ev : event) : M unit :=
  fun p => (Ok tt, mkPage (dom p) (ev :: trace p)).

(** [promise.catch(() => undefined)] *)
Definition catch_undefined {A} (m : M A) : M (option A) := fun p =>
  match m p with
  | (Ok a, p') => (Ok (Some a), p')
  | (Raised _, p') => (Ok None, p')
  end.

Definition count_event (f : event -> bool) (p : page) : nat :=
  length (List.filter f (trace p)).

Definition is_NewPage (ev : event) : bool :=
  match ev with NewPage => true | _ => false end.
Definition is_Close (ev : event) : bool :=
  match ev with Close => true | _ => false end.
Definition is_Run (ev : event) : bool :=
  match ev with Run _ | Content | Screenshot _ => true | _ => false end.

(** Number of page contexts opened, closed, and of scripts run in them. *)
Definition opened (p : page) : nat := count_event is_NewPage p.
Definition closed (p : page) : nat := count_event is_Close p.
Definition scripts_run (p : page) : nat := count_event is_Run p.

Section Engine.
Variable browser : Browser.

(** [browser.newPage()] *)
Definition newPage : M unit := fun p =>
  if faults browser OpNewPage then (Raised (EngineError OpNewPage), p)
  else emit NewPage p.

(** [page.close()] *)
Definition close : M unit := fun p =>
  if faults browser OpClose then (Raised (EngineError OpClose), p)
  else emit Close p.

(** [page.setViewport({width, height, isMobile})] *)
Definition setViewport (w h : Z) (isMobile : bool) : M unit :=
  emit (SetViewport w h isMobile) ;;
  if faults browser OpSetViewport then throw (EngineError OpSetViewport)
  else mret tt.

Definition setUserAgent (ua : string) : M unit := emit (SetUserAgent ua).

Definition evaluateOnNewDocument (src : string) : M unit :=
  emit (EvaluateOnNewDocument src).

Definition addListener (name : string) : M unit := emit (AddListener name).

Definition console_error : M unit := emit ConsoleError.

(** [page.goto(url, {timeout, waitUntil: 'networkidle0'})] with the
    ['response'] listener [on_response] registered on the page (acting on
    a variable of type [S] of the caller): the listener sees every emitted
    response, then the call settles.  The page holds the loaded document
    from then on. *)
Definition goto {S} (url : string) (tmo : Z)
    (on_response : S -> Response -> S) (s : S) : M (S * goto_result) :=
  fun p =>
    (Ok (fold_left on_response (emitted browser) s, navigation browser),
     mkPage (loaded browser) (Goto url tmo :: trace p)).

(** [page.evaluate(f)]: [f] runs against the live document, may change
    it and may throw. *)
Definition evaluate {A} (s : script)
    (f : Document -> outcome (A * Document)) : M A :=
  emit (Run s) ;;
  ((fun p =>
     if faults browser (OpRun s) then (Raised (EngineError (OpRun s)), p)
     else match f (dom p) with
          | Ok (a, d') => (Ok a, mkPage d' (trace p))
          | Raised e => (Raised e, p)
          end) : M A).

(** [page.$eval(sel, f)]: rejects when nothing matches [sel]. *)
Definition eval_selector {A} (s : script) (sel : selector) (f : node -> A)
  : M A :=
  evaluate s (fun d =>
    match querySelector sel d with
    | Some e => Ok (f e, d)
    | None => Raised (EngineError (OpRun s))
    end).

(** [page.content()] *)
Definition content_of_page : M string :=
  emit Content ;;
  ((fun p =>
     if faults browser OpContent then (Raised (EngineError OpContent), p)
     else (Ok (page_content browser (dom p)), p)) : M string).

(** [page.screenshot(options)] *)
Definition take_screenshot (options : gmap string string) : M string :=
  emit (Screenshot options) ;;
  ((fun p =>
     if faults browser OpScreenshot
     then (Raised (EngineError OpScreenshot), p)
     else (Ok (capture browser (dom p) options), p)) : M string).

End Engine.

(* ===================================================================== *)
(** ** The renderer *)
(* ===================================================================== *)

(** [SerializedResponse] *)
Record SerializedResponse := mkSerialized {
  status : double;
  customHeaders : gmap string string;
  content : string
}.

(** [PreviewResponse] *)
Record PreviewResponse := mkPreview {
  preview_status : double;
  title : option string;
  description : option string;
  domain : string;
  img : option string
}.

(** [SerializedResponse | PreviewResponse] *)
Inductive rendered :=
| Serialized (r : SerializedResponse)
| Preview (r : PreviewResponse).

Definition MOBILE_USERAGENT : string :=
  "Mozilla/5.0 (Linux; Android 8.0.0; Pixel 2 XL Build/OPD1.170816.004) AppleWebKit/537.36 (KHTML, like Gecko) Chrome/68.0.3440.75 Mobile Safari/537.36".

Module Renderer.

(** *** Functions evaluated inside the page *)

(** The selector of [stripPage]:
    [script:not([type]), script[type*="javascript"], link[rel=import]]. *)
Definition strip_selector : selector :=
  [ SelNoAttr "script" "type";
    SelAttrContains "script" "type" "javascript";
    SelAttrEq "link" "rel" "import" ].

Definition stripPage (d : Document) : Document :=
  remove_all strip_selector d.

(** The patch [injectBaseHref] applies to an existing [<base>]. *)
Definition patch_base (origin : string) (b : node) : node :=
  let existingBase := default "" (getAttribute "href" b) in
  if startsWith "/" existingBase
  then setAttribute "href" (origin +:+ existingBase) b
  else b.

Definition injectBaseHref (origin : string) (d : Document)
  : outcome Document :=
  let base := Element "base" {[ "href" := origin ]} no_layout [] in
  match head_children d with
  | None => Raised TypeError          (* [document.head] is [null] *)
  | Some hs =>
      let bases := querySelectorAll [SelTag "base"] hs in
      if (0 <? length bases)%nat then
        (* patch [bases[0]] in place *)
        Ok (set_head_children
              (default hs
                 (update_first [SelTag "base"] (patch_base origin) hs)) d)
      else
        (* [insertAdjacentElement('afterbegin', base)] *)
        Ok (set_head_children (base :: hs) d)
  end.

(** The callback of the [render:status_code] lookup. *)
Definition status_code_of (element : node) : double :=
  parseInt (default "" (getAttribute "content" element)).

(** The callback of the [render:header] lookup; the result stands for the
    array of entries that travels back as JSON text. *)
Definition header_of (element : node) : list (string * string) :=
  match getAttribute "content" element with
  | Some header =>
      if String.eqb header "" then []
      else
        let i := indexOf ":" header in
        if negb (i =? -1)
        then [ (trim (substr0 header i), trim (substring_from header (i + 1))) ]
        else []
  | None => []
  end.

(** A reflected URL attribute such as [link.href] or [img.src]. *)
Definition url_attr (resolve : string -> string) (name : string)
    (n : node) : string :=
  match getAttribute name n with
  | Some v => resolve v
  | None => ""
  end.

Definition nonempty (s : string) : bool := negb (String.eqb s "").

(** [document.title]: the text of the first [title] element with ASCII
    white space stripped and collapsed. *)
Definition is_ascii_ws (c : ascii) : bool :=
  let n := nat_of_ascii c in
  (Nat.eqb n 9 || Nat.eqb n 10 || Nat.eqb n 12 || Nat.eqb n 13
   || Nat.eqb n 32)%bool.

Fixpoint skip_ws (s : string) : string :=
  match s with
  | String c s' => if is_ascii_ws c then skip_ws s' else s
  | EmptyString => EmptyString
  end.

Fixpoint collapse (pending : bool) (s : string) : string :=
  match s with
  | EmptyString => EmptyString
  | String c s' =>
      if is_ascii_ws c then collapse true s'
      else if pending then String " " (String c (collapse false s'))
           else String c (collapse false s')
  end.

Definition child_text (n : node) : string :=
  match n with
  | Element _ _ _ ks =>
      fold_right (fun k acc =>
                    match k with Text s => s +:+ acc | _ => acc end) "" ks
  | Text _ => ""
  end.

Definition document_title (d : Document) : string :=
  match querySelector [SelTag "title"] d with
  | Some t => collapse false (skip_ws (child_text t))
  | None => ""
  end.

(** First meta-like element matching [sel] whose reflected [content] is
    not empty. *)
Definition meta_content (sel : simple_selector) (d : Document)
  : option string :=
  match querySelector [sel] d with
  | Some m => if nonempty (reflected "content" m)
              then Some (reflected "content" m) else None
  | None => None
  end.

(** The page function of [getTitle]. *)
Definition getTitle_page (innerHTML : node -> string) (d : Document)
  : outcome (option string) :=
  match meta_content (SelAttrEq "meta" "property" "og:title") d with
  | Some t => Ok (Some t)
  | None =>
  match meta_content (SelAttrEq "meta" "name" "twitter:title") d with
  | Some t => Ok (Some t)
  | None =>
  let docTitle := document_title d in
  if nonempty docTitle then Ok (Some docTitle) else
  match querySelector [SelTag "h1"] d with
  | None => Raised TypeError         (* [.innerHTML] of [null] *)
  | Some e =>
      let h1 := innerHTML e in
      if nonempty h1 then Ok (Some h1) else
      match querySelector [SelTag "h1"] d with
      | None => Raised TypeError
      | Some e2 =>
          let h2 := innerHTML e2 in
          if nonempty h2 then Ok (Some h2) else Ok None
      end
  end
  end
  end.

(** The page function of [getDescription]. *)
Definition getDescription_page (d : Document) : option string :=
  match meta_content (SelAttrEq "meta" "property" "og:description") d with
  | Some t => Some t
  | None =>
  match meta_content (SelAttrEq "meta" "name" "twitter:description") d with
  | Some t => Some t
  | None =>
  match meta_content (SelAttrEq "meta" "name" "description") d with
  | Some t => Some t
  | None =>
      let paragraphs := querySelectorAll [SelTag "p"] d in
      match List.find (fun p =>
               match p with
               | Element _ _ b _ =>
                   hasOffsetParent b && negb (Nat.eqb (childElementCount p) 0)
               | Text _ => false
               end) paragraphs with
      | Some p => Some (textContent p)
      | None => None
      end
  end
  end
  end.

(** First link element matching [sel] whose reflected [href] is not
    empty. *)
Definition link_href (resolve : string -> string) (sel : simple_selector)
    (d : Document) : option string :=
  match querySelector [sel] d with
  | Some l => if nonempty (url_attr resolve "href" l)
              then Some (url_attr resolve "href" l) else None
  | None => None
  end.

(** The page function of [getDomainName]. *)
Definition getDomainName_page (resolve : string -> string) (d : Document)
  : option string :=
  match link_href resolve (SelAttrEq "link" "rel" "canonical") d with
  | Some h => Some h
  | None =>
  match meta_content (SelAttrEq "meta" "property" "og:url") d with
  | Some c => Some c
  | None => None
  end
  end.

(** [a / b > 3] for natural sizes [a], [b] (non-negative integers below
    2^32): the quotient of the two doubles is above 3 exactly when
    [a > 3 * b]; this covers [b = 0], where the quotient is [Infinity]
    for [a > 0] and [NaN] for [a = 0]. *)
Definition quotient_above_3 (a b : Z) : bool := 3 * b <? a.

(** The filter callback of [getImg]. *)
Definition addImg (i : node) : bool :=
  match i with
  | Element _ _ b _ =>
      let w := naturalWidth b in
      let h := naturalHeight b in
      let addImg := true in
      let addImg :=
        if h <? w
        then (if quotient_above_3 w h then false else addImg)
        else (if quotient_above_3 h w then false else addImg) in
      let addImg := if (h <=? 50) || (w <=? 50) then false else addImg in
      addImg
  | Text _ => false
  end.

(** The [forEach] callback of [getImg] on one image: a source without
    [//] is re-rooted at the origin of [uri].  [uri] is [None] when the
    name is not bound where the function runs. *)
Definition reroot (P : Platform) (resolve : string -> string)
    (uri : option string) (i : node) : outcome node :=
  let src := url_attr resolve "src" i in
  if indexOf "//" src =? -1 then
    match uri with
    | None => Raised ReferenceError
    | Some u =>
        match new_URL P u with
        | None => Raised TypeError
        | Some parsed =>
            Ok (setAttribute "src" (origin parsed +:+ "/" +:+ src) i)
        end
    end
  else Ok i.

Fixpoint forEach (f : node -> outcome node) (l : list node)
  : outcome (list node) :=
  match l with
  | [] => Ok []
  | x :: r =>
      match f x with
      | Raised e => Raised e
      | Ok x' =>
          match forEach f r with
          | Raised e => Raised e
          | Ok r' => Ok (x' :: r')
          end
      end
  end.

(** The scan of the [<img>] elements at the end of [getImg], as to the
    value it returns. *)
Definition scan_imgs (P : Platform) (resolve : string -> string)
    (uri : option string) (d : Document) : outcome (option string) :=
  let imgs := querySelectorAll [SelTag "img"] d in
  if (0 <? length imgs)%nat then
    let imgs := List.filter addImg imgs in
    match forEach (reroot P resolve uri) imgs with
    | Raised e => Raised e
    | Ok imgs =>
        match imgs with
        | i :: _ => Ok (Some (url_attr resolve "src" i))
        | [] => Raised TypeError       (* [.src] of [undefined] *)
        end
    end
  else Ok None.

(** The page function of [getImg]. *)
Definition getImg_page (P : Platform) (resolve : string -> string)
    (uri : option string) (d : Document) : outcome (option string) :=
  match meta_content (SelAttrEq "meta" "property" "og:image") d with
  | Some c => Ok (Some c)
  | None =>
  match link_href resolve (SelAttrEq "link" "rel" "image_src") d with
  | Some h => Ok (Some h)
  | None =>
  match meta_content (SelAttrEq "meta" "name" "twitter:image") d with
  | Some c => Ok (Some c)
  | None => scan_imgs P resolve uri d
  end
  end
  end.

(** What [getImg]'s [forEach] callback leaves of an element of the live
    document once the page function has returned: an image that passed the
    filter carries its re-rooted source. *)
Definition rerooted (P : Platform) (resolve : string -> string)
    (uri : option string) (n : node) : node :=
  if matches [SelTag "img"] n && addImg n then
    match reroot P resolve uri n with
    | Ok n' => n'
    | Raised _ => n
    end
  else n.

(** The document a run of [getImg]'s page function that returns leaves
    behind: untouched when a meta tag or link gave the image, else with
    the sources of the filtered images re-rooted. *)
Definition getImg_document (P : Platform) (resolve : string -> string)
    (uri : option string) (d : Document) : Document :=
  match meta_content (SelAttrEq "meta" "property" "og:image") d with
  | Some _ => d
  | None =>
  match link_href resolve (SelAttrEq "link" "rel" "image_src") d with
  | Some _ => d
  | None =>
  match meta_content (SelAttrEq "meta" "name" "twitter:image") d with
  | Some _ => d
  | None => amend_all (rerooted P resolve uri) d
  end
  end
  end.

(** *** The methods of [Renderer] *)

Section Methods.
Variable browser : Browser.
Variable config : Config.
Variable P : Platform.

(** Runs a page function that only reads the document. *)
Definition reading {A} (f : Document -> outcome A)
  : Document -> outcome (A * Document) :=
  fun d => match f d with
           | Ok a => Ok (a, d)
           | Raised e => Raised e
           end.

Definition getTitle : M (option string) :=
  evaluate browser GetTitle (reading (getTitle_page (innerHTML browser))).

Definition getDescription : M (option string) :=
  evaluate browser GetDescription
    (reading (fun d => Ok (getDescription_page d))).

Definition strip_www (u : URL) : string :=
  replace_first "www." (hostname u).

Definition getDomainName (uri : string) : M string :=
  domainName ← evaluate browser GetDomainName
    (reading (fun d => Ok (getDomainName_page (resolve browser) d)));
  match domainName with
  | Some dn =>
      match new_URL P dn with
      | Some u => mret (strip_www u)
      | None => throw TypeError
      end
  | None =>
      match new_URL P uri with
      | Some u => mret (strip_www u)
      | None => throw TypeError
      end
  end.

(** The page function takes no argument: the [uri] it names is the page's
    global of that name, not the parameter of the method.  A run that
    returns leaves the sources it re-rooted in the live document; a run
    that throws has changed nothing, since the first image that needs
    re-rooting is the one at which it throws. *)
Definition getImg (uri : string) : M (option string) :=
  evaluate browser GetImg
    (fun d =>
       match getImg_page P (resolve browser) (page_uri browser) d with
       | Ok src => Ok (src, getImg_document P (resolve browser)
                              (page_uri browser) d)
       | Raised e => Raised e
       end).

(** [response.headers()['metadata-flavor'] === 'Google'] *)
Definition is_metadata (r : Response) : bool :=
  match r_headers r !! "metadata-flavor" with
  | Some v => String.eqb v "Google"
  | None => false
  end.

(** The listener of [serialize]: keeps the first response it sees. *)
Definition keep_first (response : option Response) (r : Response)
  : option Response :=
  match response with
  | None => Some r
  | Some _ => response
  end.

(** The status the response is delivered with, from the status of the
    network response and the result of the [render:status_code]
    lookup. *)
Definition override_status (statusCode : Z)
    (newStatusCode : option double) : double :=
  let statusCode := if statusCode =? 304 then 200 else statusCode in
  if (statusCode =? 200) && truthy_number newStatusCode
  then match newStatusCode with
       | Some n => n
       | None => Integer statusCode
       end
  else Integer statusCode.

(** The lookup of [<meta name="render:status_code" content="4xx" />];
    [None] stands for [undefined]. *)
Definition lookup_status_code : M (option double) :=
  catch_undefined
    (eval_selector browser StatusCodeMeta
       [SelAttrEq "meta" "name" "render:status_code"]
       status_code_of).

(** The lookup of [<meta name="render:header" content="key:value" />]. *)
Definition lookup_header : M (option (list (string * string))) :=
  catch_undefined
    (eval_selector browser HeaderMeta
       [SelAttrEq "meta" "name" "render:header"]
       header_of).

(** [customHeaders ? new Map(JSON.parse(customHeaders)) : new Map()] *)
Definition headers_map (customHeaders : option (list (string * string)))
  : gmap string string :=
  match customHeaders with
  | Some entries => list_to_map entries
  | None => ∅
  end.

(** The template [`${parsedUrl.protocol}//${parsedUrl.host}`]. *)
Definition origin_of (requestUrl : string) : string :=
  let '(protocol, host) := url_parse P requestUrl in
  default "null" protocol +:+ "//" +:+ default "null" host.

(** [url.parse(requestUrl)] as a step of [serialize]. *)
Definition parse_request_url (requestUrl : string) : M unit :=
  if url_parse_throws P requestUrl then throw URIError else mret tt.

Definition serialize (requestUrl : string) (isMobile preview : bool)
  : M rendered :=
  newPage browser ;;
  setViewport browser (width config) (height config) isMobile ;;
  (if isMobile then setUserAgent MOBILE_USERAGENT else mret tt) ;;
  evaluateOnNewDocument "customElements.forcePolyfill = true" ;;
  evaluateOnNewDocument "ShadyDOM = {force: true}" ;;
  evaluateOnNewDocument "ShadyCSS = {shimcssproperties: true}" ;;
  let response : option Response := None in
  addListener "response" ;;
  '(response, settled) ←
    goto browser requestUrl (timeout config) keep_first response;
  response ← match settled with
             | GotoResolves r => mret r
             | GotoThrows => console_error ;; mret response
             end;
  match response with
  | None =>
      console_error ;;
      close browser ;;
      mret (Serialized (mkSerialized 400 ∅ ""))
  | Some response =>
      if is_metadata response then
        close browser ;;
        mret (Serialized (mkSerialized 403 ∅ ""))
      else
        let statusCode := r_status response in
        newStatusCode ← lookup_status_code;
        let statusCode := override_status statusCode newStatusCode in
        customHeaders ← lookup_header;
        if preview then
          title ← getTitle;
          description ← getDescription;
          domain ← getDomainName requestUrl;
          img ← getImg requestUrl;
          close browser ;;
          mret (Preview (mkPreview statusCode title description domain img))
        else
          evaluate browser StripPage (fun d => Ok (tt, stripPage d)) ;;
          parse_request_url requestUrl ;;
          evaluate browser InjectBaseHref
            (fun d => match injectBaseHref (origin_of requestUrl) d with
                      | Ok d' => Ok (tt, d')
                      | Raised e => Raised e
                      end) ;;
          result ← content_of_page browser;
          close browser ;;
          mret (Serialized
                  (mkSerialized statusCode (headers_map customHeaders)
                     result))
  end.

(** [Object.assign({}, options, {type: 'jpeg', encoding: 'binary'})];
    [None] stands for an omitted [options]. *)
Definition screenshot_options (options : option (gmap string string))
  : gmap string string :=
  <["encoding" := "binary"]> (<["type" := "jpeg"]> (default ∅ options)).

(** No listener is registered by [screenshot]. *)
Definition no_listener (u : unit) (r : Response) : unit := u.

Definition screenshot (url : string) (isMobile : bool)
    (dimensions : Z * Z) (options : option (gmap string string))
  : M string :=
  newPage browser ;;
  setViewport browser (fst dimensions) (snd dimensions) isMobile ;;
  (if isMobile then setUserAgent MOBILE_USERAGENT else mret tt) ;;
  let response : option Response := None in
  '(_, settled) ← goto browser url (timeout config) no_listener tt;
  response ← match settled with
             | GotoResolves r => mret r
             | GotoThrows => console_error ;; mret response
             end;
  match response with
  | None =>
      close browser ;;
      throw (ScreenshotError NoResponse)
  | Some response =>
      if is_metadata response then
        close browser ;;
        throw (ScreenshotError Forbidden)
      else
        let screenshotOptions := screenshot_options options in
        buffer ← take_screenshot browser screenshotOptions;
        close browser ;;
        mret buffer
  end.

End Methods.

End Renderer.

Import Renderer.

(* ===================================================================== *)
(** ** A concrete platform and concrete pages *)
(* ===================================================================== *)

Module Sample.

(** Index of the first of [/], [?], [#] in [s], or its length. *)
Fixpoint authority_end (s : string) : nat :=
  match s with
  | EmptyString => 0
  | String c s' =>
      if (Ascii.eqb c "/" || Ascii.eqb c "?" || Ascii.eqb c "#")%bool
      then 0 else S (authority_end s')
  end.

Fixpoint port_start (s : string) : nat :=
  match s with
  | EmptyString => 0
  | String c s' => if Ascii.eqb c ":" then 0 else S (port_start s')
  end.

(** URLs of the plain form [scheme://host[:port][/...]]. *)
Definition split_url (s : string) : option (string * string) :=
  let i := indexOf "://" s in
  if (i <=? 0) then None
  else
    let rest := substring_from s (i + 3) in
    let authority := take (authority_end rest) rest in
    if String.eqb authority "" then None
    else Some (substr0 s i, authority).

Definition plain_URL (s : string) : option URL :=
  match split_url s with
  | Some (scheme, authority) =>
      Some (mkURL (take (port_start authority) authority)
                  (scheme +:+ "://" +:+ authority))
  | None => None
  end.

Definition plain_parse (s : string) : option string * option string :=
  match split_url s with
  | Some (scheme, authority) => (Some (scheme +:+ ":"), Some authority)
  | None => (None, None)
  end.

(** Whether the authority of [s] has a user part that ends in a bare
    percent sign, as in [http://%@host/]: [url.parse] cannot decode it. *)
Definition undecodable (s : string) : bool :=
  let i := indexOf "://" s in
  if (i <=? 0) then false
  else
    let rest := substring_from s (i + 3) in
    negb (indexOf "%@" (take (authority_end rest) rest) =? -1).

Definition platform : Platform :=
  mkPlatform plain_URL plain_parse undecodable.

Definition config : Config := mkConfig 1000 1000 10000.

(** Markup without attributes, enough to tell documents apart. *)
Fixpoint markup (n : node) : string :=
  match n with
  | Text s => s
  | Element t _ _ ks =>
      "<" +:+ t +:+ ">"
        +:+ fold_right (fun k acc => markup k +:+ acc) "" ks
        +:+ "</" +:+ t +:+ ">"
  end.

Definition inner (n : node) : string :=
  match n with
  | Text _ => ""
  | Element _ _ _ ks => fold_right (fun k acc => markup k +:+ acc) "" ks
  end.

Definition el (t : string) (a : list (string * string)) (ks : list node)
  : node := Element t (list_to_map a) no_layout ks.

Definition image (src : string) (w h : Z) : node :=
  Element "img" {[ "src" := src ]} (mkLayout w h true) [].

(** A browser that loads [d] with main response [r], every call
    succeeding. *)
Definition loads (d : Document) (r : Response) : Browser :=
  mkBrowser d [r] (GotoResolves (Some r)) (fun _ => false) None
    (fun s => s) inner
    (fun d => fold_right (fun k acc => markup k +:+ acc) "" d)
    (fun _ _ => "jpeg").

(** The same page when navigation runs into its time-out. *)
Definition times_out (d : Document) (r : Response) : Browser :=
  mkBrowser d [r] GotoThrows (fun _ => false) None
    (fun s => s) inner
    (fun d => fold_right (fun k acc => markup k +:+ acc) "" d)
    (fun _ _ => "jpeg").

Definition ok200 : Response := mkResponse 200 ∅.

Definition page_with_head (hs body : list node) : Document :=
  [ el "head" [] hs; el "body" [] body ].

End Sample.

(* ===================================================================== *)
(** ** Sample pages *)
(* ===================================================================== *)

Module Pages.
Import Sample.

Definition meta_name (name value : string) : node :=
  el "meta" [("name", name); ("content", value)] [].

Definition meta_property (property value : string) : node :=
  el "meta" [("property", property); ("content", value)] [].

(** A page with text but no title of any kind and no heading. *)
Definition untitled : Document :=
  page_with_head [] [el "p" [] [Text "Hello"]].

(** A titled page whose only image is a 40x40 icon. *)
Definition icon_only : Document :=
  page_with_head [el "title" [] [Text "Icons"]] [image "icon.png" 40 40].

(** A titled page with three images of sizes 40x40, 200x60 and 200x80. *)
Definition gallery : Document :=
  page_with_head [el "title" [] [Text "Gallery"]]
    [image "a.png" 40 40; image "b.png" 200 60; image "c.png" 200 80].

(** A titled page and nothing else. *)
Definition plain : Document :=
  page_with_head [el "title" [] [Text "Plain"]] [].

(** Pages carrying a status override. *)
Definition with_status (value : string) : Document :=
  page_with_head
    [el "title" [] [Text "Status"]; meta_name "render:status_code" value] [].

(** A page carrying a custom header. *)
Definition with_header (value : string) : Document :=
  page_with_head
    [el "title" [] [Text "Header"]; meta_name "render:header" value] [].

(** A page with a script, a JSON island, an import and a relative base. *)
Definition scripted : Document :=
  page_with_head
    [el "script" [] [Text "run()"];
     el "script" [("type", "application/json")] [Text "{}"];
     el "link" [("rel", "import"); ("href", "x.html")] [];
     el "base" [("href", "/app/")] []]
    [el "h1" [] [Text "Hi"]; el "script" [("type", "text/javascript")] []].

Definition metadata_response : Response :=
  mkResponse 200 {[ "metadata-flavor" := "Google" ]}.

End Pages.

(* ===================================================================== *)
(** ** Notions used in the statements *)
(* ===================================================================== *)

(** Whether a string starts, or ends, with white space. *)
Definition starts_ws (s : string) : bool :=
  match s with
  | String c _ => is_ws c
  | EmptyString => false
  end.

Fixpoint ends_ws (s : string) : bool :=
  match s with
  | EmptyString => false
  | String c EmptyString => is_ws c
  | String _ s' => ends_ws s'
  end.

(** Whether a string is made of white space only. *)
Fixpoint all_ws (s : string) : bool :=
  match s with
  | EmptyString => true
  | String c s' => is_ws c && all_ws s'
  end.

(** [t] is [s] without the white space around it: [s] is [t] between two
    runs of white space, and [t] neither starts nor ends with white
    space. *)
Definition stripped_of (s t : string) : Prop :=
  (exists l r, s = l +:+ t +:+ r /\ all_ws l = true /\ all_ws r = true)
  /\ starts_ws t = false /\ ends_ws t = false.

Definition base_selector : selector := [SelTag "base"].

(** The [href] that [injectBaseHref] reads from a [<base>]. *)
Definition existing_href (b : node) : string :=
  default "" (getAttribute "href" b).

(** The head of a sanitized document: free of stripped elements, with a
    first [<base>] that [injectBaseHref] leaves alone. *)
Definition settled_head (origin : string) (hs : list node) : Prop :=
  querySelectorAll strip_selector hs = [] /\
  exists b, querySelector base_selector hs = Some b
            /\ patch_base origin b = b
            /\ (origin <> "" -> startsWith "/" (existing_href b) = false).

(** The response [serialize] goes on with: the one [goto] resolved with,
    or, when [goto] threw, the first one its listener saw. *)
Definition captured_by_serialize (b : Browser) : option Response :=
  match navigation b with
  | GotoResolves r => r
  | GotoThrows => head (emitted b)
  end.

(** The response [screenshot] goes on with. *)
Definition captured_by_screenshot (b : Browser) : option Response :=
  match navigation b with
  | GotoResolves r => r
  | GotoThrows => None
  end.

(** What the two meta lookups yield on the loaded document. *)
Definition status_tag (b : Browser) : option double :=
  if faults b (OpRun StatusCodeMeta) then None
  else status_code_of
         <$> querySelector [SelAttrEq "meta" "name" "render:status_code"]
               (loaded b).

Definition header_tag (b : Browser) : option (list (string * string)) :=
  if faults b (OpRun HeaderMeta) then None
  else header_of
         <$> querySelector [SelAttrEq "meta" "name" "render:header"]
               (loaded b).

Definition status_of (r : rendered) : double :=
  match r with
  | Serialized s => status s
  | Preview p => preview_status p
  end.

Definition last_event (p : page) : option event := head (trace p).

(** The status of the network response after the 304-to-200
    normalization. *)
Definition baseline_status (r : Response) : Z :=
  if r_status r =? 304 then 200 else r_status r.

(** The same browser, had [goto] resolved with [r]. *)
Definition resolving_with (r : Response) (b : Browser) : Browser :=
  mkBrowser (loaded b) (emitted b) (GotoResolves (Some r)) (faults b)
    (page_uri b) (resolve b) (innerHTML b) (page_content b) (capture b).

(** The URL whose host name becomes the domain: the canonical link, else
    the Open-Graph url, else the requested URL. *)
Definition domain_source (resolve : string -> string) (uri : string)
    (d : Document) : string :=
  default uri (getDomainName_page resolve d).

(* ===================================================================== *)
(** ** The server *)
(* ===================================================================== *)

Module Rendertron.

(** What the server relies on from Koa's context: [ctx.set] rejects some
    header names and values with a [TypeError], and the [ctx.status] setter
    rejects some codes with an assertion error, among them every number
    that is not an integer. *)
Record Koa := mkKoa {
  valid_header : string -> string -> bool;
  valid_status : Z -> bool
}.

(** What a handler assigns to [ctx.body]. *)
Inductive body :=
| BodyText (s : string)
| BodyObject (r : rendered)
| BodyBuffer (b : string).

(** The assignments a handler has made to the response: the status, the
    header fields (under their lower-case names, as Node stores them) and
    the body. *)
Record Context := mkContext {
  status_set : option Z;
  headers_set : gmap string string;
  body_set : option body
}.

Definition fresh : Context := mkContext None ∅ None.

(** What the handlers read from the request: [ctx.method],
    [ctx.headers.token], ['mobile' in ctx.query],
    [Number(ctx.query['width'])], [Number(ctx.query['height'])] (integers
    and [NaN] only) and [ctx.request.body] ([None] when it is falsy). *)
Record Request := mkRequest {
  method : string;
  token_header : option string;
  mobile : bool;
  width_query : number;
  height_query : number;
  posted : option (gmap string string)
}.

(** [Config] as the server reads it: the renderer's part, the token and
    the headers added to every response, in enumeration order. *)
Record Settings := mkSettings {
  renderer_config : Config;
  token : option string;
  headers : list (string * string)
}.

(** The server: its configuration and, once [createRenderer] has run, the
    browser its renderer drives. *)
Record Server := mkServer {
  config : Settings;
  renderer : option Browser
}.

(** How a handler can fail. *)
Inductive failure :=
| NoRenderer                       (* [Error('No renderer initalized yet.')] *)
| InvalidStatus (code : double)    (* assertion of the status setter *)
| Thrown (e : exn).

Inductive result (A : Type) :=
| Done (a : A)
| Failed (f : failure).
Arguments Done {A} a.
Arguments Failed {A} f.

(** Handlers act on the context of the request and on the page their
    renderer call opens. *)
Definition K (A : Type) : Type := Context * page -> result A * (Context * page).

#[global] Instance K_ret : MRet K := fun A a s => (Done a, s).
#[global] Instance K_bind : MBind K := fun A B f m s =>
  match m s with
  | (Done a, s') => f a s'
  | (Failed e, s') => (Failed e, s')
  end.

Definition fail {A} (f : failure) : K A := fun s => (Failed f, s).

(** [await] of a renderer method, which opens its own page. *)
Definition await {A} (m : M A) : K A := fun s =>
  match m blank with
  | (Ok a, p) => (Done a, (fst s, p))
  | (Raised e, p) => (Failed (Thrown e), (fst s, p))
  end.

(** [ctx.status = code] *)
Definition assign_status (k : Koa) (code : double) : K unit := fun s =>
  match code with
  | Integer z =>
      if valid_status k z
      then (Done tt,
            (mkContext (Some z) (headers_set (fst s)) (body_set (fst s)),
             snd s))
      else (Failed (InvalidStatus code), s)
  | _ => (Failed (InvalidStatus code), s)
  end.

(** [ctx.set(field, val)] *)
Definition set (k : Koa) (field val : string) : K unit := fun s =>
  if valid_header k field val
  then (Done tt,
        (mkContext (status_set (fst s))
           (<[lower field := val]> (headers_set (fst s)))
           (body_set (fst s)),
         snd s))
  else (Failed (Thrown TypeError), s).

(** [ctx.body = b] *)
Definition assign_body (b : body) : K unit := fun s =>
  (Done tt,
   (mkContext (status_set (fst s)) (headers_set (fst s)) (Some b), snd s)).

(** [for (const key in obj) ctx.set(key, obj[key])], and [forEach] over the
    entries of a map. *)
Fixpoint set_all (k : Koa) (l : list (string * string)) : K unit :=
  match l with
  | [] => mret tt
  | (key, val) :: r => set k key val ;; set_all k r
  end.

(** [try { m } catch (error) { handler(error) }] *)
Definition try_catch {A} (m : K A) (handler : failure -> K A) : K A :=
  fun s =>
    match m s with
    | (Done a, s') => (Done a, s')
    | (Failed f, s') => handler f s'
    end.

(** [restricted(href)]: the protocol of the parsed URL does not match
    [/^https?/], that is, does not start with [http].  [href] is [None]
    when it is not a string, which [url.parse] rejects with a [TypeError];
    a string it cannot decode it rejects with a [URIError]. *)
Definition restricted (P : Platform) (href : option string) : K bool :=
  match href with
  | None => fail (Thrown TypeError)
  | Some h =>
      if url_parse_throws P h then fail (Thrown URIError)
      else
        let protocol := default "" (fst (url_parse P h)) in
        mret (negb (startsWith "http" protocol))
  end.

(** [authorized(token)]: [token === this.config.token] *)
Definition authorized (srv : Server) (t : option string) : bool :=
  bool_decide (t = token (config srv)).

(** The entry of [handleRenderRequest], [handlePreviewRequest] and
    [handleScreenshotRequest]: the renderer must exist, and the request
    must be neither restricted nor unauthorized; [None] when the handler
    has answered 403 and returned. *)
Definition admitted (k : Koa) (P : Platform) (srv : Server)
    (req : Request) (url : option string) : K (option Browser) :=
  match renderer srv with
  | None => fail NoRenderer
  | Some b =>
      r ← restricted P url;
      if r || negb (authorized srv (token_header req))
      then assign_status k 403 ;; mret None
      else mret (Some b)
  end.

Definition handleRenderRequest (k : Koa) (P : Platform) (srv : Server)
    (req : Request) (url : string) : K unit :=
  go ← admitted k P srv req (Some url);
  match go with
  | None => mret tt
  | Some b =>
      let mobileVersion := mobile req in
      serialized ← await
        (serialize b (renderer_config (config srv)) P url mobileVersion false);
      set_all k (headers (config srv)) ;;
      set k "x-renderer" "rendertron" ;;
      match serialized with
      | Serialized s =>
          set_all k (map_to_list (customHeaders s)) ;;
          assign_status k (status s) ;;
          assign_body (BodyText (content s))
      | Preview _ => fail (Thrown TypeError)   (* [customHeaders] missing *)
      end
  end.

Definition handlePreviewRequest (k : Koa) (P : Platform) (srv : Server)
    (req : Request) (url : option string) : K unit :=
  go ← admitted k P srv req url;
  match go, url with
  | Some b, Some url =>
      let mobileVersion := mobile req in
      preview ← await
        (serialize b (renderer_config (config srv)) P url mobileVersion true);
      set_all k (headers (config srv)) ;;
      set k "x-renderer" "rendertron" ;;
      assign_status k (status_of preview) ;;
      assign_body (BodyObject preview)
  | _, _ => mret tt
  end.

(** [Number(q) || fallback] *)
Definition or_config (q : number) (fallback : Z) : Z :=
  match q with
  | Num z => if z =? 0 then fallback else z
  | NaN => fallback
  end.

Definition handleScreenshotRequest (k : Koa) (P : Platform) (srv : Server)
    (req : Request) (url : string) : K unit :=
  go ← admitted k P srv req (Some url);
  match go with
  | None => mret tt
  | Some b =>
      let options :=
        if String.eqb (method req) "POST" then posted req else None in
      let dimensions :=
        (or_config (width_query req) (width (renderer_config (config srv))),
         or_config (height_query req)
           (height (renderer_config (config srv)))) in
      let mobileVersion := mobile req in
      try_catch
        (img ← await
           (screenshot b (renderer_config (config srv)) url mobileVersion
              dimensions options);
         set_all k (headers (config srv)) ;;
         set k "Content-Type" "image/jpeg" ;;
         set k "Content-Length" (pretty (String.length img)) ;;
         assign_body (BodyBuffer img))
        (fun error =>
           assign_status k
             (match error with
              | Thrown (ScreenshotError Forbidden) => 403
              | _ => 500
              end))
  end.

End Rendertron.

(* ===================================================================== *)
(** ** Notions used in the statements about the rest of the code *)
(* ===================================================================== *)

(** What a node is by itself: the data of a text node; the name, the
    attributes and the layout of an element. *)
Inductive label :=
| LText (data : string)
| LElement (tag : string) (attrs : gmap string string) (box : layout).

(** The nodes of a tree, and of a forest, in tree order. *)
Fixpoint labels_in (n : node) : list label :=
  match n with
  | Text s => [LText s]
  | Element t a b ks =>
      LElement t a b
        :: (fix go (l : list node) : list label :=
              match l with
              | [] => []
              | k :: r => labels_in k ++ go r
              end) ks
  end.

Fixpoint labels (l : list node) : list label :=
  match l with
  | [] => []
  | k :: r => labels_in k ++ labels r
  end.

(** The nodes that lie in no element matching [sel], in tree order. *)
Fixpoint outside_in (sel : selector) (n : node) : list label :=
  match n with
  | Text s => [LText s]
  | Element t a b ks =>
      if matches sel n then []
      else LElement t a b
             :: (fix go (l : list node) : list label :=
                   match l with
                   | [] => []
                   | k :: r => outside_in sel k ++ go r
                   end) ks
  end.

Fixpoint outside (sel : selector) (l : list node) : list label :=
  match l with
  | [] => []
  | k :: r => outside_in sel k ++ outside sel r
  end.

(** A node that is as [y], except perhaps for the [src] attribute of an
    [img] element. *)
Definition same_but_src (x y : label) : Prop :=
  match x, y with
  | LText s, LText s' => s = s'
  | LElement t a b, LElement t' a' b' =>
      t = t' /\ b = b'
      /\ (a = a' \/ (t = "img" /\ exists v, a = <["src" := v]> a'))
  | _, _ => False
  end.

(** A document whose first [head] child of the root has the children
    [hs]. *)
Definition with_head (before : list node) (a : gmap string string)
    (bx : layout) (hs : list node) (after : list node) : Document :=
  before ++ Element "head" a bx hs :: after.

(** The test [getDescription] applies to a paragraph. *)
Definition describes (p : node) : bool :=
  match p with
  | Element _ _ b _ =>
      hasOffsetParent b && negb (Nat.eqb (childElementCount p) 0)
  | Text _ => false
  end.

Definition has_scheme_marker (resolve : string -> string) (i : node) : bool :=
  negb (indexOf "//" (url_attr resolve "src" i) =? -1).

(** The engine calls of a request in the order they were made, and the
    scripts among them. *)
Definition history (p : page) : list event := rev (trace p).
Definition scripts (p : page) : list event := List.filter is_Run (history p).

(** The calls [serialize] makes up to and including navigation. *)
Definition serialize_setup (c : Config) (url : string) (isMobile : bool)
  : list event :=
  [NewPage; SetViewport (width c) (height c) isMobile]
    ++ (if isMobile then [SetUserAgent MOBILE_USERAGENT] else [])
    ++ [EvaluateOnNewDocument "customElements.forcePolyfill = true";
        EvaluateOnNewDocument "ShadyDOM = {force: true}";
        EvaluateOnNewDocument "ShadyCSS = {shimcssproperties: true}";
        AddListener "response";
        Goto url (timeout c)].

(** The calls [screenshot] makes up to and including navigation. *)
Definition screenshot_setup (c : Config) (url : string) (isMobile : bool)
    (dimensions : Z * Z) : list event :=
  [NewPage; SetViewport (fst dimensions) (snd dimensions) isMobile]
    ++ (if isMobile then [SetUserAgent MOBILE_USERAGENT] else [])
    ++ [Goto url (timeout c)].

Definition preview_scripts : list event :=
  [Run StatusCodeMeta; Run HeaderMeta; Run GetTitle; Run GetDescription;
   Run GetDomainName; Run GetImg].

Definition full_scripts : list event :=
  [Run StatusCodeMeta; Run HeaderMeta; Run StripPage; Run InjectBaseHref;
   Content].

(** The same browser with other ['response'] events. *)
Definition emitting (l : list Response) (b : Browser) : Browser :=
  mkBrowser (loaded b) l (navigation b) (faults b) (page_uri b) (resolve b)
    (innerHTML b) (page_content b) (capture b).

(** A request the handlers answer with 403: the protocol of its URL does
    not start with [http], or its token is not the configured one. *)
Definition blocked (P : Platform) (srv : Rendertron.Server)
    (req : Rendertron.Request) (url : string) : Prop :=
  startsWith "http" (default "" (fst (url_parse P url))) = false
  \/ Rendertron.token_header req
     <> Rendertron.token (Rendertron.config srv).

(** The header fields after a run of [ctx.set] calls. *)
Definition fields_after (l : list (string * string))
    (h : gmap string string) : gmap string string :=
  fold_left (fun h kv => <[lower (fst kv) := snd kv]> h) l h.

Definition all_valid (k : Rendertron.Koa) (l : list (string * string)) : bool :=
  forallb (fun kv => Rendertron.valid_header k (fst kv) (snd kv)) l.

Ltac kexec :=
  cbv beta iota zeta delta
    [Rendertron.handleRenderRequest Rendertron.handlePreviewRequest
     Rendertron.handleScreenshotRequest Rendertron.admitted
     Rendertron.restricted Rendertron.await Rendertron.assign_status
     Rendertron.set Rendertron.assign_body Rendertron.try_catch
     Rendertron.fail mbind Rendertron.K_bind mret Rendertron.K_ret fst snd
     Rendertron.status_set Rendertron.headers_set Rendertron.body_set].

(** A server for the examples: token [secret], one configured header. *)
Definition sample_server (b : Browser) : Rendertron.Server :=
  Rendertron.mkServer
    (Rendertron.mkSettings Sample.config (Some "secret")
       [("Cache-Control", "no-store")])
    (Some b).

Definition lenient_koa : Rendertron.Koa :=
  Rendertron.mkKoa (fun name _ => negb (String.eqb name ""))
    (fun code => (100 <=? code) && (code <=? 999)).

Definition get_with (token : option string) : Rendertron.Request :=
  Rendertron.mkRequest "GET" token false NaN NaN None.

(** The viewport and the options [handleScreenshotRequest] asks for. *)
Definition requested_dimensions (srv : Rendertron.Server)
    (req : Rendertron.Request) : Z * Z :=
  (Rendertron.or_config (Rendertron.width_query req)
     (width (Rendertron.renderer_config (Rendertron.config srv))),
   Rendertron.or_config (Rendertron.height_query req)
     (height (Rendertron.renderer_config (Rendertron.config srv)))).

Definition requested_options (req : Rendertron.Request)
  : option (gmap string string) :=
  if String.eqb (Rendertron.method req) "POST" then Rendertron.posted req
  else None.

(** The screenshot the handler asks the renderer for. *)
Definition requested_screenshot (srv : Rendertron.Server)
    (req : Rendertron.Request) (url : string) (b : Browser)
  : outcome string * page :=
  screenshot b (Rendertron.renderer_config (Rendertron.config srv)) url
    (Rendertron.mobile req) (requested_dimensions srv req)
    (requested_options req) blank.

(* ===================================================================== *)
(** ** Facts about strings *)
(* ===================================================================== *)

Section StringFacts.

Lemma append_nil (s : string) : "" +:+ s = s.
Proof. reflexivity. Qed.

Lemma append_cons (c : ascii) (s t : string) :
  String c s +:+ t = String c (s +:+ t).
Proof. reflexivity. Qed.

Lemma prefix_app (p s : string) : String.prefix p (p +:+ s) = true.
Proof.
  induction p as [|c p IH]; rewrite ?append_nil, ?append_cons; simpl.
  - destruct s; reflexivity.
  - destruct (Ascii.ascii_dec c c); [exact IH | congruence].
Qed.

Lemma drop_app (p s : string) : drop (String.length p) (p +:+ s) = s.
Proof.
  induction p as [|c p IH]; rewrite ?append_nil, ?append_cons; simpl;
    [destruct s|]; auto.
Qed.

Lemma take_app (p s : string) : take (String.length p) (p +:+ s) = p.
Proof.
  induction p as [|c p IH]; rewrite ?append_nil, ?append_cons; simpl;
    [destruct s|]; auto.
  now rewrite IH.
Qed.

Lemma take_drop (n : nat) (s : string) : take n s +:+ drop n s = s.
Proof.
  revert s; induction n as [|n IH]; intros [|c s]; simpl;
    rewrite ?append_nil, ?append_cons; auto.
  now rewrite IH.
Qed.

(** A leading occurrence is the one [replace_first] removes. *)
Lemma replace_first_prefix (p s : string) : replace_first p (p +:+ s) = s.
Proof.
  assert (H : forall t, String.prefix p t = true ->
                        replace_first p t = drop (String.length p) t).
  { intros [|c t] Ht; cbn [replace_first]; now rewrite Ht. }
  rewrite H by apply prefix_app. apply drop_app.
Qed.

Lemma indexOf_from_shift (p s : string) (i : Z) :
  indexOf_from p s i = -1 \/ i <= indexOf_from p s i.
Proof.
  revert i; induction s as [|c s IH]; intros i; cbn [indexOf_from].
  - destruct (String.prefix p ""); [right; lia | now left].
  - destruct (String.prefix p (String c s)); [right; lia|].
    destruct (IH (i + 1)); [now left | right; lia].
Qed.

Lemma indexOf_from_add (p s : string) (i : Z) :
  0 <= i ->
  indexOf_from p s i =
    if indexOf_from p s 0 =? -1 then -1 else i + indexOf_from p s 0.
Proof.
  revert i; induction s as [|c s IH]; intros i Hi; cbn [indexOf_from].
  - destruct (String.prefix p ""); simpl; lia.
  - destruct (String.prefix p (String c s)); [simpl; lia|].
    rewrite (IH (i + 1)), (IH (0 + 1)) by lia.
    destruct (indexOf_from p s 0 =? -1) eqn:E; [reflexivity|].
    destruct (indexOf_from_shift p s 0) as [H|H].
    + rewrite H in E. discriminate.
    + destruct (0 + 1 + indexOf_from p s 0 =? -1) eqn:E'; lia.
Qed.

(** Without an occurrence [replace_first] changes nothing. *)
Lemma replace_first_absent (p s : string) :
  indexOf p s = -1 -> replace_first p s = s.
Proof.
  unfold indexOf.
  induction s as [|c s IH]; cbn [indexOf_from replace_first].
  - destruct (String.prefix p ""); [discriminate | auto].
  - destruct (String.prefix p (String c s)); [discriminate|].
    intros H. rewrite (indexOf_from_add p s (0 + 1)) in H by lia.
    destruct (indexOf_from p s 0 =? -1) eqn:E.
    + rewrite IH; [reflexivity | lia].
    + destruct (indexOf_from_shift p s 0); lia.
Qed.

(** With an occurrence, the first one is cut out and nothing else. *)
Lemma replace_first_at (p s : string) :
  indexOf p s <> -1 ->
  replace_first p s =
    substr0 s (indexOf p s)
      +:+ substring_from s (indexOf p s + Z.of_nat (String.length p)).
Proof.
  unfold indexOf, substr0, substring_from.
  induction s as [|c s IH]; cbn [indexOf_from replace_first].
  - destruct (String.prefix p "") eqn:E; [|congruence].
    intros _.
    replace (Z.to_nat (0 + Z.of_nat (String.length p)))
      with (String.length p) by lia.
    reflexivity.
  - destruct (String.prefix p (String c s)) eqn:E.
    + intros _.
      replace (Z.to_nat (0 + Z.of_nat (String.length p)))
        with (String.length p) by lia.
      reflexivity.
    + rewrite (indexOf_from_add p s (0 + 1)) by lia.
      destruct (indexOf_from p s 0 =? -1) eqn:E'; [congruence|].
      intros _. destruct (indexOf_from_shift p s 0) as [H|H]; [lia|].
      rewrite IH by lia.
      replace (Z.to_nat (0 + 1 + indexOf_from p s 0))
        with (S (Z.to_nat (indexOf_from p s 0))) by lia.
      replace (Z.to_nat (0 + 1 + indexOf_from p s 0
                         + Z.of_nat (String.length p)))
        with (S (Z.to_nat (indexOf_from p s 0
                           + Z.of_nat (String.length p)))) by lia.
      reflexivity.
Qed.

End StringFacts.

Section SplitFacts.

Lemma prefix_empty (s : string) : String.prefix "" s = true.
Proof. destruct s; reflexivity. Qed.

Lemma prefix_char (c a : ascii) (s : string) :
  String.prefix (String c "") (String a s) = true <-> c = a.
Proof.
  simpl. destruct (Ascii.ascii_dec c a) as [->|Hne].
  - rewrite prefix_empty. tauto.
  - split; [discriminate | intros; contradiction].
Qed.

(** [indexOf] of a one-character pattern finds the first occurrence. *)
Lemma indexOf_char_first (c : ascii) (pre post : string) :
  indexOf (String c "") pre = -1 ->
  indexOf (String c "") (pre +:+ String c post)
    = Z.of_nat (String.length pre).
Proof.
  unfold indexOf. induction pre as [|a pre IH]; intros H.
  - rewrite append_nil. cbn [indexOf_from].
    destruct (String.prefix (String c "") (String c post)) eqn:E;
      [reflexivity|].
    assert (String.prefix (String c "") (String c post) = true)
      by now apply prefix_char.
    congruence.
  - rewrite append_cons. cbn [indexOf_from] in *.
    destruct (String.prefix (String c "") (String a pre)) eqn:E;
      [discriminate|].
    assert (Hne : String.prefix (String c "")
                    (String a (pre +:+ String c post)) = false).
    { destruct (String.prefix (String c "")
                  (String a (pre +:+ String c post))) eqn:E'; auto.
      apply prefix_char in E'. subst a.
      assert (String.prefix (String c "") (String c pre) = true)
        by now apply prefix_char.
      congruence. }
    rewrite Hne.
    rewrite (indexOf_from_add _ pre (0 + 1)) in H by lia.
    rewrite (indexOf_from_add _ (pre +:+ String c post) (0 + 1)) by lia.
    destruct (indexOf_from (String c "") pre 0 =? -1) eqn:E0.
    + rewrite IH by lia.
      destruct (Z.of_nat (String.length pre) =? -1) eqn:E1; simpl; lia.
    + destruct (indexOf_from_shift (String c "") pre 0); lia.
Qed.

(** Every string with an occurrence of [c] splits at the first one. *)
Lemma indexOf_char_split (c : ascii) (s : string) :
  indexOf (String c "") s <> -1 ->
  exists pre post,
    s = pre +:+ String c post /\ indexOf (String c "") pre = -1.
Proof.
  unfold indexOf. induction s as [|a s IH]; cbn [indexOf_from].
  - simpl. congruence.
  - destruct (String.prefix (String c "") (String a s)) eqn:E.
    + intros _. apply prefix_char in E. subst a.
      exists "", s. split; reflexivity.
    + intros H. rewrite (indexOf_from_add _ s (0 + 1)) in H by lia.
      destruct (indexOf_from (String c "") s 0 =? -1) eqn:E0;
        [congruence|].
      destruct IH as (pre & post & -> & Hpre); [lia|].
      exists (String a pre), post. split; [reflexivity|].
      cbn [indexOf_from].
      destruct (String.prefix (String c "") (String a pre)) eqn:E'.
      * apply prefix_char in E'. subst a.
        assert (String.prefix (String c "")
                  (String c (pre +:+ String c post)) = true)
          by now apply prefix_char.
        congruence.
      * rewrite (indexOf_from_add _ pre (0 + 1)) by lia.
        now rewrite Hpre.
Qed.

Lemma trimStart_starts (s : string) : starts_ws (trimStart s) = false.
Proof.
  induction s as [|c s IH]; simpl; auto.
  destruct (is_ws c) eqn:E; simpl; auto.
Qed.

Lemma trimEnd_ends (s : string) : ends_ws (trimEnd s) = false.
Proof.
  induction s as [|c s IH]; cbn [trimEnd]; auto.
  destruct (trimEnd s) eqn:E.
  - destruct (is_ws c) eqn:Ec; simpl; auto.
  - exact IH.
Qed.

Lemma trimEnd_starts (s : string) :
  starts_ws s = false -> starts_ws (trimEnd s) = false.
Proof.
  destruct s as [|c s]; cbn [trimEnd starts_ws]; auto.
  intros H. destruct (trimEnd s); rewrite ?H; simpl; auto.
Qed.

(** [trim] leaves no white space at either end. *)
Lemma trim_trimmed (s : string) :
  starts_ws (trim s) = false /\ ends_ws (trim s) = false.
Proof.
  unfold trim. split.
  - apply trimEnd_starts, trimStart_starts.
  - apply trimEnd_ends.
Qed.

Lemma trimStart_split (s : string) :
  exists l, s = l +:+ trimStart s /\ all_ws l = true.
Proof.
  induction s as [|c s (l & Hs & Hl)].
  - exists "". split; reflexivity.
  - cbn [trimStart]. destruct (is_ws c) eqn:E.
    + exists (String c l). rewrite append_cons, <- Hs. cbn [all_ws].
      rewrite E, Hl. split; reflexivity.
    + exists "". split; reflexivity.
Qed.

Lemma trimEnd_split (s : string) :
  exists r, s = trimEnd s +:+ r /\ all_ws r = true.
Proof.
  induction s as [|c s (r & Hs & Hr)].
  - exists "". split; reflexivity.
  - cbn [trimEnd]. destruct (trimEnd s) as [|c' t] eqn:Et.
    + rewrite append_nil in Hs. subst r.
      destruct (is_ws c) eqn:E.
      * exists (String c s). rewrite append_nil. cbn [all_ws].
        rewrite E, Hr. split; reflexivity.
      * exists s. rewrite append_cons, append_nil. split; auto.
    + exists r. rewrite append_cons, <- Hs. split; auto.
Qed.

Lemma append_assoc (a b c : string) : (a +:+ b) +:+ c = a +:+ (b +:+ c).
Proof.
  induction a as [|x a IH]; rewrite ?append_nil, ?append_cons; [reflexivity|].
  now rewrite IH.
Qed.

(** [trim] removes the white space around a string and nothing else. *)
Lemma trim_stripped (s : string) : stripped_of s (trim s).
Proof.
  split; [|apply trim_trimmed].
  destruct (trimStart_split s) as (l & Hs & Hl).
  destruct (trimEnd_split (trimStart s)) as (r & Ht & Hr).
  exists l, r. unfold trim. rewrite <- Ht. auto.
Qed.

End SplitFacts.

(* ===================================================================== *)
(** ** Facts about the DOM *)
(* ===================================================================== *)

Section DomFacts.

(** Induction on nodes and forests together. *)
Lemma forest_ind (P : node -> Prop) (Q : list node -> Prop) :
  (forall s, P (Text s)) ->
  (forall t a b ks, Q ks -> P (Element t a b ks)) ->
  Q [] ->
  (forall n l, P n -> Q l -> Q (n :: l)) ->
  (forall n, P n) /\ (forall l, Q l).
Proof.
  intros Ht He Hn Hc.
  assert (HP : forall n, P n).
  { apply node_ind; auto.
    intros t a b ks HF. apply He.
    induction HF; auto. }
  split; auto.
  induction l; auto.
Qed.

Variable sel : selector.

Lemma matching_in_element t a b ks :
  matching_in sel (Element t a b ks)
  = (if matches sel (Element t a b ks) then [Element t a b ks] else [])
      ++ querySelectorAll sel ks.
Proof.
  cbn [matching_in]. f_equal.
  induction ks as [|k r IH]; cbn [querySelectorAll]; congruence.
Qed.

Lemma remove_in_element t a b ks :
  remove_in sel (Element t a b ks) = Element t a b (remove_all sel ks).
Proof.
  cbn [remove_in]. f_equal.
  induction ks as [|k r IH]; cbn [remove_all]; [reflexivity|].
  rewrite IH. reflexivity.
Qed.

Lemma update_in_element f t a b ks :
  update_in sel f (Element t a b ks)
  = if matches sel (Element t a b ks) then Some (f (Element t a b ks))
    else option_map (Element t a b) (update_first sel f ks).
Proof.
  cbn [update_in]. destruct (matches sel (Element t a b ks)); auto.
  f_equal. induction ks as [|k r IH]; cbn [update_first]; [reflexivity|].
  rewrite IH. reflexivity.
Qed.

(** Whether an element matches depends on its name and attributes only. *)
Lemma matches_children s t a b ks b' ks' :
  matches s (Element t a b ks) = matches s (Element t a b' ks').
Proof. reflexivity. Qed.

Lemma matches_remove_in s n : matches s (remove_in sel n) = matches s n.
Proof. destruct n; [reflexivity|]. rewrite remove_in_element. reflexivity. Qed.

Lemma matches_text s d : matches s (Text d) = false.
Proof. induction s as [|x s IH]; [reflexivity | exact IH]. Qed.

(** After [remove_all] nothing matches any more. *)
Lemma remove_all_clean :
  forall l, querySelectorAll sel (remove_all sel l) = [].
Proof.
  apply (forest_ind
           (fun n => matches sel n = false ->
                     matching_in sel (remove_in sel n) = [])
           (fun l => querySelectorAll sel (remove_all sel l) = [])).
  - reflexivity.
  - intros t a b ks IH Hm. rewrite remove_in_element, matching_in_element.
    rewrite (matches_children sel t a b (remove_all sel ks) b ks), Hm, IH.
    reflexivity.
  - reflexivity.
  - intros n l IHn IHl. cbn [remove_all].
    destruct (matches sel n) eqn:E; [exact IHl|].
    cbn [querySelectorAll]. rewrite IHn, IHl; auto.
Qed.

(** Where nothing matches, [remove_all] changes nothing. *)
Lemma remove_all_id :
  forall l, querySelectorAll sel l = [] -> remove_all sel l = l.
Proof.
  apply (forest_ind
           (fun n => matching_in sel n = [] ->
                     matches sel n = false /\ remove_in sel n = n)
           (fun l => querySelectorAll sel l = [] -> remove_all sel l = l)).
  - intros s _. split; [apply matches_text | reflexivity].
  - intros t a b ks IH. rewrite matching_in_element, remove_in_element.
    destruct (matches sel (Element t a b ks)); [discriminate|].
    intros H. simpl in H. rewrite IH; auto.
  - reflexivity.
  - intros n l IHn IHl H. cbn [querySelectorAll] in H.
    apply app_eq_nil in H as [Hn Hl].
    destruct (IHn Hn) as [Hm Hr].
    cbn [remove_all]. rewrite Hm, Hr, IHl; auto.
Qed.

(** [update_first] fails exactly when nothing matches. *)
Lemma update_none f :
  (forall n, update_in sel f n = None <-> matching_in sel n = []) /\
  (forall l, update_first sel f l = None <-> querySelectorAll sel l = []).
Proof.
  apply (forest_ind
           (fun n => update_in sel f n = None <-> matching_in sel n = [])
           (fun l => update_first sel f l = None
                     <-> querySelectorAll sel l = [])).
  - intros s. simpl. tauto.
  - intros t a b ks IH.
    rewrite update_in_element, matching_in_element.
    destruct (matches sel (Element t a b ks)).
    + split; discriminate.
    + simpl. rewrite <- IH.
      destruct (update_first sel f ks); simpl; split; congruence.
  - simpl. tauto.
  - intros n l IHn IHl. cbn [update_first querySelectorAll].
    split.
    + destruct (update_in sel f n) eqn:E; [discriminate|].
      destruct (update_first sel f l) eqn:E'; [discriminate|].
      intros _. apply app_nil; split; [apply IHn | apply IHl]; auto.
    + intros H. apply app_eq_nil in H as [Hn Hl].
      apply IHn in Hn. apply IHl in Hl. rewrite Hn, Hl. reflexivity.
Qed.

Lemma update_first_none f l :
  update_first sel f l = None <-> querySelectorAll sel l = [].
Proof. apply update_none. Qed.

(** If [f] fixes the first match, [update_first] changes nothing. *)
Lemma update_first_fix f :
  forall l n, querySelector sel l = Some n -> f n = n ->
              update_first sel f l = Some l.
Proof.
  unfold querySelector.
  apply (forest_ind
           (fun k => forall n, head (matching_in sel k) = Some n ->
                               f n = n -> update_in sel f k = Some k)
           (fun l => forall n, head (querySelectorAll sel l) = Some n ->
                               f n = n -> update_first sel f l = Some l)).
  - intros s n H. discriminate.
  - intros t a b ks IH n. rewrite matching_in_element, update_in_element.
    destruct (matches sel (Element t a b ks)); simpl.
    + intros [= <-] Hf. congruence.
    + intros H Hf. rewrite (IH n H Hf). reflexivity.
  - intros n H. discriminate.
  - intros k l IHk IHl n. cbn [querySelectorAll update_first].
    destruct (matching_in sel k) as [|m ms] eqn:E.
    + simpl. intros H Hf.
      assert (Hk : update_in sel f k = None)
        by now apply (update_none f).
      rewrite Hk, (IHl n H Hf). reflexivity.
    + simpl. intros [= <-] Hf.
      rewrite (IHk m); auto.
Qed.

End DomFacts.

Section UpdateFacts.
Variable sel : selector.
Variable f : node -> node.
Hypothesis f_keeps_match :
  forall n, matches sel n = true -> matches sel (f n) = true.

Lemma head_matching_self n :
  matches sel n = true -> head (matching_in sel n) = Some n.
Proof.
  destruct n as [s|t a b ks].
  - rewrite matches_text. discriminate.
  - intros H. rewrite matching_in_element, H. reflexivity.
Qed.

(** The first match after [update_first] is the image of the first match
    before. *)
Lemma querySelector_update_first :
  forall l l', update_first sel f l = Some l' ->
    exists n, querySelector sel l = Some n
              /\ querySelector sel l' = Some (f n).
Proof.
  unfold querySelector.
  apply (forest_ind
           (fun k => forall k', update_in sel f k = Some k' ->
              exists n, head (matching_in sel k) = Some n
                        /\ head (matching_in sel k') = Some (f n))
           (fun l => forall l', update_first sel f l = Some l' ->
              exists n, head (querySelectorAll sel l) = Some n
                        /\ head (querySelectorAll sel l') = Some (f n))).
  - intros s k' H. discriminate.
  - intros t a b ks IH k'.
    rewrite update_in_element, matching_in_element.
    destruct (matches sel (Element t a b ks)) eqn:E.
    + intros [= <-]. exists (Element t a b ks). split; [reflexivity|].
      apply head_matching_self, f_keeps_match, E.
    + destruct (update_first sel f ks) as [ks'|] eqn:E'; [|discriminate].
      intros [= <-]. destruct (IH ks' eq_refl) as (n & H1 & H2).
      exists n. split; [exact H1|].
      rewrite matching_in_element.
      rewrite (matches_children sel t a b ks' b ks), E. exact H2.
  - intros l' H. discriminate.
  - intros k l IHk IHl l'. cbn [update_first querySelectorAll].
    destruct (update_in sel f k) as [k'|] eqn:E.
    + intros [= <-]. destruct (IHk k' eq_refl) as (n & H1 & H2).
      exists n. cbn [querySelectorAll].
      destruct (matching_in sel k); [discriminate|].
      destruct (matching_in sel k'); [discriminate|].
      split; assumption.
    + destruct (update_first sel f l) as [l2|] eqn:E'; [|discriminate].
      intros [= <-]. destruct (IHl l2 eq_refl) as (n & H1 & H2).
      exists n. cbn [querySelectorAll].
      assert (Hk : matching_in sel k = []) by now apply (update_none sel f).
      rewrite Hk. split; assumption.
Qed.

Variable sel2 : selector.
Hypothesis f_keeps_clean :
  forall n, matches sel n = true ->
            matching_in sel2 n = [] -> matching_in sel2 (f n) = [].

(** Updating the first match of [sel] does not create matches of
    [sel2]. *)
Lemma update_first_clean :
  forall l l', update_first sel f l = Some l' ->
    querySelectorAll sel2 l = [] -> querySelectorAll sel2 l' = [].
Proof.
  apply (forest_ind
           (fun k => forall k', update_in sel f k = Some k' ->
              matching_in sel2 k = [] -> matching_in sel2 k' = [])
           (fun l => forall l', update_first sel f l = Some l' ->
              querySelectorAll sel2 l = [] -> querySelectorAll sel2 l' = [])).
  - intros s k' H. discriminate.
  - intros t a b ks IH k'. rewrite update_in_element.
    destruct (matches sel (Element t a b ks)) eqn:E.
    + intros [= <-]. apply f_keeps_clean, E.
    + destruct (update_first sel f ks) as [ks'|] eqn:E'; [|discriminate].
      intros [= <-]. rewrite !matching_in_element.
      rewrite (matches_children sel2 t a b ks' b ks).
      destruct (matches sel2 (Element t a b ks)); [discriminate|].
      simpl. apply IH. reflexivity.
  - intros l' H. discriminate.
  - intros k l IHk IHl l'. cbn [update_first].
    destruct (update_in sel f k) as [k'|] eqn:E.
    + intros [= <-]. cbn [querySelectorAll]. intros H.
      apply app_eq_nil in H as [H1 H2].
      rewrite (IHk k' eq_refl H1), H2. reflexivity.
    + destruct (update_first sel f l) as [l2|] eqn:E'; [|discriminate].
      intros [= <-]. cbn [querySelectorAll]. intros H.
      apply app_eq_nil in H as [H1 H2].
      rewrite H1, (IHl l2 eq_refl H2). reflexivity.
Qed.

End UpdateFacts.

Section HeadFacts.

Lemma head_children_set hs' d hs :
  head_children d = Some hs ->
  head_children (set_head_children hs' d) = Some hs'.
Proof.
  unfold head_children. induction d as [|n r IH]; [discriminate|].
  cbn [List.find set_head_children].
  destruct (is_head n) eqn:E.
  - destruct n as [s|t a b ks]; [discriminate|]. intros _.
    cbn [List.find]. simpl in E. cbn [is_head]. rewrite E. reflexivity.
  - intros H. cbn [List.find]. rewrite E. auto.
Qed.

Lemma set_head_children_same d hs :
  head_children d = Some hs -> set_head_children hs d = d.
Proof.
  unfold head_children. induction d as [|n r IH]; [discriminate|].
  cbn [List.find set_head_children].
  destruct (is_head n) eqn:E.
  - destruct n as [s|t a b ks]; [discriminate|]. intros [= ->]. reflexivity.
  - intros H. rewrite IH; auto.
Qed.

Lemma head_children_clean sel d hs :
  head_children d = Some hs ->
  querySelectorAll sel d = [] -> querySelectorAll sel hs = [].
Proof.
  unfold head_children. induction d as [|n r IH]; [discriminate|].
  cbn [List.find querySelectorAll].
  destruct (is_head n) eqn:E.
  - destruct n as [s|t a b ks]; [discriminate|]. intros [= ->] H.
    apply app_eq_nil in H as [H _].
    rewrite matching_in_element in H.
    apply app_eq_nil in H as [_ H]. exact H.
  - intros H H'. apply app_eq_nil in H' as [_ H']. auto.
Qed.

Lemma set_head_children_clean sel d hs hs' :
  head_children d = Some hs ->
  querySelectorAll sel d = [] -> querySelectorAll sel hs' = [] ->
  querySelectorAll sel (set_head_children hs' d) = [].
Proof.
  unfold head_children. induction d as [|n r IH]; [discriminate|].
  cbn [List.find querySelectorAll set_head_children].
  destruct (is_head n) eqn:E.
  - destruct n as [s|t a b ks]; [discriminate|]. intros _ H Hs.
    apply app_eq_nil in H as [H Hr].
    rewrite matching_in_element in H.
    apply app_eq_nil in H as [Hm _].
    cbn [querySelectorAll]. rewrite matching_in_element.
    rewrite (matches_children sel t a b hs' b ks).
    destruct (matches sel (Element t a b ks)); [discriminate|].
    rewrite Hs, Hr. reflexivity.
  - intros H H' Hs. apply app_eq_nil in H' as [Hn Hr].
    cbn [querySelectorAll]. rewrite Hn, IH; auto.
Qed.

End HeadFacts.

(* ===================================================================== *)
(** ** The content sanitizer *)
(* ===================================================================== *)

Section SanitizerFacts.
Variable origin : string.
Hypothesis origin_rooted : startsWith "/" origin = false.

Lemma startsWith_origin_app (s : string) :
  origin <> "" -> startsWith "/" (origin +:+ s) = false.
Proof.
  unfold startsWith in *. destruct origin as [|c o]; [congruence|].
  intros _. rewrite append_cons.
  destruct (String.prefix "/" (String c (o +:+ s))) eqn:E; [|reflexivity].
  apply prefix_char in E. subst c.
  assert (String.prefix "/" (String "/" o) = true) by now apply prefix_char.
  congruence.
Qed.

Lemma patch_base_fix b :
  startsWith "/" (existing_href b) = false -> patch_base origin b = b.
Proof. unfold patch_base, existing_href. intros ->. reflexivity. Qed.

Lemma patch_base_match n :
  matches base_selector n = true ->
  matches base_selector (patch_base origin n) = true.
Proof.
  unfold patch_base.
  destruct (startsWith "/" (default "" (getAttribute "href" n))); auto.
  destruct n; simpl; auto.
Qed.

Lemma patch_base_unfold b :
  patch_base origin b
  = if startsWith "/" (existing_href b)
    then setAttribute "href" (origin +:+ existing_href b) b
    else b.
Proof. reflexivity. Qed.

Lemma existing_href_set t a bx ks v :
  existing_href (Element t (<["href" := v]> a) bx ks) = v.
Proof.
  unfold existing_href. cbn [getAttribute].
  rewrite lookup_insert_eq. reflexivity.
Qed.

Lemma patch_base_twice b :
  patch_base origin (patch_base origin b) = patch_base origin b.
Proof.
  destruct (startsWith "/" (existing_href b)) eqn:E.
  - destruct b as [s|t a bx ks]; [discriminate|].
    rewrite (patch_base_unfold (Element t a bx ks)), E.
    cbn [setAttribute].
    destruct (String.eqb_spec origin "") as [Ho|Ho].
    + rewrite patch_base_unfold, existing_href_set.
      rewrite Ho, !append_nil, E. cbn [setAttribute].
      rewrite insert_insert_eq. reflexivity.
    + apply patch_base_fix. rewrite existing_href_set.
      apply startsWith_origin_app, Ho.
  - rewrite (patch_base_fix b E). apply patch_base_fix, E.
Qed.

Lemma patch_base_href b :
  origin <> "" ->
  startsWith "/" (existing_href (patch_base origin b)) = false.
Proof.
  intros Hne. rewrite patch_base_unfold.
  destruct (startsWith "/" (existing_href b)) eqn:E; [|exact E].
  destruct b as [s|t a bx ks]; [discriminate|].
  cbn [setAttribute]. rewrite existing_href_set.
  apply startsWith_origin_app, Hne.
Qed.

Lemma base_not_stripped t a b ks :
  String.eqb t "base" = true ->
  matches strip_selector (Element t a b ks) = false.
Proof. intros H. apply String.eqb_eq in H. subst t. reflexivity. Qed.

Lemma patch_base_clean n :
  matches base_selector n = true ->
  matching_in strip_selector n = [] ->
  matching_in strip_selector (patch_base origin n) = [].
Proof.
  unfold patch_base.
  destruct (startsWith "/" (default "" (getAttribute "href" n))); auto.
  destruct n as [s|t a b ks]; auto.
  intros Hm. cbn [setAttribute]. rewrite !matching_in_element.
  assert (Ht : String.eqb t "base" = true).
  { unfold base_selector in Hm. simpl in Hm.
    now rewrite orb_false_r in Hm. }
  rewrite !base_not_stripped by exact Ht. auto.
Qed.

Lemma injected_head_settled hs :
  querySelectorAll strip_selector hs = [] ->
  settled_head origin
    (if (0 <? length (querySelectorAll base_selector hs))%nat
     then default hs (update_first base_selector (patch_base origin) hs)
     else Element "base" {[ "href" := origin ]} no_layout [] :: hs).
Proof.
  intros Hclean.
  destruct (querySelectorAll base_selector hs) as [|b0 bs] eqn:E;
    cbn [length Nat.ltb Nat.leb].
  - split.
    + cbn [querySelectorAll]. rewrite matching_in_element.
      rewrite base_not_stripped by reflexivity. exact Hclean.
    + eexists. split; [reflexivity|].
      assert (H : startsWith "/"
                    (existing_href
                       (Element "base" {[ "href" := origin ]} no_layout []))
                  = false).
      { unfold existing_href. cbn [getAttribute].
        rewrite lookup_singleton_eq. exact origin_rooted. }
      split; [now apply patch_base_fix | auto].
  - destruct (update_first base_selector (patch_base origin) hs)
      as [hs'|] eqn:U.
    + cbn [default]. split.
      * eapply update_first_clean; eauto. apply patch_base_clean.
      * destruct (querySelector_update_first base_selector
                    (patch_base origin) patch_base_match hs hs' U)
          as (n & _ & Hn).
        exists (patch_base origin n). split; [exact Hn|].
        split; [apply patch_base_twice | apply patch_base_href].
    + apply update_first_none in U. congruence.
Qed.

End SanitizerFacts.

Lemma injectBaseHref_unfold (origin : string) (d : Document) :
  injectBaseHref origin d
  = match head_children d with
    | None => Raised TypeError
    | Some hs =>
        Ok (set_head_children
              (if (0 <? length (querySelectorAll base_selector hs))%nat
               then default hs
                      (update_first base_selector (patch_base origin) hs)
               else Element "base" {[ "href" := origin ]} no_layout [] :: hs)
              d)
    end.
Proof.
  unfold injectBaseHref. destruct (head_children d) as [hs|]; [|reflexivity].
  fold base_selector.
  destruct (0 <? length (querySelectorAll base_selector hs))%nat; reflexivity.
Qed.

(** A document whose head is settled is a fixed point of both steps. *)
Lemma settled_fixed_point (origin : string) (d : Document) (hs : list node) :
  head_children d = Some hs ->
  querySelectorAll strip_selector d = [] ->
  settled_head origin hs ->
  stripPage d = d /\ injectBaseHref origin d = Ok d.
Proof.
  intros Hh Hc (_ & b & Hb & Hfix & _). split.
  - apply remove_all_id, Hc.
  - rewrite injectBaseHref_unfold, Hh.
    unfold querySelector in Hb.
    destruct (querySelectorAll base_selector hs) as [|b0 bs] eqn:E;
      [discriminate|].
    injection Hb as ->. cbn [length Nat.ltb Nat.leb].
    rewrite (update_first_fix base_selector (patch_base origin) hs b).
    + cbn [default]. now rewrite set_head_children_same.
    + unfold querySelector. now rewrite E.
    + exact Hfix.
Qed.

(** C9. The content sanitizer is idempotent: a document that is the output
    of one pass (the strip step, then the base-href injection for an origin
    that is not empty and does not start with a slash, as every origin
    [protocol//host] built by [serialize] is) contains no element matched
    by the strip selector, its first [<base>] has an [href] that does not
    start with a slash, and applying the strip step and the injection step
    again leaves it unchanged. *)
Theorem sanitizer_idempotent (origin : string) (d d' : Document) :
  startsWith "/" origin = false ->
  origin <> "" ->
  injectBaseHref origin (stripPage d) = Ok d' ->
  querySelectorAll strip_selector d' = []
  /\ (exists hs b, head_children d' = Some hs
                   /\ querySelector [SelTag "base"] hs = Some b
                   /\ startsWith "/" (default "" (getAttribute "href" b))
                      = false)
  /\ stripPage d' = d'
  /\ injectBaseHref origin d' = Ok d'.
Proof.
  intros Hroot Hne H. rewrite injectBaseHref_unfold in H.
  destruct (head_children (stripPage d)) as [hs|] eqn:Hh; [|discriminate].
  assert (Hc : querySelectorAll strip_selector (stripPage d) = [])
    by apply remove_all_clean.
  pose proof (injected_head_settled origin Hroot hs
                (head_children_clean _ _ _ Hh Hc)) as Hs.
  injection H as <-.
  set (hs' := if (0 <? length (querySelectorAll base_selector hs))%nat
              then _ else _) in *.
  assert (Hh' : head_children (set_head_children hs' (stripPage d)) = Some hs')
    by (eapply head_children_set; eauto).
  assert (Hc' : querySelectorAll strip_selector
                  (set_head_children hs' (stripPage d)) = []).
  { eapply set_head_children_clean; eauto. apply Hs. }
  split; [exact Hc'|]. split.
  - destruct Hs as (_ & b & Hb & _ & Hhref).
    exists hs', b. auto.
  - eapply settled_fixed_point; eauto.
Qed.

(** The theorem at a page with scripts, an import and a relative base,
    sanitized for the origin [https://example.com]. *)
Lemma sanitizer_idempotent_witness :
  exists d',
    injectBaseHref "https://example.com" (stripPage Pages.scripted) = Ok d'
    /\ querySelectorAll strip_selector d' = []
    /\ (exists hs b, head_children d' = Some hs
                     /\ querySelector [SelTag "base"] hs = Some b
                     /\ startsWith "/" (default "" (getAttribute "href" b))
                        = false)
    /\ stripPage d' = d'
    /\ injectBaseHref "https://example.com" d' = Ok d'.
Proof.
  eexists. split; [vm_compute; reflexivity|].
  apply (sanitizer_idempotent "https://example.com" Pages.scripted);
    [reflexivity | discriminate | vm_compute; reflexivity].
Defined.

(** What one pass does to that page: the plain script, the JavaScript
    script and the import are gone, the JSON island stays, and the relative
    base is made absolute. *)
Example sanitize_scripted :
  exists d',
    injectBaseHref "https://example.com" (stripPage Pages.scripted) = Ok d'
    /\ Sample.markup <$> d'
       = ["<head><script>{}</script><base></base></head>";
          "<body><h1>Hi</h1></body>"]
    /\ (existing_href <$> querySelector base_selector d')
       = Some "https://example.com/app/".
Proof. eexists. repeat split; vm_compute; reflexivity. Qed.

(** The origin [serialize] hands to [injectBaseHref] is never empty, and
    it starts with a slash only if the parsed protocol is empty or starts
    with one. *)
Lemma origin_of_shape (P : Platform) (requestUrl : string) :
  (forall p, fst (url_parse P requestUrl) = Some p ->
             p <> "" /\ startsWith "/" p = false) ->
  origin_of P requestUrl <> ""
  /\ startsWith "/" (origin_of P requestUrl) = false.
Proof.
  intros Hp. unfold origin_of.
  destruct (url_parse P requestUrl) as [[p|] h]; cbn [default fst] in *.
  - destruct (Hp p eq_refl) as [Hp1 Hp2]. split.
    + destruct p; [congruence | rewrite append_cons; discriminate].
    + apply startsWith_origin_app; auto.
  - split; [discriminate | reflexivity].
Qed.

(* ===================================================================== *)
(** ** Running the pipeline *)
(* ===================================================================== *)

Lemma fold_keep_first (l : list Response) (o : option Response) :
  fold_left keep_first l o
  = match o with Some r => Some r | None => head l end.
Proof.
  revert o; induction l as [|r l IH]; intros [r0|]; simpl; auto;
    rewrite IH; auto.
Qed.

(** Symbolic execution of the engine monad: unfold the engine calls, then
    split on the first scrutinee that is not itself a case analysis. *)
Ltac exec :=
  cbv beta iota zeta delta
    [serialize screenshot newPage setViewport setUserAgent
     evaluateOnNewDocument addListener goto console_error close emit throw
     lookup_status_code lookup_header catch_undefined eval_selector evaluate
     content_of_page take_screenshot getTitle getDescription getDomainName
     getImg reading parse_request_url mbind M_bind mret M_ret blank dom trace
     fst snd captured_by_serialize captured_by_screenshot status_tag
     header_tag fmap option_fmap option_map];
  rewrite ?fold_keep_first.

Ltac split_atom :=
  match goal with
  | |- context [match ?x with _ => _ end] =>
      lazymatch x with
      | context [match _ with _ => _ end] => fail
      | _ => destruct x eqn:?
      end
  end.

Ltac split_run := repeat (exec; split_atom).

(** Closes a goal left by a symbolic run: a nest of conjunctions,
    disjunctions and existentials over equations that hold by
    computation or by a recorded case. *)
Ltac leaf :=
  lazymatch goal with
  | |- True => exact I
  | |- _ /\ _ => split; leaf
  | |- exists _, _ => eexists; leaf
  | |- _ \/ _ => (left; leaf) || (right; leaf)
  | |- In _ _ => cbn; auto 20
  | |- _ => reflexivity || assumption
  end.

Lemma scripts_run_history (p : page) :
  scripts_run p = length (scripts p).
Proof.
  unfold scripts_run, count_event, scripts, history.
  generalize (trace p) as l. induction l as [|e l IH]; [reflexivity|].
  cbn [rev List.filter]. rewrite List.filter_app, length_app, <- IH.
  cbn [List.filter]. destruct (is_Run e); cbn [length]; lia.
Qed.

Lemma closed_history (p : page) :
  closed p = length (List.filter is_Close (history p)).
Proof.
  unfold closed, count_event, history.
  generalize (trace p) as l. induction l as [|e l IH]; [reflexivity|].
  cbn [rev List.filter]. rewrite List.filter_app, length_app, <- IH.
  cbn [List.filter]. destruct (is_Close e); cbn [length]; lia.
Qed.

Section Pipeline.
Variable b : Browser.
Variable c : Config.
Variable P : Platform.

(** Every run of [serialize], step by step: the page is opened unless
    [newPage] rejects; the viewport call may reject; after navigation the
    run takes one of the two early exits or goes on with the captured
    response [r]; when it returns, the page was closed last thing and the
    result is built from [r], the two meta lookups and the scripts of the
    mode; when a step raises, no page has been closed. *)
Lemma serialize_run url isMobile preview :
  let '(res, p) := serialize b c P url isMobile preview blank in
  if faults b OpNewPage
  then res = Raised (EngineError OpNewPage) /\ trace p = []
  else
    opened p = 1%nat /\
    if faults b OpSetViewport
    then res = Raised (EngineError OpSetViewport) /\ closed p = 0%nat
         /\ history p = [NewPage; SetViewport (width c) (height c) isMobile]
    else
      (exists rest, history p = serialize_setup c url isMobile ++ rest) /\
      match captured_by_serialize b with
      | None =>
          scripts p = [] /\ In ConsoleError (history p) /\
          if faults b OpClose
          then res = Raised (EngineError OpClose) /\ closed p = 0%nat
          else res = Ok (Serialized (mkSerialized 400 ∅ ""))
               /\ closed p = 1%nat /\ last_event p = Some Close
      | Some r =>
          if is_metadata r then
            scripts p = [] /\
            if faults b OpClose
            then res = Raised (EngineError OpClose) /\ closed p = 0%nat
            else res = Ok (Serialized (mkSerialized 403 ∅ ""))
                 /\ closed p = 1%nat /\ last_event p = Some Close
          else
            (exists rest, scripts p = Run StatusCodeMeta :: rest) /\
            match res with
            | Ok (Preview v) =>
                preview = true /\ faults b OpClose = false
                /\ closed p = 1%nat /\ last_event p = Some Close
                /\ preview_status v
                   = override_status (r_status r) (status_tag b)
                /\ scripts p = preview_scripts
                /\ dom p = getImg_document P (resolve b) (page_uri b)
                             (loaded b)
            | Ok (Serialized s) =>
                preview = false /\ faults b OpClose = false
                /\ closed p = 1%nat /\ last_event p = Some Close
                /\ status s = override_status (r_status r) (status_tag b)
                /\ customHeaders s = headers_map (header_tag b)
                /\ scripts p = full_scripts
                /\ url_parse_throws P url = false
                /\ injectBaseHref (origin_of P url) (stripPage (loaded b))
                   = Ok (dom p)
                /\ content s = page_content b (dom p)
            | Raised e =>
                closed p = 0%nat
                /\ ((exists op, e = EngineError op /\ faults b op = true)
                    \/ (if preview then True
                        else (e = URIError /\ url_parse_throws P url = true)
                             \/ (url_parse_throws P url = false
                                 /\ injectBaseHref (origin_of P url)
                                      (stripPage (loaded b)) = Raised e)))
            end
      end.
Proof. split_run; exec; leaf. Qed.

(** Every run of [screenshot], step by step. *)
Lemma screenshot_run url isMobile dimensions options :
  let '(res, p) := screenshot b c url isMobile dimensions options blank in
  if faults b OpNewPage
  then res = Raised (EngineError OpNewPage) /\ trace p = []
  else
    opened p = 1%nat /\
    if faults b OpSetViewport
    then res = Raised (EngineError OpSetViewport) /\ closed p = 0%nat
         /\ history p
            = [NewPage; SetViewport (fst dimensions) (snd dimensions) isMobile]
    else
      (exists rest,
         history p = screenshot_setup c url isMobile dimensions ++ rest) /\
      match captured_by_screenshot b with
      | None =>
          scripts p = [] /\
          if faults b OpClose
          then res = Raised (EngineError OpClose) /\ closed p = 0%nat
          else res = Raised (ScreenshotError NoResponse)
               /\ closed p = 1%nat /\ last_event p = Some Close
      | Some r =>
          if is_metadata r then
            scripts p = [] /\
            if faults b OpClose
            then res = Raised (EngineError OpClose) /\ closed p = 0%nat
            else res = Raised (ScreenshotError Forbidden)
                 /\ closed p = 1%nat /\ last_event p = Some Close
          else
            scripts p = [Screenshot (screenshot_options options)] /\
            if faults b OpScreenshot
            then res = Raised (EngineError OpScreenshot) /\ closed p = 0%nat
            else if faults b OpClose
                 then res = Raised (EngineError OpClose) /\ closed p = 0%nat
                 else res = Ok (capture b (loaded b)
                                  (screenshot_options options))
                      /\ closed p = 1%nat /\ last_event p = Some Close
      end.
Proof. split_run; exec; leaf. Qed.

End Pipeline.

Section Lifecycle.
Variable b : Browser.
Variable c : Config.
Variable P : Platform.

Lemma opened_blank_trace (p : page) : trace p = [] -> opened p = 0%nat.
Proof. unfold opened, count_event. intros ->. reflexivity. Qed.

Lemma closed_blank_trace (p : page) : trace p = [] -> closed p = 0%nat.
Proof. unfold closed, count_event. intros ->. reflexivity. Qed.

Lemma scripts_run_none (p : page) : scripts p = [] -> scripts_run p = 0%nat.
Proof. rewrite scripts_run_history. intros ->. reflexivity. Qed.

(** [serialize] opens one page unless [newPage] rejects; it closes it last
    thing before it returns, and closes nothing when a step raises. *)
Lemma serialize_lifecycle url isMobile preview :
  let '(res, p) := serialize b c P url isMobile preview blank in
  opened p = (if faults b OpNewPage then 0 else 1)%nat
  /\ match res with
     | Ok _ =>
         faults b OpNewPage = false /\ faults b OpClose = false
         /\ opened p = 1%nat /\ closed p = 1%nat
         /\ last_event p = Some Close
     | Raised _ => closed p = 0%nat
     end.
Proof.
  pose proof (serialize_run b c P url isMobile preview) as H.
  destruct (serialize b c P url isMobile preview blank) as [res p].
  destruct (faults b OpNewPage).
  { destruct H as [-> Ht].
    split; [now apply opened_blank_trace | now apply closed_blank_trace]. }
  destruct H as [Ho H]. split; [exact Ho|].
  destruct (faults b OpSetViewport); [destruct H as (-> & H & _); exact H|].
  destruct H as [_ H].
  destruct (captured_by_serialize b) as [r|].
  - destruct (is_metadata r).
    + destruct H as [_ H]. destruct (faults b OpClose).
      * destruct H as [-> H]. exact H.
      * destruct H as (-> & H1 & H2). auto.
    + destruct H as [_ H]. destruct res as [[s|v]|e].
      * destruct H as (_ & H1 & H2 & H3 & _). auto.
      * destruct H as (_ & H1 & H2 & H3 & _). auto.
      * apply H.
  - destruct H as (_ & _ & H). destruct (faults b OpClose).
    + destruct H as [-> H]. exact H.
    + destruct H as (-> & H1 & H2). auto.
Qed.

(** The same for [screenshot], which also closes the page before it
    throws one of its own typed failures. *)
Lemma screenshot_lifecycle url isMobile dimensions options :
  let '(res, p) := screenshot b c url isMobile dimensions options blank in
  opened p = (if faults b OpNewPage then 0 else 1)%nat
  /\ match res with
     | Ok _ | Raised (ScreenshotError _) =>
         faults b OpNewPage = false /\ faults b OpClose = false
         /\ opened p = 1%nat /\ closed p = 1%nat
         /\ last_event p = Some Close
     | Raised _ => closed p = 0%nat
     end.
Proof.
  pose proof (screenshot_run b c url isMobile dimensions options) as H.
  destruct (screenshot b c url isMobile dimensions options blank) as [res p].
  destruct (faults b OpNewPage).
  { destruct H as [-> Ht].
    split; [now apply opened_blank_trace | now apply closed_blank_trace]. }
  destruct H as [Ho H]. split; [exact Ho|].
  destruct (faults b OpSetViewport); [destruct H as (-> & H & _); exact H|].
  destruct H as [_ H].
  destruct (captured_by_screenshot b) as [r|].
  - destruct (is_metadata r).
    + destruct H as [_ H]. destruct (faults b OpClose).
      * destruct H as [-> H]. exact H.
      * destruct H as (-> & H1 & H2). auto.
    + destruct H as [_ H]. destruct (faults b OpScreenshot).
      * destruct H as [-> H]. exact H.
      * destruct (faults b OpClose).
        -- destruct H as [-> H]. exact H.
        -- destruct H as (-> & H1 & H2). auto.
  - destruct H as [_ H]. destruct (faults b OpClose).
    + destruct H as [-> H]. exact H.
    + destruct H as (-> & H1 & H2). auto.
Qed.

(** A run of [serialize] that got past the two guards with captured
    response [r]. *)
Lemma serialize_past_guards url isMobile preview r :
  captured_by_serialize b = Some r ->
  is_metadata r = false ->
  let '(res, p) := serialize b c P url isMobile preview blank in
  match res with
  | Ok (Preview v) =>
      preview = true
      /\ preview_status v = override_status (r_status r) (status_tag b)
      /\ scripts p = preview_scripts
      /\ dom p = getImg_document P (resolve b) (page_uri b) (loaded b)
  | Ok (Serialized s) =>
      preview = false
      /\ status s = override_status (r_status r) (status_tag b)
      /\ customHeaders s = headers_map (header_tag b)
      /\ scripts p = full_scripts
      /\ url_parse_throws P url = false
      /\ injectBaseHref (origin_of P url) (stripPage (loaded b)) = Ok (dom p)
      /\ content s = page_content b (dom p)
  | Raised e =>
      (exists op, e = EngineError op /\ faults b op = true)
      \/ (if preview then True
          else (e = URIError /\ url_parse_throws P url = true)
               \/ (url_parse_throws P url = false
                   /\ injectBaseHref (origin_of P url) (stripPage (loaded b))
                      = Raised e))
  end.
Proof.
  intros Hr Hm.
  pose proof (serialize_run b c P url isMobile preview) as H.
  destruct (serialize b c P url isMobile preview blank) as [res p].
  destruct (faults b OpNewPage) eqn:Hn.
  { destruct H as [-> _]. left. eauto. }
  destruct H as [_ H].
  destruct (faults b OpSetViewport) eqn:Hv.
  { destruct H as [-> _]. left. eauto. }
  destruct H as [_ H]. rewrite Hr, Hm in H. destruct H as [_ H].
  destruct res as [[s|v]|e].
  - destruct H as (H1 & _ & _ & _ & H). auto.
  - destruct H as (H1 & _ & _ & _ & H). auto.
  - apply H.
Qed.

(** The status a run past the guards is delivered with. *)
Lemma serialize_status url isMobile preview r :
  captured_by_serialize b = Some r ->
  is_metadata r = false ->
  let '(res, _) := serialize b c P url isMobile preview blank in
  match res with
  | Ok v => status_of v = override_status (r_status r) (status_tag b)
  | Raised _ => True
  end.
Proof.
  intros Hr Hm.
  pose proof (serialize_past_guards url isMobile preview r Hr Hm) as H.
  destruct (serialize b c P url isMobile preview blank) as [[[s|v]|e] p];
    [apply H | apply H | exact I].
Qed.

End Lifecycle.

(* ===================================================================== *)
(** ** Page contexts are opened once and closed on return *)
(* ===================================================================== *)

(** C1, counterexample.  A preview request for a page without any title
    and without a heading: the title lookup throws inside the pipeline,
    [serialize] fails, and the page context it opened is never closed. *)
Lemma unclosed_page_when_title_lookup_throws :
  let '(res, p) :=
    serialize (Sample.loads Pages.untitled Sample.ok200) Sample.config
      Sample.platform "https://example.com/" false true blank in
  res = Raised TypeError /\ opened p = 1%nat /\ closed p = 0%nat.
Proof. vm_compute. repeat split. Qed.

(** C1, as amended.  For every request, in every mode (full serialization,
    preview, screenshot), at most one page context is opened: exactly one
    when [browser.newPage()] resolves, none when it rejects.  On every
    branch on which the pipeline returns or fails with its own typed
    failure (success, navigation time-out, no response, forbidden
    metadata-flavor) one page context was opened and it is closed exactly
    once, closing being the last engine call made. *)
Theorem page_closed_once_on_return (b : Browser) (c : Config) (P : Platform)
    (url : string) (isMobile preview : bool) (dimensions : Z * Z)
    (options : option (gmap string string)) :
  (let '(res, p) := serialize b c P url isMobile preview blank in
   opened p = (if faults b OpNewPage then 0 else 1)%nat
   /\ match res with
      | Ok _ =>
          opened p = 1%nat /\ closed p = 1%nat /\ last_event p = Some Close
      | Raised _ => True
      end)
  /\
  (let '(res, p) := screenshot b c url isMobile dimensions options blank in
   opened p = (if faults b OpNewPage then 0 else 1)%nat
   /\ match res with
      | Ok _ | Raised (ScreenshotError _) =>
          opened p = 1%nat /\ closed p = 1%nat /\ last_event p = Some Close
      | Raised _ => True
      end).
Proof.
  split.
  - pose proof (serialize_lifecycle b c P url isMobile preview) as H.
    destruct (serialize b c P url isMobile preview blank) as [[r|e] p];
      intuition.
  - pose proof (screenshot_lifecycle b c url isMobile dimensions options) as H.
    destruct (screenshot b c url isMobile dimensions options blank)
      as [[r|[| | |op|t]] p]; intuition.
Qed.

(** A browser whose [newPage] rejects: no page context is opened. *)
Example no_page_when_newPage_rejects :
  let b := mkBrowser Pages.plain [Sample.ok200]
             (GotoResolves (Some Sample.ok200))
             (fun op => match op with OpNewPage => true | _ => false end)
             None (fun s => s) Sample.inner (fun _ => "") (fun _ _ => "") in
  let '(res, p) :=
    serialize b Sample.config Sample.platform "https://example.com/" false
      false blank in
  res = Raised (EngineError OpNewPage) /\ opened p = 0%nat.
Proof. vm_compute. split; reflexivity. Qed.

(* ===================================================================== *)
(** ** The status override *)
(* ===================================================================== *)

Lemma override_status_spec (s : Z) (v : option double) :
  override_status s v
  = let base := if s =? 304 then 200 else s in
    match v with
    | Some (Integer n) =>
        if (base =? 200) && negb (n =? 0) then Integer n else Integer base
    | Some (Infinity sign) =>
        if base =? 200 then Infinity sign else Integer base
    | Some NotANumber | None => Integer base
    end.
Proof.
  unfold override_status, truthy_number. cbv zeta.
  destruct v as [[|sg|n]|]; rewrite ?andb_false_r, ?andb_true_r;
    try reflexivity;
    destruct ((if s =? 304 then 200 else s) =? 200); try reflexivity;
    destruct (n =? 0); reflexivity.
Qed.

(** Below 2^53 in magnitude the Number value for an integer is the
    integer. *)
Lemma to_double_exact (z : Z) : Z.abs z < 2 ^ 53 -> to_double z = Integer z.
Proof.
  intros H. unfold to_double. cbv zeta.
  destruct (Z.abs z <? 2 ^ 53) eqn:E; [reflexivity|].
  apply Z.ltb_ge in E. lia.
Qed.

(** Above, integers are rounded, ties to the even significand; beyond the
    range of doubles they become infinite. *)
Example to_double_rounds_down :
  to_double 9007199254740993 = Integer 9007199254740992.
Proof. vm_compute. reflexivity. Qed.

Example to_double_rounds_up :
  to_double 9007199254740995 = Integer 9007199254740996.
Proof. vm_compute. reflexivity. Qed.

Example to_double_overflows :
  to_double (2 ^ 1024) = Infinity false
  /\ to_double (- 2 ^ 1024) = Infinity true
  /\ to_double (2 ^ 1024 - 2 ^ 970) = Infinity false
  /\ to_double (2 ^ 1024 - 2 ^ 970 - 1) = Integer (2 ^ 1024 - 2 ^ 971).
Proof. vm_compute. repeat split. Qed.

Example parseInt_examples :
  parseInt "404" = Integer 404
  /\ parseInt "  -12px" = Integer (-12)
  /\ parseInt "0x1F" = Integer 31
  /\ parseInt "4xx" = Integer 4
  /\ parseInt "" = NotANumber
  /\ parseInt "abc" = NotANumber
  /\ parseInt "-0" = Integer 0
  /\ parseInt "9007199254740993" = Integer 9007199254740992.
Proof. vm_compute. repeat split. Qed.

(** C2, counterexample.  The content ["0"] of the status tag parses to the
    integer 0 and the baseline status is 200, yet the delivered status
    stays 200: it is not replaced by the parsed value. *)
Lemma zero_status_tag_not_applied :
  let b := Sample.loads (Pages.with_status "0") Sample.ok200 in
  parseInt "0" = Integer 0
  /\ status_tag b = Some (Integer 0)
  /\ baseline_status Sample.ok200 = 200
  /\ exists res p,
       serialize b Sample.config Sample.platform "https://example.com/"
         false false blank = (Ok res, p)
       /\ status_of res = Integer 200
       /\ status_of res <> Integer 0.
Proof.
  cbv zeta. repeat split; try (vm_compute; reflexivity).
  eexists _, _. split; [|split]; vm_compute; [reflexivity..|discriminate].
Qed.

(** C2, as amended.  For every rendered page (a run of [serialize] that got
    past the metadata guard with captured response [r] and returned), the
    [render:status_code] meta tag replaces the delivered status if and only
    if the baseline status (after the 304-to-200 normalization) is exactly
    200 and the lookup yields a number other than [NaN] and 0; the
    delivered status is then that number, which is [parseInt] of the tag's
    content: the integer read, rounded to the nearest double, or an
    infinity when it is beyond the range of doubles.  For every baseline
    status other than 200 the delivered status is the baseline status,
    whatever the tag says.  So a baseline 200 with content ["404"] is
    delivered as 404, and with content ["9007199254740993"] as
    9007199254740992. *)
Theorem status_override_protocol (b : Browser) (c : Config) (P : Platform)
    (url : string) (isMobile preview : bool) (r : Response) :
  captured_by_serialize b = Some r ->
  is_metadata r = false ->
  let '(res, _) := serialize b c P url isMobile preview blank in
  match res with
  | Raised _ => True
  | Ok res =>
      let tag := querySelector [SelAttrEq "meta" "name" "render:status_code"]
                   (loaded b) in
      (baseline_status r <> 200 ->
       status_of res = Integer (baseline_status r))
      /\ (forall v, baseline_status r = 200 ->
                    status_tag b = Some v ->
                    v <> NotANumber -> v <> Integer 0 ->
                    status_of res = v)
      /\ (baseline_status r = 200 ->
          status_tag b = None \/ status_tag b = Some NotANumber
          \/ status_tag b = Some (Integer 0) ->
          status_of res = Integer 200)
      /\ (forall e s, faults b (OpRun StatusCodeMeta) = false ->
                      tag = Some e ->
                      getAttribute "content" e = Some s ->
                      status_tag b = Some (parseInt s))
      /\ (forall e, baseline_status r = 200 ->
                    faults b (OpRun StatusCodeMeta) = false ->
                    tag = Some e ->
                    (getAttribute "content" e = Some "404" ->
                     status_of res = Integer 404)
                    /\ (getAttribute "content" e = Some "9007199254740993" ->
                        status_of res = Integer 9007199254740992))
  end.
Proof.
  intros Hr Hm.
  pose proof (serialize_status b c P url isMobile preview r Hr Hm) as Hs.
  destruct (serialize b c P url isMobile preview blank) as [[res|e] p];
    [|exact I].
  cbv zeta. rewrite Hs, override_status_spec.
  unfold baseline_status. cbv zeta.
  set (base := if r_status r =? 304 then 200 else r_status r).
  assert (Htag : forall e s, faults b (OpRun StatusCodeMeta) = false ->
            querySelector [SelAttrEq "meta" "name" "render:status_code"]
              (loaded b) = Some e ->
            getAttribute "content" e = Some s ->
            status_tag b = Some (parseInt s)).
  { intros e s Hf He Hc. unfold status_tag, status_code_of.
    rewrite Hf, He. cbn [fmap option_fmap option_map]. rewrite Hc.
    reflexivity. }
  split; [|split; [|split; [|split]]].
  - intros Hb. apply Z.eqb_neq in Hb. rewrite Hb.
    destruct (status_tag b) as [[|sg|n]|]; reflexivity.
  - intros v Hb Ht Hnan Hz. rewrite Ht, Hb.
    destruct v as [|sg|n]; [congruence|reflexivity|].
    destruct (n =? 0) eqn:E; [|reflexivity].
    apply Z.eqb_eq in E. subst n. congruence.
  - intros Hb [Ht|[Ht|Ht]]; rewrite Ht, ?Hb; reflexivity.
  - exact Htag.
  - intros e Hb Hf He. split; intros Hc;
      rewrite (Htag e _ Hf He Hc), Hb; vm_compute; reflexivity.
Qed.

(** The theorem at a page whose status tag says 404, loaded with 200. *)
Lemma status_override_protocol_witness :
  let b := Sample.loads (Pages.with_status "404") Sample.ok200 in
  exists res p,
    serialize b Sample.config Sample.platform "https://example.com/"
      false false blank = (Ok res, p)
    /\ status_of res = Integer 404.
Proof.
  cbv zeta.
  pose proof (status_override_protocol
                (Sample.loads (Pages.with_status "404") Sample.ok200)
                Sample.config Sample.platform "https://example.com/" false
                false Sample.ok200 eq_refl eq_refl) as H.
  destruct (serialize _ _ _ _ _ _ _) as [[res|e] p] eqn:E;
    [|vm_compute in E; discriminate].
  exists res, p. split; [reflexivity|].
  destruct H as (_ & H & _).
  apply H; [reflexivity | reflexivity | discriminate | discriminate].
Defined.

(** The examples of the protocol: a 500 is delivered as 500 whatever the
    tag says; a 200 with tag content ["404"] is delivered as 404; digits
    beyond the range of doubles are delivered as an infinity. *)
Example status_500_keeps_500 :
  exists res p,
    serialize (Sample.loads (Pages.with_status "201") (mkResponse 500 ∅))
      Sample.config Sample.platform "https://example.com/" false false blank
    = (Ok res, p)
    /\ status_of res = Integer 500.
Proof. eexists _, _. split; vm_compute; reflexivity. Qed.

Example status_200_overridden_by_404 :
  exists res p,
    serialize (Sample.loads (Pages.with_status "404") Sample.ok200)
      Sample.config Sample.platform "https://example.com/" false false blank
    = (Ok res, p)
    /\ status_of res = Integer 404.
Proof. eexists _, _. split; vm_compute; reflexivity. Qed.

Example status_rounded_to_double :
  exists res p,
    serialize (Sample.loads (Pages.with_status "9007199254740993")
                 Sample.ok200)
      Sample.config Sample.platform "https://example.com/" false false blank
    = (Ok res, p)
    /\ status_of res = Integer 9007199254740992.
Proof. eexists _, _. split; vm_compute; reflexivity. Qed.

Example status_overridden_by_infinity :
  exists res p,
    serialize (Sample.loads
                 (Pages.with_status
                    ("0x1" +:+ String.concat "" (repeat "0000000000000000" 16)))
                 Sample.ok200)
      Sample.config Sample.platform "https://example.com/" false false blank
    = (Ok res, p)
    /\ status_of res = Infinity false.
Proof. eexists _, _. split; vm_compute; reflexivity. Qed.

(** C3, counterexample.  The network response is a 304 and the page carries
    a status tag with content ["404"]: the caller observes 404, not 200. *)
Lemma not_modified_then_overridden :
  exists res p,
    serialize (Sample.loads (Pages.with_status "404") (mkResponse 304 ∅))
      Sample.config Sample.platform "https://example.com/" false false blank
    = (Ok res, p)
    /\ status_of res = Integer 404
    /\ status_of res <> Integer 200.
Proof. eexists _, _. split; [|split]; vm_compute; [reflexivity..|discriminate]. Qed.

(** C3, as amended.  For every request whose captured response has status
    304 and passes the metadata guard, the 304 is normalized to 200 before
    the override logic runs: the status the caller observes in the
    resulting [SerializedResponse] or [PreviewResponse] is 200, unless the
    [render:status_code] lookup yields a number other than [NaN] and 0 (an
    integer, which [parseInt] has rounded to the nearest double, or an
    infinity), in which case it is that number. *)
Theorem not_modified_observed_as_ok (b : Browser) (c : Config) (P : Platform)
    (url : string) (isMobile preview : bool) (r : Response) :
  captured_by_serialize b = Some r ->
  is_metadata r = false ->
  r_status r = 304 ->
  let '(res, _) := serialize b c P url isMobile preview blank in
  match res with
  | Raised _ => True
  | Ok res =>
      baseline_status r = 200
      /\ status_of res
         = match status_tag b with
           | Some (Integer n) => if n =? 0 then Integer 200 else Integer n
           | Some (Infinity sign) => Infinity sign
           | Some NotANumber | None => Integer 200
           end
  end.
Proof.
  intros Hr Hm H304.
  pose proof (serialize_status b c P url isMobile preview r Hr Hm) as Hs.
  destruct (serialize b c P url isMobile preview blank) as [[res|e] p];
    [|exact I].
  rewrite Hs, override_status_spec.
  unfold baseline_status. rewrite H304. cbn.
  split; [reflexivity|].
  destruct (status_tag b) as [[|sg|n]|]; try reflexivity.
  destruct (n =? 0); reflexivity.
Qed.

(** The theorem at a page without status tag, answered with 304. *)
Lemma not_modified_observed_as_ok_witness :
  let b := Sample.loads Pages.plain (mkResponse 304 ∅) in
  let '(res, _) :=
    serialize b Sample.config Sample.platform "https://example.com/"
      false true blank in
  match res with
  | Raised _ => True
  | Ok res =>
      baseline_status (mkResponse 304 ∅) = 200
      /\ status_of res
         = match status_tag b with
           | Some (Integer n) => if n =? 0 then Integer 200 else Integer n
           | Some (Infinity sign) => Infinity sign
           | Some NotANumber | None => Integer 200
           end
  end.
Proof.
  cbv zeta.
  apply (not_modified_observed_as_ok
           (Sample.loads Pages.plain (mkResponse 304 ∅))
           Sample.config Sample.platform "https://example.com/" false true
           (mkResponse 304 ∅)); reflexivity.
Defined.

(* ===================================================================== *)
(** ** The metadata guard and the partial-response fallback *)
(* ===================================================================== *)

Lemma is_metadata_Google (r : Response) :
  r_headers r !! "metadata-flavor" = Some "Google" -> is_metadata r = true.
Proof. unfold is_metadata. intros ->. reflexivity. Qed.

(** C4.  For every navigation (a page context was opened and its viewport
    set) whose captured response carries a [metadata-flavor] header equal
    to [Google], and whose page context the engine closes when asked to,
    the pipeline terminates right after closing the page context:
    [serialize], in full and in preview mode, returns status 403 with no
    custom headers and empty content, [screenshot] fails with the typed
    failure [Forbidden], and in both no script is run in the page (neither
    the override lookups, nor the extractor, nor the sanitizer, nor the
    capture). *)
Theorem metadata_guard (b : Browser) (c : Config) (P : Platform)
    (url : string) (isMobile preview : bool) (dimensions : Z * Z)
    (options : option (gmap string string)) (r : Response) :
  faults b OpNewPage = false ->
  faults b OpSetViewport = false ->
  faults b OpClose = false ->
  r_headers r !! "metadata-flavor" = Some "Google" ->
  (captured_by_serialize b = Some r ->
   let '(res, p) := serialize b c P url isMobile preview blank in
   res = Ok (Serialized (mkSerialized 403 ∅ ""))
   /\ closed p = 1%nat /\ last_event p = Some Close
   /\ scripts_run p = 0%nat)
  /\
  (captured_by_screenshot b = Some r ->
   let '(res, p) := screenshot b c url isMobile dimensions options blank in
   res = Raised (ScreenshotError Forbidden)
   /\ closed p = 1%nat /\ last_event p = Some Close
   /\ scripts_run p = 0%nat).
Proof.
  intros Hn Hv Hcl Hg. apply is_metadata_Google in Hg. split; intros Hc.
  - pose proof (serialize_run b c P url isMobile preview) as H.
    destruct (serialize b c P url isMobile preview blank) as [res p].
    rewrite Hn, Hv, Hc, Hg, Hcl in H.
    destruct H as (_ & _ & Hs & -> & H1 & H2).
    auto using scripts_run_none.
  - pose proof (screenshot_run b c url isMobile dimensions options) as H.
    destruct (screenshot b c url isMobile dimensions options blank)
      as [res p].
    rewrite Hn, Hv, Hc, Hg, Hcl in H.
    destruct H as (_ & _ & Hs & -> & H1 & H2).
    auto using scripts_run_none.
Qed.

(** The theorem at a page answered with the metadata header. *)
Lemma metadata_guard_witness :
  let b := Sample.loads Pages.scripted Pages.metadata_response in
  (let '(res, p) :=
     serialize b Sample.config Sample.platform "https://example.com/"
       false true blank in
   res = Ok (Serialized (mkSerialized 403 ∅ ""))
   /\ closed p = 1%nat /\ last_event p = Some Close
   /\ scripts_run p = 0%nat)
  /\
  (let '(res, p) :=
     screenshot b Sample.config "https://example.com/" false (800, 600) None
       blank in
   res = Raised (ScreenshotError Forbidden)
   /\ closed p = 1%nat /\ last_event p = Some Close
   /\ scripts_run p = 0%nat).
Proof.
  cbv zeta.
  pose proof (metadata_guard
                (Sample.loads Pages.scripted Pages.metadata_response)
                Sample.config Sample.platform "https://example.com/"
                false true (800, 600) None Pages.metadata_response
                eq_refl eq_refl eq_refl eq_refl) as [Hs Hc].
  split; [apply Hs | apply Hc]; reflexivity.
Defined.

(** When [page.close()] rejects at the guard, the methods reject with the
    engine's error, still without having run a script. *)
Lemma metadata_guard_close_rejected (b : Browser) (c : Config) (P : Platform)
    (url : string) (isMobile preview : bool) (r : Response) :
  faults b OpNewPage = false ->
  faults b OpSetViewport = false ->
  faults b OpClose = true ->
  captured_by_serialize b = Some r ->
  is_metadata r = true ->
  let '(res, p) := serialize b c P url isMobile preview blank in
  res = Raised (EngineError OpClose) /\ scripts_run p = 0%nat.
Proof.
  intros Hn Hv Hcl Hc Hg.
  pose proof (serialize_run b c P url isMobile preview) as H.
  destruct (serialize b c P url isMobile preview blank) as [res p].
  rewrite Hn, Hv, Hc, Hg, Hcl in H.
  destruct H as (_ & _ & Hs & -> & _). auto using scripts_run_none.
Qed.

(** With [goto] throwing after a first response was emitted, [serialize]
    does what it does when [goto] resolves with that response. *)
Lemma serialize_fallback_agrees (b : Browser) (c : Config) (P : Platform)
    (url : string) (isMobile preview : bool) (r : Response)
    (rest : list Response) :
  navigation b = GotoThrows ->
  emitted b = r :: rest ->
  fst (serialize b c P url isMobile preview blank)
  = fst (serialize (resolving_with r b) c P url isMobile preview blank).
Proof.
  intros Hn He.
  destruct b as [ld em nav fl su rs ih pc cap].
  cbn [navigation emitted] in Hn, He. subst nav em.
  unfold resolving_with.
  cbn [loaded emitted navigation faults page_uri resolve innerHTML
       page_content capture].
  repeat (exec;
          cbn [loaded emitted navigation faults page_uri resolve innerHTML
               page_content capture head];
          split_atom); reflexivity.
Qed.

(** C10.  The partial-response fallback exists in [serialize] only.  When
    [goto] throws (time-out or error) after a first response [r] was
    emitted, [serialize], in full and in preview mode, goes on with [r]:
    it does not take the no-response exit; it answers 403 when [r] is a
    metadata response; otherwise it runs the status lookup and what
    follows, and a result it returns carries the status derived from [r]
    and, in full mode, the page's custom header; in all this it produces
    what it produces when [goto] resolves with [r].  [screenshot]
    registers no listener, so whenever [goto] throws it fails with the
    typed failure [NoResponse] without capturing anything, whatever
    responses had arrived.  (All of this with a page context that the
    engine opens, configures and closes when asked to.) *)
Theorem fallback_only_in_serialize (b : Browser) (c : Config) (P : Platform)
    (url : string) (isMobile preview : bool) (dimensions : Z * Z)
    (options : option (gmap string string)) (r : Response)
    (rest : list Response) :
  faults b OpNewPage = false ->
  faults b OpSetViewport = false ->
  faults b OpClose = false ->
  navigation b = GotoThrows ->
  emitted b = r :: rest ->
  (let '(res, p) := serialize b c P url isMobile preview blank in
   (if is_metadata r
    then res = Ok (Serialized (mkSerialized 403 ∅ ""))
    else In (Run StatusCodeMeta) (history p)
         /\ match res with
            | Ok (Serialized s) =>
                preview = false
                /\ status s = override_status (r_status r) (status_tag b)
                /\ customHeaders s = headers_map (header_tag b)
                /\ scripts p = full_scripts
            | Ok (Preview v) =>
                preview = true
                /\ preview_status v
                   = override_status (r_status r) (status_tag b)
                /\ scripts p = preview_scripts
            | Raised _ => True
            end)
   /\ res = fst (serialize (resolving_with r b) c P url isMobile preview
                   blank))
  /\
  (let '(res, p) := screenshot b c url isMobile dimensions options blank in
   res = Raised (ScreenshotError NoResponse)
   /\ scripts_run p = 0%nat /\ closed p = 1%nat).
Proof.
  intros Hn Hv Hcl Hnav He. split.
  - assert (Hc : captured_by_serialize b = Some r).
    { unfold captured_by_serialize. rewrite Hnav, He. reflexivity. }
    pose proof (serialize_fallback_agrees b c P url isMobile preview r rest
                  Hnav He) as Heq.
    pose proof (serialize_run b c P url isMobile preview) as H.
    destruct (serialize b c P url isMobile preview blank) as [res p].
    cbn [fst] in Heq. split; [|exact Heq].
    rewrite Hn, Hv, Hc in H. destruct H as (_ & _ & H).
    destruct (is_metadata r).
    + rewrite Hcl in H. apply H.
    + destruct H as [[more Hs] H]. split.
      * assert (Hin : In (Run StatusCodeMeta) (scripts p))
          by (rewrite Hs; left; reflexivity).
        unfold scripts in Hin. apply List.filter_In in Hin. apply Hin.
      * destruct res as [[s|v]|e]; [| |exact I]; intuition.
  - pose proof (screenshot_run b c url isMobile dimensions options) as H.
    destruct (screenshot b c url isMobile dimensions options blank)
      as [res p].
    unfold captured_by_screenshot in H. rewrite Hn, Hv, Hnav, Hcl in H.
    destruct H as (_ & _ & Hs & -> & H1 & _).
    auto using scripts_run_none.
Qed.

(** The theorem at a page whose navigation runs into the time-out after
    the main response arrived. *)
Lemma fallback_only_in_serialize_witness :
  let b := Sample.times_out (Pages.with_status "404") Sample.ok200 in
  (exists s p,
     serialize b Sample.config Sample.platform "https://example.com/" false
       false blank = (Ok (Serialized s), p)
     /\ status s = Integer 404)
  /\ fst (screenshot b Sample.config "https://example.com/" false
            (800, 600) None blank)
     = Raised (ScreenshotError NoResponse).
Proof.
  cbv zeta.
  pose proof (fallback_only_in_serialize
                (Sample.times_out (Pages.with_status "404") Sample.ok200)
                Sample.config Sample.platform "https://example.com/" false
                false (800, 600) None Sample.ok200 []
                eq_refl eq_refl eq_refl eq_refl eq_refl) as [Hs Hc].
  split.
  - destruct (serialize _ _ _ _ _ _ _) as [[[s|v]|e] p] eqn:E;
      [|vm_compute in E; discriminate..].
    exists s, p. split; [reflexivity|].
    destruct Hs as [Hs _]. cbn in Hs. destruct Hs as (_ & _ & Hs & _).
    rewrite Hs. vm_compute. reflexivity.
  - destruct (screenshot _ _ _ _ _ _ _) as [res p]. apply Hc.
Defined.

(* ===================================================================== *)
(** ** The custom header *)
(* ===================================================================== *)

Section HeaderFacts.

Lemma drop_past (c : ascii) (pre post : string) :
  drop (S (String.length pre)) (pre +:+ String c post) = post.
Proof.
  induction pre as [|a pre IH]; rewrite ?append_nil, ?append_cons.
  - destruct post; reflexivity.
  - cbn [String.length]. cbn [drop]. exact IH.
Qed.

(** Content with a colon yields the entry cut at the first colon. *)
Lemma header_of_split (e : node) (pre post : string) :
  getAttribute "content" e = Some (pre +:+ ":" +:+ post) ->
  indexOf ":" pre = -1 ->
  header_of e = [(trim pre, trim post)].
Proof.
  intros Hc Hpre. unfold header_of. rewrite Hc.
  change (":" +:+ post) with (String ":" post).
  assert (Hne : String.eqb (pre +:+ String ":" post) "" = false).
  { apply String.eqb_neq.
    destruct pre; rewrite ?append_nil, ?append_cons; discriminate. }
  rewrite Hne.
  rewrite (indexOf_char_first ":" pre post Hpre).
  destruct (Z.of_nat (String.length pre) =? -1) eqn:E;
    [apply Z.eqb_eq in E; lia|].
  cbn [negb]. unfold substr0, substring_from.
  rewrite Nat2Z.id.
  replace (Z.to_nat (Z.of_nat (String.length pre) + 1))
    with (S (String.length pre)) by lia.
  rewrite take_app, drop_past. reflexivity.
Qed.

(** Content without a colon, empty or missing, yields no entry. *)
Lemma header_of_none (e : node) :
  (forall v, getAttribute "content" e = Some v -> indexOf ":" v = -1) ->
  header_of e = [].
Proof.
  intros H. unfold header_of.
  destruct (getAttribute "content" e) as [v|]; [|reflexivity].
  rewrite (H v eq_refl). destruct (String.eqb v ""); reflexivity.
Qed.

Lemma header_of_short (e : node) : (length (header_of e) <= 1)%nat.
Proof.
  unfold header_of. destruct (getAttribute "content" e) as [v|]; [|simpl; lia].
  destruct (String.eqb v ""); [simpl; lia|].
  destruct (negb (indexOf ":" v =? -1)); simpl; lia.
Qed.

Lemma headers_map_size (v : option (list (string * string))) :
  (forall l, v = Some l -> (length l <= 1)%nat) ->
  (size (headers_map v) <= 1)%nat.
Proof.
  intros H. destruct v as [l|]; cbn [headers_map].
  - specialize (H l eq_refl). destruct l as [|[k x] [|y l]].
    + change (size (∅ : gmap string string) <= 1)%nat.
      rewrite map_size_empty. lia.
    + change (size (<[k := x]> (∅ : gmap string string)) <= 1)%nat.
      rewrite insert_empty, map_size_singleton. lia.
    + simpl in H. lia.
  - rewrite map_size_empty. lia.
Qed.

(** The header lookup never rejects. *)
Lemma lookup_header_total (b : Browser) (p : page) :
  exists v p', lookup_header b p = (Ok v, p').
Proof.
  unfold lookup_header, catch_undefined.
  destruct (eval_selector b HeaderMeta _ header_of p) as [[v|e] p'];
    eauto.
Qed.

End HeaderFacts.

(** C8, counterexample.  Content that is malformed by having nothing in
    front of its colon does not yield an empty header map: [":v"] yields
    the entry with the empty name and the value [v]. *)
Lemma empty_header_name_entry :
  exists s p,
    serialize (Sample.loads (Pages.with_header ":v") Sample.ok200)
      Sample.config Sample.platform "https://example.com/" false false blank
    = (Ok (Serialized s), p)
    /\ customHeaders s = {[ "" := "v" ]}
    /\ customHeaders s <> ∅.
Proof.
  eexists _, _. split; [vm_compute; reflexivity|].
  cbn [customHeaders]. split.
  - vm_compute. reflexivity.
  - intros H. apply (f_equal (fun m : gmap string string => m !! "")) in H.
    vm_compute in H. discriminate.
Qed.

(** C8, as amended.  For every rendered page (a full-mode run of
    [serialize] that got past the metadata guard and returned), the
    [render:header] meta tag contributes at most one custom header;
    content with a colon is split at its first colon only, and the name
    and the value of the header are the two parts without the white space
    around them (so content ["Location: /new-path"] yields the header
    [Location] with value [/new-path] and no leading space); when the tag
    is absent, or its content is missing, empty or without a colon, the
    header map is empty; the lookup itself never fails. *)
Theorem custom_header_protocol (b : Browser) (c : Config) (P : Platform)
    (url : string) (isMobile : bool) (r : Response) :
  captured_by_serialize b = Some r ->
  is_metadata r = false ->
  (forall p, exists v p', lookup_header b p = (Ok v, p'))
  /\ let '(res, _) := serialize b c P url isMobile false blank in
     match res with
     | Raised _ | Ok (Preview _) => True
     | Ok (Serialized s) =>
         let tag := querySelector [SelAttrEq "meta" "name" "render:header"]
                      (loaded b) in
         (size (customHeaders s) <= 1)%nat
         /\ (forall e pre post,
               faults b (OpRun HeaderMeta) = false ->
               tag = Some e ->
               getAttribute "content" e = Some (pre +:+ ":" +:+ post) ->
               indexOf ":" pre = -1 ->
               exists name value,
                 customHeaders s = {[ name := value ]}
                 /\ stripped_of pre name /\ stripped_of post value)
         /\ (forall e,
               faults b (OpRun HeaderMeta) = false ->
               tag = Some e ->
               getAttribute "content" e = Some "Location: /new-path" ->
               customHeaders s = {[ "Location" := "/new-path" ]})
         /\ (faults b (OpRun HeaderMeta) = true -> customHeaders s = ∅)
         /\ (tag = None -> customHeaders s = ∅)
         /\ (forall e, tag = Some e ->
                       (forall v, getAttribute "content" e = Some v ->
                                  indexOf ":" v = -1) ->
                       customHeaders s = ∅)
     end.
Proof.
  intros Hr Hm. split; [apply lookup_header_total|].
  pose proof (serialize_past_guards b c P url isMobile false r Hr Hm) as Ho.
  destruct (serialize b c P url isMobile false blank) as [[[s|v]|e] p];
    [|exact I..].
  destruct Ho as (_ & _ & -> & _).
  unfold header_tag. cbv zeta.
  split; [|split; [|split; [|split; [|split]]]].
  - apply headers_map_size. intros l.
    destruct (faults b (OpRun HeaderMeta)); [discriminate|].
    destruct (querySelector _ (loaded b)) as [e|]; [|discriminate].
    intros [= <-]. apply header_of_short.
  - intros e pre post Hf He Hc Hpre. rewrite Hf, He.
    cbn [fmap option_fmap option_map headers_map].
    rewrite (header_of_split e pre post Hc Hpre).
    exists (trim pre), (trim post). split; [|split].
    + change (<[trim pre := trim post]> (∅ : gmap string string)
              = {[ trim pre := trim post ]}).
      apply insert_empty.
    + apply trim_stripped.
    + apply trim_stripped.
  - intros e Hf He Hc. rewrite Hf, He.
    cbn [fmap option_fmap option_map headers_map].
    rewrite (header_of_split e "Location" " /new-path" Hc eq_refl).
    change (<["Location" := "/new-path"]> (∅ : gmap string string)
            = {[ "Location" := "/new-path" ]}).
    apply insert_empty.
  - intros ->. reflexivity.
  - intros ->. destruct (faults b (OpRun HeaderMeta)); reflexivity.
  - intros e He Hv. rewrite He.
    destruct (faults b (OpRun HeaderMeta)); [reflexivity|].
    cbn [fmap option_fmap option_map headers_map].
    rewrite (header_of_none e Hv). reflexivity.
Qed.

(** The theorem at a page whose header tag says [Location: /new-path]. *)
Lemma custom_header_protocol_witness :
  exists s p,
    serialize (Sample.loads (Pages.with_header "Location: /new-path")
                 Sample.ok200)
      Sample.config Sample.platform "https://example.com/" false false blank
    = (Ok (Serialized s), p)
    /\ customHeaders s = {[ "Location" := "/new-path" ]}.
Proof.
  pose proof (custom_header_protocol
                (Sample.loads (Pages.with_header "Location: /new-path")
                   Sample.ok200)
                Sample.config Sample.platform "https://example.com/" false
                Sample.ok200 eq_refl eq_refl) as [_ H].
  destruct (serialize _ _ _ _ _ _ _) as [[[s|v]|e] p] eqn:E;
    [|vm_compute in E; discriminate..].
  exists s, p. split; [reflexivity|].
  destruct H as (_ & _ & H & _).
  apply (H (Pages.meta_name "render:header" "Location: /new-path"));
    reflexivity.
Defined.

(** Content with two colons is cut at the first one. *)
Example header_with_two_colons :
  header_of (Pages.meta_name "render:header" "Link: <https://example.com/>")
  = [("Link", "<https://example.com/>")].
Proof. vm_compute. reflexivity. Qed.

(* ===================================================================== *)
(** ** The preview extractors *)
(* ===================================================================== *)

(** C5.  Where the specification promises [null], the code throws: on
    every page with no Open-Graph title, no Twitter-card title, no
    non-empty document title and no [<h1>] element, the title extraction
    reads [.innerHTML] of the missing heading and ends in a [TypeError]. *)
Theorem getTitle_without_heading_throws (inner : node -> string)
    (d : Document) :
  meta_content (SelAttrEq "meta" "property" "og:title") d = None ->
  meta_content (SelAttrEq "meta" "name" "twitter:title") d = None ->
  document_title d = "" ->
  querySelector [SelTag "h1"] d = None ->
  getTitle_page inner d = Raised TypeError.
Proof.
  intros Hog Htw Hdoc Hh1. unfold getTitle_page.
  rewrite Hog, Htw, Hdoc, Hh1. reflexivity.
Qed.

(** The theorem at a page with a paragraph and nothing else. *)
Lemma getTitle_without_heading_throws_witness :
  getTitle_page Sample.inner Pages.untitled = Raised TypeError.
Proof.
  apply (getTitle_without_heading_throws Sample.inner Pages.untitled);
    reflexivity.
Defined.

(** With a heading whose markup is empty the waterfall reads the first
    [<h1>] twice and then yields [null]. *)
Lemma getTitle_empty_heading_null (inner : node -> string) (d : Document)
    (e : node) :
  meta_content (SelAttrEq "meta" "property" "og:title") d = None ->
  meta_content (SelAttrEq "meta" "name" "twitter:title") d = None ->
  document_title d = "" ->
  querySelector [SelTag "h1"] d = Some e ->
  inner e = "" ->
  getTitle_page inner d = Ok None.
Proof.
  intros Hog Htw Hdoc Hh1 He. unfold getTitle_page.
  rewrite Hog, Htw, Hdoc, Hh1, He. reflexivity.
Qed.

(** The image filter keeps an image exactly when neither side is more than
    three times the other and both sides are above 50 pixels. *)
Lemma addImg_spec t a w h o ks :
  addImg (Element t a (mkLayout w h o) ks) = true
  <-> ~ 3 * h < w /\ ~ 3 * w < h /\ 50 < h /\ 50 < w.
Proof.
  unfold addImg, quotient_above_3. cbn [naturalWidth naturalHeight].
  destruct (h <? w) eqn:E1; destruct (3 * h <? w) eqn:E2;
    destruct (3 * w <? h) eqn:E3; destruct (h <=? 50) eqn:E4;
    destruct (w <=? 50) eqn:E5; cbn [orb];
    rewrite ?Z.ltb_lt, ?Z.ltb_ge, ?Z.leb_le, ?Z.leb_gt in *;
    split; try discriminate; try lia; intros; try reflexivity; lia.
Qed.

Example addImg_40x40 : addImg (Sample.image "a.png" 40 40) = false.
Proof. reflexivity. Qed.

Example addImg_200x60 : addImg (Sample.image "b.png" 200 60) = false.
Proof. reflexivity. Qed.

Example addImg_200x80 : addImg (Sample.image "c.png" 200 80) = true.
Proof. reflexivity. Qed.

(** Without any [<img>] the image extraction yields [null]. *)
Lemma getImg_without_images_null P resolve uri d :
  meta_content (SelAttrEq "meta" "property" "og:image") d = None ->
  link_href resolve (SelAttrEq "link" "rel" "image_src") d = None ->
  meta_content (SelAttrEq "meta" "name" "twitter:image") d = None ->
  querySelectorAll [SelTag "img"] d = [] ->
  getImg_page P resolve uri d = Ok None.
Proof.
  intros Hog Hl Htw Hi. unfold getImg_page, scan_imgs.
  rewrite Hog, Hl, Htw, Hi. reflexivity.
Qed.

(** The first surviving image is returned, re-rooted at the origin of the
    request when its source has no [//]. *)
Example getImg_gallery :
  getImg_page Sample.platform (fun s => s)
    (Some "https://www.example.com/page") Pages.gallery
  = Ok (Some "https://www.example.com/c.png").
Proof. reflexivity. Qed.

(** C7.  Where the specification promises [null], the code throws: on
    every page without Open-Graph image, [image_src] link and Twitter-card
    image that has [<img>] elements none of which survives the filter, the
    image extraction reads [.src] of the missing first survivor and ends in
    a [TypeError]. *)
Theorem getImg_all_filtered_throws (P : Platform)
    (resolve : string -> string) (uri : option string) (d : Document) :
  meta_content (SelAttrEq "meta" "property" "og:image") d = None ->
  link_href resolve (SelAttrEq "link" "rel" "image_src") d = None ->
  meta_content (SelAttrEq "meta" "name" "twitter:image") d = None ->
  querySelectorAll [SelTag "img"] d <> [] ->
  List.filter addImg (querySelectorAll [SelTag "img"] d) = [] ->
  getImg_page P resolve uri d = Raised TypeError.
Proof.
  intros Hog Hl Htw Hi Hf. unfold getImg_page, scan_imgs.
  rewrite Hog, Hl, Htw, Hf.
  destruct (querySelectorAll [SelTag "img"] d); [congruence|].
  reflexivity.
Qed.

(** The theorem at a page whose only image is a 40x40 icon; the preview
    request for that page fails with the same error. *)
Lemma getImg_all_filtered_throws_witness :
  getImg_page Sample.platform (fun s => s) (Some "https://example.com/")
    Pages.icon_only
  = Raised TypeError.
Proof.
  apply (getImg_all_filtered_throws Sample.platform (fun s => s)
           (Some "https://example.com/") Pages.icon_only);
    [reflexivity | reflexivity | reflexivity | discriminate | reflexivity].
Defined.

Example preview_of_icon_page_fails :
  fst (serialize (Sample.loads Pages.icon_only Sample.ok200) Sample.config
         Sample.platform "https://example.com/" false true blank)
  = Raised TypeError.
Proof. vm_compute. reflexivity. Qed.

Lemma domain_source_precedence resolve uri d :
  let canonical := link_href resolve (SelAttrEq "link" "rel" "canonical") d in
  let og_url := meta_content (SelAttrEq "meta" "property" "og:url") d in
  (forall h, canonical = Some h -> domain_source resolve uri d = h)
  /\ (forall u, canonical = None -> og_url = Some u ->
                domain_source resolve uri d = u)
  /\ (canonical = None -> og_url = None -> domain_source resolve uri d = uri).
Proof.
  unfold domain_source, getDomainName_page. cbv zeta.
  repeat split.
  - intros h ->. reflexivity.
  - intros u -> ->. reflexivity.
  - intros -> ->. reflexivity.
Qed.

(** C6, counterexample.  The requested URL has host name
    [blog.www.example.com] and the page names no other URL: the extracted
    domain is [blog.example.com], so a [www.] that is not leading is
    removed, not preserved. *)
Lemma inner_www_is_removed :
  let b := Sample.loads Pages.plain Sample.ok200 in
  let uri := "https://blog.www.example.com/page" in
  hostname <$> new_URL Sample.platform uri = Some "blog.www.example.com"
  /\ fst (getDomainName b Sample.platform uri (mkPage Pages.plain []))
     = Ok "blog.example.com"
  /\ exists r p,
       serialize b Sample.config Sample.platform uri false true blank
       = (Ok (Preview r), p)
       /\ domain r = "blog.example.com".
Proof.
  cbv zeta. split; [|split]; try (vm_compute; reflexivity).
  eexists _, _. split; vm_compute; reflexivity.
Qed.

(** C6, as amended.  For every preview request whose domain lookup the
    engine runs, domain extraction chooses the canonical link href, else
    the Open-Graph url meta, else the originally requested URL; when the
    URL constructor accepts the chosen URL, it extracts that URL's host
    name and removes the first occurrence of the literal [www.] in it,
    wherever it stands (the leading prefix when the host name starts with
    [www.], and nothing when [www.] does not occur), and the result is a
    string, never [null]. *)
Theorem domain_extraction (b : Browser) (P : Platform) (uri : string)
    (p : page) (u : URL) :
  faults b (OpRun GetDomainName) = false ->
  new_URL P (domain_source (resolve b) uri (dom p)) = Some u ->
  let canonical :=
    link_href (resolve b) (SelAttrEq "link" "rel" "canonical") (dom p) in
  let og_url :=
    meta_content (SelAttrEq "meta" "property" "og:url") (dom p) in
  let i := indexOf "www." (hostname u) in
  ((forall h, canonical = Some h ->
              domain_source (resolve b) uri (dom p) = h)
   /\ (forall v, canonical = None -> og_url = Some v ->
                 domain_source (resolve b) uri (dom p) = v)
   /\ (canonical = None -> og_url = None ->
       domain_source (resolve b) uri (dom p) = uri))
  /\ exists domain : string,
       fst (getDomainName b P uri p) = Ok domain
       /\ domain
          = (if i =? -1 then hostname u
             else substr0 (hostname u) i
                    +:+ substring_from (hostname u) (i + 4))
       /\ (forall rest, hostname u = "www." +:+ rest -> domain = rest).
Proof.
  intros Hf Hu. cbv zeta. split; [apply domain_source_precedence|].
  exists (replace_first "www." (hostname u)). repeat split.
  - unfold domain_source in Hu. destruct p as [d tr]. cbn [dom] in Hu.
    exec. rewrite Hf.
    destruct (getDomainName_page (resolve b) d) as [dn|].
    + change (new_URL P dn = Some u) in Hu. rewrite Hu. reflexivity.
    + change (new_URL P uri = Some u) in Hu. rewrite Hu. reflexivity.
  - destruct (indexOf "www." (hostname u) =? -1) eqn:E.
    + apply Z.eqb_eq in E. now apply replace_first_absent.
    + apply Z.eqb_neq in E. now apply replace_first_at.
  - intros rest ->. apply replace_first_prefix.
Qed.

(** The theorem at the example of the specification: the requested URL
    [https://www.example.com/page], no canonical link and no Open-Graph
    url, give the domain [example.com]. *)
Lemma domain_extraction_witness :
  let b := Sample.loads Pages.plain Sample.ok200 in
  let uri := "https://www.example.com/page" in
  let p := mkPage Pages.plain [] in
  let u := mkURL "www.example.com" "https://www.example.com" in
  let canonical :=
    link_href (resolve b) (SelAttrEq "link" "rel" "canonical") (dom p) in
  let og_url :=
    meta_content (SelAttrEq "meta" "property" "og:url") (dom p) in
  let i := indexOf "www." (hostname u) in
  ((forall h, canonical = Some h ->
              domain_source (resolve b) uri (dom p) = h)
   /\ (forall v, canonical = None -> og_url = Some v ->
                 domain_source (resolve b) uri (dom p) = v)
   /\ (canonical = None -> og_url = None ->
       domain_source (resolve b) uri (dom p) = uri))
  /\ exists domain : string,
       fst (getDomainName b Sample.platform uri p) = Ok domain
       /\ domain
          = (if i =? -1 then hostname u
             else substr0 (hostname u) i
                    +:+ substring_from (hostname u) (i + 4))
       /\ (forall rest, hostname u = "www." +:+ rest -> domain = rest).
Proof.
  cbv zeta.
  apply (domain_extraction (Sample.loads Pages.plain Sample.ok200)
           Sample.platform "https://www.example.com/page"
           (mkPage Pages.plain [])
           (mkURL "www.example.com" "https://www.example.com"));
    reflexivity.
Defined.

Example domain_of_www_example :
  fst (getDomainName (Sample.loads Pages.plain Sample.ok200) Sample.platform
         "https://www.example.com/page" (mkPage Pages.plain []))
  = Ok "example.com".
Proof. vm_compute. reflexivity. Qed.

(** When the URL constructor rejects the chosen URL, domain extraction
    throws. *)
Lemma domain_extraction_rejected (b : Browser) (P : Platform) (uri : string)
    (p : page) :
  faults b (OpRun GetDomainName) = false ->
  new_URL P (domain_source (resolve b) uri (dom p)) = None ->
  fst (getDomainName b P uri p) = Raised TypeError.
Proof.
  intros Hf Hu. unfold domain_source in Hu. destruct p as [d tr].
  cbn [dom] in Hu. exec. rewrite Hf.
  destruct (getDomainName_page (resolve b) d) as [dn|].
  - change (new_URL P dn = None) in Hu. rewrite Hu. reflexivity.
  - change (new_URL P uri = None) in Hu. rewrite Hu. reflexivity.
Qed.

(* ===================================================================== *)
(** ** More on the sanitizer *)
(* ===================================================================== *)

(** X1.  The strip step is idempotent, and it leaves a document unchanged
    exactly when the document has no element matched by its selector. *)
Theorem stripPage_fixed_points (d : Document) :
  stripPage (stripPage d) = stripPage d
  /\ (stripPage d = d <-> querySelectorAll strip_selector d = []).
Proof.
  unfold stripPage. split; [|split].
  - apply remove_all_id, remove_all_clean.
  - intros H. rewrite <- H. apply remove_all_clean.
  - apply remove_all_id.
Qed.

Lemma labels_in_element t a b ks :
  labels_in (Element t a b ks) = LElement t a b :: labels ks.
Proof.
  reflexivity.
Qed.

Lemma outside_in_element sel t a b ks :
  outside_in sel (Element t a b ks)
  = if matches sel (Element t a b ks) then []
    else LElement t a b :: outside sel ks.
Proof.
  cbn [outside_in]. destruct (matches sel (Element t a b ks)); [reflexivity|].
  f_equal. induction ks as [|k r IH]; cbn [outside]; congruence.
Qed.

(** The nodes [remove_all] keeps are those outside the matching
    elements. *)
Lemma labels_remove_all (sel : selector) :
  forall l, labels (remove_all sel l) = outside sel l.
Proof.
  apply (forest_ind
           (fun n => matches sel n = false ->
                     labels_in (remove_in sel n) = outside_in sel n)
           (fun l => labels (remove_all sel l) = outside sel l)).
  - reflexivity.
  - intros t a b ks IH Hm.
    rewrite remove_in_element, labels_in_element, outside_in_element, Hm.
    now rewrite IH.
  - reflexivity.
  - intros n l IHn IHl. cbn [remove_all outside].
    destruct (matches sel n) eqn:Hm.
    + rewrite IHl. destruct n as [s|t a b ks].
      * now rewrite matches_text in Hm.
      * rewrite outside_in_element, Hm. reflexivity.
    + cbn [labels]. now rewrite IHn, IHl.
Qed.

Lemma outside_sublist (sel : selector) :
  forall l, sublist (outside sel l) (labels l).
Proof.
  apply (forest_ind
           (fun n => sublist (outside_in sel n) (labels_in n))
           (fun l => sublist (outside sel l) (labels l))).
  - reflexivity.
  - intros t a b ks IH. rewrite outside_in_element, labels_in_element.
    destruct (matches sel (Element t a b ks)).
    + apply sublist_nil_l.
    + now apply sublist_skip.
  - reflexivity.
  - intros n l IHn IHl. cbn [outside labels]. now apply sublist_app.
Qed.

(** X2.  The strip step only deletes, and only what it strips: the nodes
    of the stripped document, in document order with their names,
    attributes and text, are exactly the nodes of the document that lie in
    no element matched by the strip selector, hence a subsequence of the
    nodes of the document; and no element of the result is matched by the
    strip selector. *)
Theorem stripPage_only_deletes (d : Document) :
  labels (stripPage d) = outside strip_selector d
  /\ sublist (labels (stripPage d)) (labels d)
  /\ querySelectorAll strip_selector (stripPage d) = [].
Proof.
  unfold stripPage. split; [|split].
  - apply labels_remove_all.
  - rewrite labels_remove_all. apply outside_sublist.
  - apply remove_all_clean.
Qed.

Example stripPage_scripted :
  labels (stripPage Pages.scripted)
  = [ LElement "head" ∅ no_layout;
      LElement "script" {[ "type" := "application/json" ]} no_layout;
      LText "{}";
      LElement "base" {[ "href" := "/app/" ]} no_layout;
      LElement "body" ∅ no_layout;
      LElement "h1" ∅ no_layout;
      LText "Hi" ].
Proof. reflexivity. Qed.

Lemma head_survives_strip (n : node) :
  is_head n = true -> matches strip_selector n = false.
Proof.
  destruct n as [s|t a b ks]; [discriminate|].
  cbn [is_head]. intros H. apply String.eqb_eq in H. subst t. reflexivity.
Qed.

Lemma is_head_remove_in (s : selector) (n : node) :
  is_head (remove_in s n) = is_head n.
Proof. destruct n; [reflexivity|]. rewrite remove_in_element. reflexivity. Qed.

(** The strip step keeps [document.head] and strips inside it. *)
Lemma head_children_stripPage (d : Document) :
  head_children (stripPage d)
  = remove_all strip_selector <$> head_children d.
Proof.
  unfold head_children, stripPage.
  induction d as [|n r IH]; [reflexivity|].
  cbn [remove_all List.find].
  destruct (is_head n) eqn:E.
  - rewrite (head_survives_strip n E). cbn [List.find].
    rewrite is_head_remove_in, E.
    destruct n as [s|t a b ks]; [discriminate|].
    rewrite remove_in_element. reflexivity.
  - destruct (matches strip_selector n); [exact IH|].
    cbn [List.find]. rewrite is_head_remove_in, E. exact IH.
Qed.

(** The sanitizer by whether the document has a head. *)
Lemma sanitizer_by_head (origin : string) (d : Document) :
  match head_children d with
  | None => injectBaseHref origin (stripPage d) = Raised TypeError
  | Some _ => exists d', injectBaseHref origin (stripPage d) = Ok d'
  end.
Proof.
  rewrite injectBaseHref_unfold, head_children_stripPage.
  destruct (head_children d) as [hs|]; cbn [fmap option_fmap option_map].
  - eexists. reflexivity.
  - reflexivity.
Qed.

(** X3.  The two sanitizer steps in sequence fail exactly when the document
    has no [head] element, and then with a [TypeError]; on every document
    with a head they succeed. *)
Theorem sanitizer_fails_without_head (origin : string) (d : Document) :
  (head_children d = None ->
   injectBaseHref origin (stripPage d) = Raised TypeError)
  /\ (head_children d <> None ->
      exists d', injectBaseHref origin (stripPage d) = Ok d').
Proof.
  pose proof (sanitizer_by_head origin d) as H.
  destruct (head_children d) as [hs|].
  - split; [discriminate | intros _; exact H].
  - split; [intros _; exact H | congruence].
Qed.

(** The theorem at a document made of a single paragraph, and at a document
    with a head. *)
Lemma sanitizer_fails_without_head_witness :
  injectBaseHref "https://example.com"
    (stripPage [Sample.el "p" [] [Text "no head"]]) = Raised TypeError
  /\ exists d',
       injectBaseHref "https://example.com" (stripPage Pages.plain) = Ok d'.
Proof.
  split.
  - apply (sanitizer_fails_without_head "https://example.com"
             [Sample.el "p" [] [Text "no head"]]). reflexivity.
  - apply (sanitizer_fails_without_head "https://example.com" Pages.plain).
    discriminate.
Defined.

(** X4.  A document whose head has a [<base>] whose [href] is missing or
    does not start with a slash is returned unchanged by [injectBaseHref],
    whatever the origin: no second [<base>] is added and the existing one
    is not given the origin. *)
Theorem injectBaseHref_keeps_absolute_base (origin : string) (d : Document)
    (hs : list node) (b : node) :
  head_children d = Some hs ->
  querySelector [SelTag "base"] hs = Some b ->
  startsWith "/" (default "" (getAttribute "href" b)) = false ->
  injectBaseHref origin d = Ok d.
Proof.
  intros Hh Hb Hrel. rewrite injectBaseHref_unfold, Hh.
  fold base_selector in Hb. pose proof Hb as Hq. unfold querySelector in Hq.
  destruct (querySelectorAll base_selector hs) as [|b0 bs] eqn:E;
    [discriminate|].
  cbn [length Nat.ltb Nat.leb].
  rewrite (update_first_fix base_selector (patch_base origin) hs b Hb).
  - cbn [default]. now rewrite set_head_children_same.
  - apply patch_base_fix. exact Hrel.
Qed.

(** The theorem at a page whose base is already absolute. *)
Lemma injectBaseHref_keeps_absolute_base_witness :
  let d := Sample.page_with_head
             [Sample.el "base" [("href", "https://cdn.example.com/")] []]
             [] in
  injectBaseHref "https://example.com" d = Ok d.
Proof.
  cbv zeta.
  apply (injectBaseHref_keeps_absolute_base "https://example.com" _
           [Sample.el "base" [("href", "https://cdn.example.com/")] []]
           (Sample.el "base" [("href", "https://cdn.example.com/")] []));
    reflexivity.
Defined.

Section BaseFacts.
Variable origin : string.

Lemma querySelectorAll_app sel (l1 l2 : list node) :
  querySelectorAll sel (l1 ++ l2)
  = querySelectorAll sel l1 ++ querySelectorAll sel l2.
Proof.
  induction l1 as [|n l1 IH]; [reflexivity|].
  cbn [app querySelectorAll]. now rewrite IH, app_assoc.
Qed.

Lemma update_first_app sel f (pre : list node) n post :
  querySelectorAll sel pre = [] ->
  matches sel n = true ->
  update_first sel f (pre ++ n :: post) = Some (pre ++ f n :: post).
Proof.
  intros Hpre Hn. induction pre as [|k pre IH].
  - cbn [app update_first]. destruct n as [s|t a b ks].
    + now rewrite matches_text in Hn.
    + rewrite update_in_element, Hn. reflexivity.
  - cbn [querySelectorAll] in Hpre. apply app_eq_nil in Hpre as [Hk Hpre].
    cbn [app update_first].
    destruct (proj1 (update_none sel f)) with (n := k) as [_ Hnone].
    rewrite (Hnone Hk), (IH Hpre). reflexivity.
Qed.

Lemma head_children_with_head before a bx hs after :
  List.find is_head before = None ->
  head_children (with_head before a bx hs after) = Some hs.
Proof.
  intros Hb. unfold head_children, with_head.
  induction before as [|n before IH]; [reflexivity|].
  cbn [app List.find] in *. destruct (is_head n); [discriminate|]. auto.
Qed.

Lemma set_head_children_with_head hs' before a bx hs after :
  List.find is_head before = None ->
  set_head_children hs' (with_head before a bx hs after)
  = with_head before a bx hs' after.
Proof.
  intros Hb. unfold with_head.
  induction before as [|n before IH]; [reflexivity|].
  cbn [app List.find set_head_children] in *.
  destruct (is_head n); [discriminate|]. now rewrite IH.
Qed.

End BaseFacts.

(** X5.  What [injectBaseHref] changes.  When the first [<base>] of the
    head is a child of the head whose [href] starts with a slash, that
    [href] becomes the origin followed by the old value and nothing else
    changes: the element keeps its other attributes and its place, the
    other children of the head and the rest of the document stay as they
    are.  When the head has no [<base>], a new [<base>] whose only
    attribute is [href], set to the origin, becomes the first child of the
    head, in front of the children the head had, and nothing else
    changes. *)
Theorem injectBaseHref_patches_or_inserts (origin : string)
    (before after : list node) (a : gmap string string) (bx : layout) :
  List.find is_head before = None ->
  (forall pre post ab bb kids old,
     querySelectorAll [SelTag "base"] pre = [] ->
     ab !! "href" = Some old ->
     startsWith "/" old = true ->
     injectBaseHref origin
       (with_head before a bx (pre ++ Element "base" ab bb kids :: post)
          after)
     = Ok (with_head before a bx
             (pre ++ Element "base" (<["href" := origin +:+ old]> ab) bb kids
                  :: post)
             after))
  /\ (forall hs,
        querySelectorAll [SelTag "base"] hs = [] ->
        injectBaseHref origin (with_head before a bx hs after)
        = Ok (with_head before a bx
                (Element "base" {[ "href" := origin ]} no_layout [] :: hs)
                after)).
Proof.
  intros Hb. split.
  - intros pre post ab bb kids old Hpre Hold Hrel.
    rewrite injectBaseHref_unfold, (head_children_with_head _ _ _ _ _ Hb).
    unfold base_selector.
    rewrite querySelectorAll_app, Hpre. cbn [app querySelectorAll].
    rewrite matching_in_element.
    change (matches [SelTag "base"] (Element "base" ab bb kids)) with true.
    cbn [app length Nat.ltb Nat.leb].
    rewrite (update_first_app [SelTag "base"] (patch_base origin) pre
               (Element "base" ab bb kids) post Hpre eq_refl).
    cbv beta iota delta [default id].
    rewrite (set_head_children_with_head _ _ _ _ _ _ Hb).
    unfold patch_base. cbn [getAttribute]. rewrite Hold.
    cbv beta iota delta [default id]. rewrite Hrel. reflexivity.
  - intros hs Hhs.
    rewrite injectBaseHref_unfold, (head_children_with_head _ _ _ _ _ Hb).
    unfold base_selector. rewrite Hhs. cbn [length Nat.ltb Nat.leb].
    now rewrite (set_head_children_with_head _ _ _ _ _ _ Hb).
Qed.

(** The theorem at the page with the relative base [/app/]: only the
    [href] of the base has changed. *)
Lemma injectBaseHref_patches_or_inserts_witness :
  injectBaseHref "https://example.com" Pages.scripted
  = Ok (Sample.page_with_head
          [Sample.el "script" [] [Text "run()"];
           Sample.el "script" [("type", "application/json")] [Text "{}"];
           Sample.el "link" [("rel", "import"); ("href", "x.html")] [];
           Element "base"
             (<["href" := "https://example.com/app/"]>
                (list_to_map [("href", "/app/")]))
             no_layout []]
          [Sample.el "h1" [] [Text "Hi"];
           Sample.el "script" [("type", "text/javascript")] []]).
Proof.
  apply (proj1 (injectBaseHref_patches_or_inserts "https://example.com" []
                  [Sample.el "body" []
                     [Sample.el "h1" [] [Text "Hi"];
                      Sample.el "script" [("type", "text/javascript")] []]]
                  (list_to_map []) no_layout eq_refl)
           [Sample.el "script" [] [Text "run()"];
            Sample.el "script" [("type", "application/json")] [Text "{}"];
            Sample.el "link" [("rel", "import"); ("href", "x.html")] []]
           [] (list_to_map [("href", "/app/")]) no_layout [] "/app/");
    reflexivity.
Defined.

(* ===================================================================== *)
(** ** More on the extractors *)
(* ===================================================================== *)

Lemma nonempty_true (s : string) : nonempty s = true -> s <> "".
Proof.
  unfold nonempty. intros H ->. discriminate.
Qed.

Lemma nonempty_false (s : string) : nonempty s = false -> s = "".
Proof.
  unfold nonempty. destruct (String.eqb_spec s ""); [auto | discriminate].
Qed.

Lemma meta_content_nonempty sel d c : meta_content sel d = Some c -> c <> "".
Proof.
  unfold meta_content. destruct (querySelector [sel] d) as [m|]; [|discriminate].
  destruct (nonempty (reflected "content" m)) eqn:E; [|discriminate].
  intros [= <-]. now apply nonempty_true.
Qed.

Lemma link_href_nonempty resolve sel d h :
  link_href resolve sel d = Some h -> h <> "".
Proof.
  unfold link_href. destruct (querySelector [sel] d) as [m|]; [|discriminate].
  destruct (nonempty (url_attr resolve "href" m)) eqn:E; [|discriminate].
  intros [= <-]. now apply nonempty_true.
Qed.

(** X6.  The three ways [getTitle] can end: with a title that is never the
    empty string; with [null], which happens only on a page that has an
    [<h1>] whose markup is empty; or with a [TypeError], which happens only
    on a page without [<h1>]. *)
Theorem getTitle_outcomes (inner : node -> string) (d : Document) :
  match getTitle_page inner d with
  | Ok (Some t) => t <> ""
  | Ok None =>
      exists e, querySelector [SelTag "h1"] d = Some e /\ inner e = ""
  | Raised e => e = TypeError /\ querySelector [SelTag "h1"] d = None
  end.
Proof.
  unfold getTitle_page.
  destruct (meta_content (SelAttrEq "meta" "property" "og:title") d) as [t|]
    eqn:Eog; [now apply meta_content_nonempty in Eog|].
  destruct (meta_content (SelAttrEq "meta" "name" "twitter:title") d) as [t|]
    eqn:Etw; [now apply meta_content_nonempty in Etw|].
  destruct (nonempty (document_title d)) eqn:Edoc;
    [now apply nonempty_true|].
  destruct (querySelector [SelTag "h1"] d) as [e|]; [|auto].
  destruct (nonempty (inner e)) eqn:Eh; [now apply nonempty_true|].
  exists e. split; [reflexivity | now apply nonempty_false].
Qed.

Lemma find_all_false {A} (f : A -> bool) (l : list A) :
  Forall (fun x => f x = false) l -> List.find f l = None.
Proof.
  induction 1 as [|x l Hx _ IH]; [reflexivity|].
  cbn [List.find]. now rewrite Hx.
Qed.

(** X7.  Without a description meta tag of any of the three kinds, a page
    none of whose [<p>] elements is both rendered and parent of at least
    one element gets no description: paragraphs that hold only text are
    never used. *)
Theorem getDescription_needs_child_element (d : Document) :
  meta_content (SelAttrEq "meta" "property" "og:description") d = None ->
  meta_content (SelAttrEq "meta" "name" "twitter:description") d = None ->
  meta_content (SelAttrEq "meta" "name" "description") d = None ->
  Forall (fun p => describes p = false) (querySelectorAll [SelTag "p"] d) ->
  getDescription_page d = None.
Proof.
  intros Hog Htw Hm Hp. unfold getDescription_page.
  rewrite Hog, Htw, Hm.
  change (match List.find describes (querySelectorAll [SelTag "p"] d) with
          | Some p => Some (textContent p)
          | None => None
          end = None).
  rewrite (find_all_false describes _ Hp). reflexivity.
Qed.

(** The theorem at a page with one rendered paragraph of plain text. *)
Lemma getDescription_needs_child_element_witness :
  getDescription_page
    (Sample.page_with_head []
       [Element "p" ∅ (mkLayout 0 0 true) [Text "Only text here."]])
  = None.
Proof.
  apply getDescription_needs_child_element;
    [reflexivity | reflexivity | reflexivity |].
  repeat constructor.
Defined.

(** X8.  What [getDescription] returns comes from a meta tag, and is then
    not empty, or is the text of the first [<p>] in document order that is
    rendered and has a child element. *)
Theorem getDescription_sources (d : Document) (s : string) :
  getDescription_page d = Some s ->
  (s <> ""
   /\ (meta_content (SelAttrEq "meta" "property" "og:description") d = Some s
       \/ meta_content (SelAttrEq "meta" "name" "twitter:description") d
          = Some s
       \/ meta_content (SelAttrEq "meta" "name" "description") d = Some s))
  \/ exists before p after,
       querySelectorAll [SelTag "p"] d = before ++ p :: after
       /\ Forall (fun q => describes q = false) before
       /\ describes p = true
       /\ s = textContent p.
Proof.
  unfold getDescription_page.
  destruct (meta_content (SelAttrEq "meta" "property" "og:description") d)
    as [t|] eqn:Eog.
  { intros [= <-]. left. split; [now apply meta_content_nonempty in Eog|auto]. }
  destruct (meta_content (SelAttrEq "meta" "name" "twitter:description") d)
    as [t|] eqn:Etw.
  { intros [= <-]. left. split; [now apply meta_content_nonempty in Etw|auto]. }
  destruct (meta_content (SelAttrEq "meta" "name" "description") d)
    as [t|] eqn:Em.
  { intros [= <-]. left. split; [now apply meta_content_nonempty in Em|auto]. }
  intros H.
  change (match List.find describes (querySelectorAll [SelTag "p"] d) with
          | Some p => Some (textContent p)
          | None => None
          end = Some s) in H.
  revert H. generalize (querySelectorAll [SelTag "p"] d). intros l.
  induction l as [|q l IH]; cbn [List.find]; [discriminate|].
  destruct (describes q) eqn:E.
  - intros [= <-]. right. exists [], q, l. repeat split; auto.
  - intros H. destruct (IH H) as [[? ?]|(bf & p & af & -> & Hb & Hp & Hs)].
    + left. auto.
    + right. exists (q :: bf), p, af. repeat split; auto.
Qed.

(** The theorem at a page whose second paragraph is the first with a child
    element. *)
Lemma getDescription_sources_witness :
  let d := Sample.page_with_head []
             [Element "p" ∅ (mkLayout 0 0 true) [Text "Plain."];
              Element "p" ∅ (mkLayout 0 0 true)
                [Text "With "; Sample.el "b" [] [Text "markup"]]] in
  ("With markup" <> ""
   /\ (meta_content (SelAttrEq "meta" "property" "og:description") d
       = Some "With markup"
       \/ meta_content (SelAttrEq "meta" "name" "twitter:description") d
          = Some "With markup"
       \/ meta_content (SelAttrEq "meta" "name" "description") d
          = Some "With markup"))
  \/ exists before p after,
       querySelectorAll [SelTag "p"] d = before ++ p :: after
       /\ Forall (fun q => describes q = false) before
       /\ describes p = true
       /\ "With markup" = textContent p.
Proof.
  cbv zeta. apply getDescription_sources. reflexivity.
Defined.

(** X9.  When the page names a URL (canonical link or Open-Graph url) that
    the [URL] constructor rejects, [getDomainName] throws a [TypeError]:
    it does not fall back to the requested URL, however valid that one
    is. *)
Theorem getDomainName_no_fallback (b : Browser) (P : Platform)
    (uri : string) (p : page) (dn : string) :
  faults b (OpRun GetDomainName) = false ->
  getDomainName_page (resolve b) (dom p) = Some dn ->
  new_URL P dn = None ->
  fst (getDomainName b P uri p) = Raised TypeError.
Proof.
  intros Hf Hd Hu. destruct p as [d tr]. cbn [dom] in Hd.
  exec. rewrite Hf, Hd, Hu. reflexivity.
Qed.

(** The theorem at a page whose Open-Graph url is a relative path. *)
Lemma getDomainName_no_fallback_witness :
  fst (getDomainName
         (Sample.loads
            (Sample.page_with_head [Pages.meta_property "og:url" "/about"] [])
            Sample.ok200)
         Sample.platform "https://www.example.com/about"
         (mkPage
            (Sample.page_with_head [Pages.meta_property "og:url" "/about"] [])
            []))
  = Raised TypeError.
Proof.
  apply (getDomainName_no_fallback _ _ _ _ "/about"); reflexivity.
Defined.

Lemma forEach_unchanged (f : node -> outcome node) (l : list node) :
  Forall (fun x => f x = Ok x) l -> forEach f l = Ok l.
Proof.
  induction 1 as [|x l Hx _ IH]; [reflexivity|].
  cbn [forEach]. now rewrite Hx, IH.
Qed.

Lemma forEach_stops (f : node -> outcome node) (pre post : list node)
    (k : node) (e : exn) :
  Forall (fun x => f x = Ok x) pre -> f k = Raised e ->
  forEach f (pre ++ k :: post) = Raised e.
Proof.
  induction 1 as [|x l Hx _ IH]; intros Hk; cbn [app forEach].
  - now rewrite Hk.
  - now rewrite Hx, IH.
Qed.

Lemma reroot_marked P resolve uri i :
  has_scheme_marker resolve i = true -> reroot P resolve uri i = Ok i.
Proof.
  unfold has_scheme_marker, reroot. intros H.
  destruct (indexOf "//" (url_attr resolve "src" i) =? -1);
    [discriminate | reflexivity].
Qed.

(** X10.  Without image meta tags, when every image that survives the
    filter has a source containing [//], [getImg] returns the source of
    the first survivor as it is, whatever the requested URL and whether or
    not it is visible to the page function. *)
Theorem getImg_first_survivor (P : Platform) (resolve : string -> string)
    (uri : option string) (d : Document) (i : node) (rest : list node) :
  meta_content (SelAttrEq "meta" "property" "og:image") d = None ->
  link_href resolve (SelAttrEq "link" "rel" "image_src") d = None ->
  meta_content (SelAttrEq "meta" "name" "twitter:image") d = None ->
  List.filter addImg (querySelectorAll [SelTag "img"] d) = i :: rest ->
  Forall (fun k => has_scheme_marker resolve k = true) (i :: rest) ->
  getImg_page P resolve uri d = Ok (Some (url_attr resolve "src" i)).
Proof.
  intros Hog Hl Htw Hf Hall. unfold getImg_page, scan_imgs.
  rewrite Hog, Hl, Htw, Hf.
  destruct (querySelectorAll [SelTag "img"] d) as [|x xs]; [discriminate|].
  cbn [length Nat.ltb Nat.leb].
  rewrite forEach_unchanged; [reflexivity|].
  eapply Forall_impl; [exact Hall|]. intros k Hk. now apply reroot_marked.
Qed.

(** The theorem at a page with an icon and an absolute picture. *)
Lemma getImg_first_survivor_witness :
  getImg_page Sample.platform (fun s => s) None
    (Sample.page_with_head []
       [Sample.image "https://cdn.example.com/icon.png" 16 16;
        Sample.image "https://cdn.example.com/photo.jpg" 640 480])
  = Ok (Some "https://cdn.example.com/photo.jpg").
Proof.
  apply (getImg_first_survivor Sample.platform (fun s => s) None _
           (Sample.image "https://cdn.example.com/photo.jpg" 640 480) []);
    try reflexivity.
  repeat constructor.
Defined.

(** X11.  Every surviving image is visited before the first one is
    returned: when some survivor has a source without [//] and the
    requested URL cannot be used to re-root it (it is not visible to the
    page function, or the [URL] constructor rejects it), [getImg] throws,
    even if the first survivor needed no rewriting. *)
Theorem getImg_later_image_throws (P : Platform) (resolve : string -> string)
    (uri : option string) (d : Document) (pre post : list node) (k : node) :
  meta_content (SelAttrEq "meta" "property" "og:image") d = None ->
  link_href resolve (SelAttrEq "link" "rel" "image_src") d = None ->
  meta_content (SelAttrEq "meta" "name" "twitter:image") d = None ->
  List.filter addImg (querySelectorAll [SelTag "img"] d) = pre ++ k :: post ->
  Forall (fun x => has_scheme_marker resolve x = true) pre ->
  has_scheme_marker resolve k = false ->
  match uri with
  | None => getImg_page P resolve uri d = Raised ReferenceError
  | Some u =>
      new_URL P u = None -> getImg_page P resolve uri d = Raised TypeError
  end.
Proof.
  intros Hog Hl Htw Hf Hpre Hk.
  assert (Hrun : forall e, reroot P resolve uri k = Raised e ->
                           getImg_page P resolve uri d = Raised e).
  { intros e He. unfold getImg_page, scan_imgs. rewrite Hog, Hl, Htw, Hf.
    destruct (querySelectorAll [SelTag "img"] d) as [|x xs].
    - destruct pre; discriminate.
    - cbn [length Nat.ltb Nat.leb].
      rewrite (forEach_stops _ pre post k e); [reflexivity| |exact He].
      eapply Forall_impl; [exact Hpre|]. intros y Hy. now apply reroot_marked. }
  unfold has_scheme_marker in Hk. apply negb_false_iff in Hk.
  destruct uri as [u|].
  - intros Hu. apply Hrun. unfold reroot. now rewrite Hk, Hu.
  - apply Hrun. unfold reroot. now rewrite Hk.
Qed.

(** The theorem at a page with an absolute picture followed by a relative
    one, the requested URL not being visible to the page function. *)
Lemma getImg_later_image_throws_witness :
  getImg_page Sample.platform (fun s => s) None
    (Sample.page_with_head []
       [Sample.image "https://cdn.example.com/photo.jpg" 640 480;
        Sample.image "banner.jpg" 640 480])
  = Raised ReferenceError.
Proof.
  apply (getImg_later_image_throws Sample.platform (fun s => s) None _
           [Sample.image "https://cdn.example.com/photo.jpg" 640 480] []
           (Sample.image "banner.jpg" 640 480));
    try reflexivity.
  repeat constructor.
Defined.

(* ===================================================================== *)
(** ** More on the pipeline *)
(* ===================================================================== *)

(** X12.  Device emulation comes before navigation.  [serialize] sets the
    configured viewport, [screenshot] the viewport of the request; both set
    the mobile user agent exactly when the request is mobile; [serialize]
    also installs the three polyfill switches and its response listener,
    [screenshot] neither; then they navigate with the configured time-out.
    When the viewport call rejects, nothing further is called: no
    navigation takes place.  When [newPage] rejects there is no page to
    call anything on. *)
Theorem emulation_precedes_navigation (b : Browser) (c : Config)
    (P : Platform) (url : string) (isMobile preview : bool)
    (dimensions : Z * Z) (options : option (gmap string string)) :
  let ps := snd (serialize b c P url isMobile preview blank) in
  let pc := snd (screenshot b c url isMobile dimensions options blank) in
  if faults b OpNewPage
  then history ps = [] /\ history pc = []
  else
    if faults b OpSetViewport
    then history ps = [NewPage; SetViewport (width c) (height c) isMobile]
         /\ history pc
            = [NewPage; SetViewport (fst dimensions) (snd dimensions) isMobile]
    else (exists rest, history ps = serialize_setup c url isMobile ++ rest)
         /\ (exists rest,
               history pc = screenshot_setup c url isMobile dimensions ++ rest).
Proof.
  cbv zeta.
  pose proof (serialize_run b c P url isMobile preview) as Hs.
  pose proof (screenshot_run b c url isMobile dimensions options) as Hc.
  destruct (serialize b c P url isMobile preview blank) as [rs ps].
  destruct (screenshot b c url isMobile dimensions options blank) as [rc pc].
  cbn [snd]. destruct (faults b OpNewPage).
  - destruct Hs as [_ Hs]. destruct Hc as [_ Hc]. unfold history.
    rewrite Hs, Hc. split; reflexivity.
  - destruct Hs as [_ Hs]. destruct Hc as [_ Hc].
    destruct (faults b OpSetViewport).
    + split; [apply Hs | apply Hc].
    + split; [apply Hs | apply Hc].
Qed.

Section ImageSources.
Variable P : Platform.
Variable resolve : string -> string.
Variable uri : option string.

Lemma amend_in_element f t a b ks :
  amend_in f (Element t a b ks) = f (Element t a b (amend_all f ks)).
Proof.
  cbn [amend_in]. do 2 f_equal.
  induction ks as [|k r IH]; cbn [amend_all]; congruence.
Qed.

(** Re-rooting touches nothing but the [src] of an [img]. *)
Lemma rerooted_element t a b ks :
  exists a',
    rerooted P resolve uri (Element t a b ks) = Element t a' b ks
    /\ (a' = a \/ (t = "img" /\ exists v, a' = <["src" := v]> a)).
Proof.
  unfold rerooted.
  destruct (matches [SelTag "img"] (Element t a b ks)) eqn:Hm;
    cbn [andb]; [|eauto].
  destruct (addImg (Element t a b ks)); [|eauto].
  unfold reroot.
  destruct (indexOf "//" (url_attr resolve "src" (Element t a b ks)) =? -1);
    [|eauto].
  destruct uri as [u|]; [|eauto].
  destruct (new_URL P u) as [parsed|]; [|eauto].
  cbn [setAttribute]. eexists. split; [reflexivity|]. right. split; [|eauto].
  cbn [matches existsb matches1] in Hm. rewrite orb_false_r in Hm.
  now apply String.eqb_eq in Hm.
Qed.

Lemma labels_amend_all :
  forall l,
    Forall2 same_but_src (labels (amend_all (rerooted P resolve uri) l))
      (labels l).
Proof.
  apply (forest_ind
           (fun n => Forall2 same_but_src
                       (labels_in (amend_in (rerooted P resolve uri) n))
                       (labels_in n))
           (fun l => Forall2 same_but_src
                       (labels (amend_all (rerooted P resolve uri) l))
                       (labels l))).
  - intros s. constructor; [reflexivity | constructor].
  - intros t a b ks IH. rewrite amend_in_element.
    destruct (rerooted_element t a b (amend_all (rerooted P resolve uri) ks))
      as (a' & -> & Ha).
    change (Forall2 same_but_src
              (LElement t a' b
                 :: labels (amend_all (rerooted P resolve uri) ks))
              (LElement t a b :: labels ks)).
    constructor; [|exact IH]. cbn. auto.
  - constructor.
  - intros n l IHn IHl. cbn [amend_all labels]. now apply Forall2_app.
Qed.

Lemma same_but_src_refl : forall l, Forall2 same_but_src l l.
Proof.
  induction l as [|[s|t a b] l IH]; constructor; cbn; auto.
Qed.

(** What [getImg] leaves of the document: everything but the sources of
    images. *)
Lemma getImg_document_labels (d : Document) :
  Forall2 same_but_src (labels (getImg_document P resolve uri d)) (labels d).
Proof.
  unfold getImg_document.
  destruct (meta_content _ d); [apply same_but_src_refl|].
  destruct (link_href resolve _ d); [apply same_but_src_refl|].
  destruct (meta_content _ d); [apply same_but_src_refl|].
  apply labels_amend_all.
Qed.

End ImageSources.

(** The sources of the gallery after [getImg] has gone over it with the
    page's [uri] bound: the images kept by the filter are re-rooted. *)
Example getImg_document_gallery :
  getImg_document Sample.platform (fun s => s)
    (Some "https://www.example.com/page") Pages.gallery
  = Sample.page_with_head [Sample.el "title" [] [Text "Gallery"]]
      [Sample.image "a.png" 40 40; Sample.image "b.png" 200 60;
       Element "img"
         (<["src" := "https://www.example.com/c.png"]> {[ "src" := "c.png" ]})
         (mkLayout 200 80 true) []].
Proof. reflexivity. Qed.

(** X13.  The two modes run disjoint sets of scripts.  A returned preview
    ran the two meta lookups and the four extractors, in this order, and
    left the document of the page as [getImg] left it: as it was loaded,
    except perhaps for the [src] of [<img>] elements; the sanitizer never
    runs in preview mode.  A returned serialization ran either no script
    at all (the no-response and metadata exits) or the two meta lookups,
    the strip step, the base injection and the serialization, in this
    order: the extractors never run in full mode. *)
Theorem scripts_by_mode (b : Browser) (c : Config) (P : Platform)
    (url : string) (isMobile preview : bool) :
  let '(res, p) := serialize b c P url isMobile preview blank in
  match res with
  | Ok (Preview r) =>
      preview = true /\ scripts p = preview_scripts
      /\ dom p = getImg_document P (resolve b) (page_uri b) (loaded b)
      /\ Forall2 same_but_src (labels (dom p)) (labels (loaded b))
  | Ok (Serialized s) =>
      scripts p = [] \/ (preview = false /\ scripts p = full_scripts)
  | Raised _ => True
  end.
Proof.
  pose proof (serialize_run b c P url isMobile preview) as H.
  destruct (serialize b c P url isMobile preview blank) as [[[s|v]|e] p];
    [| |exact I].
  - destruct (faults b OpNewPage); [destruct H; discriminate|].
    destruct H as [_ H].
    destruct (faults b OpSetViewport); [destruct H; discriminate|].
    destruct H as [_ H]. destruct (captured_by_serialize b) as [r|].
    + destruct (is_metadata r).
      * left. apply H.
      * right. destruct H as (_ & H1 & _ & _ & _ & _ & _ & H2 & _). auto.
    + left. apply H.
  - destruct (faults b OpNewPage); [destruct H; discriminate|].
    destruct H as [_ H].
    destruct (faults b OpSetViewport); [destruct H; discriminate|].
    destruct H as [_ H]. destruct (captured_by_serialize b) as [r|].
    + destruct (is_metadata r).
      * destruct H as [_ H]. destruct (faults b OpClose);
          destruct H; discriminate.
      * destruct H as (_ & H1 & _ & _ & _ & _ & H2 & H3).
        repeat split; auto. rewrite H3. apply getImg_document_labels.
    + destruct H as (_ & _ & H). destruct (faults b OpClose);
        destruct H; discriminate.
Qed.

(** X14.  In full mode the content returned for a page that passes the
    guards is the engine's serialization of the loaded document after the
    strip step and the base injection for the origin of the requested
    URL. *)
Theorem content_is_sanitized_markup (b : Browser) (c : Config)
    (P : Platform) (url : string) (isMobile : bool) (r : Response) :
  captured_by_serialize b = Some r ->
  is_metadata r = false ->
  let '(res, _) := serialize b c P url isMobile false blank in
  match res with
  | Ok (Serialized s) =>
      exists d',
        injectBaseHref (origin_of P url) (stripPage (loaded b)) = Ok d'
        /\ content s = page_content b d'
  | Ok (Preview _) => False
  | Raised _ => True
  end.
Proof.
  intros Hr Hm.
  pose proof (serialize_past_guards b c P url isMobile false r Hr Hm) as H.
  destruct (serialize b c P url isMobile false blank) as [[[s|pr]|e] p];
    [| |exact I].
  - destruct H as (_ & _ & _ & _ & _ & H1 & H2). eauto.
  - destruct H as [H _]. discriminate.
Qed.

(** The theorem at the page with scripts and a relative base. *)
Lemma content_is_sanitized_markup_witness :
  let b := Sample.loads Pages.scripted Sample.ok200 in
  let '(res, _) :=
    serialize b Sample.config Sample.platform "https://example.com/x"
      false false blank in
  match res with
  | Ok (Serialized s) =>
      exists d',
        injectBaseHref (origin_of Sample.platform "https://example.com/x")
          (stripPage (loaded b)) = Ok d'
        /\ content s = page_content b d'
  | Ok (Preview _) => False
  | Raised _ => True
  end.
Proof.
  cbv zeta.
  apply (content_is_sanitized_markup
           (Sample.loads Pages.scripted Sample.ok200) Sample.config
           Sample.platform "https://example.com/x" false Sample.ok200);
    reflexivity.
Defined.

(** X15.  Full-mode serialization of a document with a head fails only if
    an engine call rejects or [url.parse] throws on the requested URL; on
    a document without head (an XML or SVG document, say) it fails with a
    [TypeError] once the engine calls up to the base injection have
    succeeded (with a [URIError] before that, when [url.parse] throws on
    the requested URL), and the page is left open. *)
Theorem full_mode_failures (b : Browser) (c : Config) (P : Platform)
    (url : string) (isMobile : bool) (r : Response) :
  captured_by_serialize b = Some r ->
  is_metadata r = false ->
  let '(res, p) := serialize b c P url isMobile false blank in
  (head_children (loaded b) <> None ->
   forall e, res = Raised e ->
             (exists op, e = EngineError op /\ faults b op = true)
             \/ (e = URIError /\ url_parse_throws P url = true))
  /\ (head_children (loaded b) = None ->
      (forall op, faults b op = false) ->
      res = Raised (if url_parse_throws P url then URIError else TypeError)
      /\ closed p = 0%nat).
Proof.
  intros Hr Hm.
  pose proof (serialize_past_guards b c P url isMobile false r Hr Hm) as H.
  pose proof (serialize_lifecycle b c P url isMobile false) as Hl.
  destruct (serialize b c P url isMobile false blank) as [res p].
  destruct Hl as [_ Hl].
  pose proof (sanitizer_by_head (origin_of P url) (loaded b)) as Hsan.
  split.
  - intros Hh e ->.
    destruct H as [H|[H|[_ H]]]; [left; exact H | right; exact H|].
    destruct (head_children (loaded b)); [|congruence].
    destruct Hsan as [d' Hd']. congruence.
  - intros Hh Hf. rewrite Hh in Hsan. rename Hsan into Hno.
    destruct res as [[s|pr]|e].
    + destruct H as (_ & _ & _ & _ & _ & H1 & _). congruence.
    + destruct H as [H _]. discriminate.
    + destruct H as [(op & _ & Hop)|[[-> Hu]|[Hu H]]].
      * rewrite Hf in Hop. discriminate.
      * rewrite Hu. auto.
      * rewrite Hu, Hno in *. injection H as <-. auto.
Qed.

(** The theorem at a document made of a single paragraph. *)
Lemma full_mode_failures_witness :
  let b := Sample.loads [Sample.el "p" [] [Text "no head"]] Sample.ok200 in
  let '(res, p) :=
    serialize b Sample.config Sample.platform "https://example.com/"
      false false blank in
  res = Raised TypeError /\ closed p = 0%nat.
Proof.
  cbv zeta.
  pose proof (full_mode_failures
                (Sample.loads [Sample.el "p" [] [Text "no head"]]
                   Sample.ok200)
                Sample.config Sample.platform "https://example.com/" false
                Sample.ok200 eq_refl eq_refl) as H.
  destruct (serialize _ _ _ _ _ _ _) as [res p].
  apply (proj2 H); reflexivity.
Defined.

(** A requested URL that [url.parse] cannot decode makes full-mode
    serialization fail between the strip step and the base injection. *)
Example undecodable_url_fails_serialize :
  let '(res, p) :=
    serialize (Sample.loads Pages.plain Sample.ok200) Sample.config
      Sample.platform "http://%@example.com/" false false blank in
  res = Raised URIError
  /\ scripts p = [Run StatusCodeMeta; Run HeaderMeta; Run StripPage].
Proof. vm_compute. split; reflexivity. Qed.

(** X16.  When navigation leaves no response ([goto] resolves with [null],
    or throws before any response was seen), [serialize] logs the fact and
    closes the page without running any script, in preview mode too, and
    returns status 400 with no headers and empty content; [screenshot]
    closes the page and throws [NoResponse].  When [page.close()] rejects,
    both reject with the engine's error instead. *)
Theorem no_response_exits (b : Browser) (c : Config) (P : Platform)
    (url : string) (isMobile preview : bool) (dimensions : Z * Z)
    (options : option (gmap string string)) :
  faults b OpNewPage = false ->
  faults b OpSetViewport = false ->
  (captured_by_serialize b = None ->
   let '(res, p) := serialize b c P url isMobile preview blank in
   scripts p = [] /\ In ConsoleError (history p)
   /\ if faults b OpClose
      then res = Raised (EngineError OpClose) /\ closed p = 0%nat
      else res = Ok (Serialized (mkSerialized 400 ∅ ""))
           /\ closed p = 1%nat /\ last_event p = Some Close)
  /\
  (captured_by_screenshot b = None ->
   let '(res, p) := screenshot b c url isMobile dimensions options blank in
   scripts p = []
   /\ if faults b OpClose
      then res = Raised (EngineError OpClose) /\ closed p = 0%nat
      else res = Raised (ScreenshotError NoResponse)
           /\ closed p = 1%nat /\ last_event p = Some Close).
Proof.
  intros Hn Hv. split; intros Hc.
  - pose proof (serialize_run b c P url isMobile preview) as H.
    destruct (serialize b c P url isMobile preview blank) as [res p].
    rewrite Hn, Hv, Hc in H. apply H.
  - pose proof (screenshot_run b c url isMobile dimensions options) as H.
    destruct (screenshot b c url isMobile dimensions options blank)
      as [res p].
    rewrite Hn, Hv, Hc in H. apply H.
Qed.

(** The theorem at a navigation that resolves with [null] although a
    response was emitted, and at one that times out before any response. *)
Lemma no_response_exits_witness :
  (let b := mkBrowser Pages.plain [Sample.ok200] (GotoResolves None)
              (fun _ => false) None (fun s => s) Sample.inner
              (fun _ => "") (fun _ _ => "") in
   let '(res, p) :=
     serialize b Sample.config Sample.platform "about:blank" false true
       blank in
   res = Ok (Serialized (mkSerialized 400 ∅ "")) /\ closed p = 1%nat)
  /\
  (let b := mkBrowser [] [] GotoThrows (fun _ => false) None (fun s => s)
              Sample.inner (fun _ => "") (fun _ _ => "") in
   let '(res, p) :=
     screenshot b Sample.config "https://example.com/" false (800, 600)
       None blank in
   res = Raised (ScreenshotError NoResponse) /\ closed p = 1%nat).
Proof.
  split.
  - cbv zeta.
    pose proof (proj1 (no_response_exits
             (mkBrowser Pages.plain [Sample.ok200] (GotoResolves None)
                (fun _ => false) None (fun s => s) Sample.inner
                (fun _ => "") (fun _ _ => ""))
             Sample.config Sample.platform "about:blank" false true
             (800, 600) None eq_refl eq_refl) eq_refl) as H.
    destruct (serialize _ _ _ _ _ _ _) as [res p].
    destruct H as (_ & _ & H1 & H2 & _). auto.
  - cbv zeta.
    pose proof (proj2 (no_response_exits
             (mkBrowser [] [] GotoThrows (fun _ => false) None (fun s => s)
                Sample.inner (fun _ => "") (fun _ _ => ""))
             Sample.config Sample.platform "https://example.com/" false
             false (800, 600) None eq_refl eq_refl) eq_refl) as H.
    destruct (screenshot _ _ _ _ _ _ _) as [res p].
    destruct H as (_ & H1 & H2 & _). auto.
Defined.

(** X17.  What the response listener recorded is used only when [goto]
    throws: when [goto] resolves, the result of [serialize] is the same
    whatever responses were emitted during navigation, so status and
    headers are those of the response [goto] resolved with. *)
Theorem listener_unused_when_goto_resolves (b : Browser) (c : Config)
    (P : Platform) (url : string) (isMobile preview : bool)
    (v : option Response) (l : list Response) :
  navigation b = GotoResolves v ->
  fst (serialize b c P url isMobile preview blank)
  = fst (serialize (emitting l b) c P url isMobile preview blank).
Proof.
  intros Hn. destruct b as [ld em nav fl su rs ih pc cap].
  cbn [navigation] in Hn. subst nav. unfold emitting.
  cbn [loaded emitted navigation faults page_uri resolve innerHTML
       page_content capture].
  exec. cbn [navigation loaded faults page_uri resolve innerHTML
             page_content emitted].
  destruct (fl OpNewPage); [reflexivity|].
  exec. cbn [navigation loaded faults page_uri resolve innerHTML
             page_content emitted].
  destruct (fl OpSetViewport); [reflexivity|].
  destruct isMobile; exec;
    cbn [navigation loaded faults page_uri resolve innerHTML page_content
         emitted]; reflexivity.
Qed.

(** The theorem at a navigation that went through a redirect: the first
    response is a 301, [goto] resolves with the final 200. *)
Lemma listener_unused_when_goto_resolves_witness :
  let b := mkBrowser Pages.plain [mkResponse 301 ∅; Sample.ok200]
             (GotoResolves (Some Sample.ok200)) (fun _ => false) None
             (fun s => s) Sample.inner (fun _ => "") (fun _ _ => "") in
  fst (serialize b Sample.config Sample.platform "https://example.com/"
         false true blank)
  = fst (serialize (emitting [] b) Sample.config Sample.platform
           "https://example.com/" false true blank).
Proof.
  cbv zeta.
  apply (listener_unused_when_goto_resolves _ _ _ _ _ _
           (Some Sample.ok200) []). reflexivity.
Defined.

(** X18.  Whatever options the caller passes, the capture is made with
    [type] set to [jpeg] and [encoding] set to [binary]; every other
    option reaches the engine unchanged; and a screenshot that returns
    made exactly one capture, with these options, of the loaded
    document. *)
Theorem screenshot_forces_jpeg (b : Browser) (c : Config) (url : string)
    (isMobile : bool) (dimensions : Z * Z)
    (options : option (gmap string string)) :
  let opts := screenshot_options options in
  opts !! "type" = Some "jpeg"
  /\ opts !! "encoding" = Some "binary"
  /\ (forall k, k <> "type" -> k <> "encoding" ->
                opts !! k = default ∅ options !! k)
  /\ let '(res, p) := screenshot b c url isMobile dimensions options blank in
     match res with
     | Ok buffer =>
         buffer = capture b (loaded b) opts
         /\ scripts p = [Screenshot opts]
     | Raised _ => True
     end.
Proof.
  cbv zeta. repeat split.
  - unfold screenshot_options.
    rewrite lookup_insert_ne by discriminate. apply lookup_insert_eq.
  - apply lookup_insert_eq.
  - intros k H1 H2. unfold screenshot_options.
    now rewrite !lookup_insert_ne by congruence.
  - pose proof (screenshot_run b c url isMobile dimensions options) as H.
    destruct (screenshot b c url isMobile dimensions options blank)
      as [[buf|e] p]; [|exact I].
    destruct (faults b OpNewPage); [destruct H; discriminate|].
    destruct H as [_ H].
    destruct (faults b OpSetViewport); [destruct H; discriminate|].
    destruct H as [_ H]. destruct (captured_by_screenshot b) as [r|].
    + destruct (is_metadata r).
      * destruct H as [_ H]. destruct (faults b OpClose);
          destruct H; discriminate.
      * destruct H as [Hs H].
        destruct (faults b OpScreenshot); [destruct H; discriminate|].
        destruct (faults b OpClose); [destruct H; discriminate|].
        destruct H as [H _]. injection H as ->. auto.
    + destruct H as [_ H]. destruct (faults b OpClose);
        destruct H; discriminate.
Qed.

(* ===================================================================== *)
(** ** Facts about the server *)
(* ===================================================================== *)

Section ServerFacts.
Import Rendertron.
Variable k : Koa.
Variable P : Platform.
Variable srv : Server.
Variable req : Request.

Lemma admitted_throws url b s :
  renderer srv = Some b ->
  url_parse_throws P url = true ->
  admitted k P srv req (Some url) s = (Failed (Thrown URIError), s).
Proof.
  intros Hr Hu. unfold admitted, restricted. rewrite Hr, Hu. reflexivity.
Qed.

Lemma admitted_blocked url b s :
  renderer srv = Some b ->
  valid_status k 403 = true ->
  url_parse_throws P url = false ->
  blocked P srv req url ->
  admitted k P srv req (Some url) s
  = (Done None,
     (mkContext (Some 403) (headers_set (fst s)) (body_set (fst s)), snd s)).
Proof.
  intros Hr Hv Hu Hb. unfold admitted, restricted. rewrite Hr, Hu.
  cbv beta iota zeta delta [mbind K_bind mret K_ret].
  assert (Hc : negb (startsWith "http" (default "" (fst (url_parse P url))))
               || negb (authorized srv (token_header req)) = true).
  { destruct Hb as [Hb|Hb].
    - rewrite Hb. reflexivity.
    - unfold authorized. rewrite bool_decide_eq_false_2 by exact Hb.
      apply orb_true_r. }
  rewrite Hc. unfold assign_status. rewrite Hv. reflexivity.
Qed.

Lemma admitted_passes url b s :
  renderer srv = Some b ->
  url_parse_throws P url = false ->
  ~ blocked P srv req url ->
  admitted k P srv req (Some url) s = (Done (Some b), s).
Proof.
  intros Hr Hu Hb. unfold admitted, restricted. rewrite Hr, Hu.
  cbv beta iota zeta delta [mbind K_bind mret K_ret].
  assert (Hc : negb (startsWith "http" (default "" (fst (url_parse P url))))
               || negb (authorized srv (token_header req)) = false).
  { apply orb_false_iff. split.
    - destruct (startsWith "http" _) eqn:E; [reflexivity|].
      exfalso. apply Hb. left. exact E.
    - unfold authorized. rewrite bool_decide_eq_true_2; [reflexivity|].
      destruct (decide (token_header req = token (config srv))); [auto|].
      exfalso. apply Hb. now right. }
  rewrite Hc. destruct s. reflexivity.
Qed.

Lemma set_all_valid l s :
  all_valid k l = true ->
  set_all k l s
  = (Done tt,
     (mkContext (status_set (fst s)) (fields_after l (headers_set (fst s)))
        (body_set (fst s)),
      snd s)).
Proof.
  revert s. induction l as [|[key val] l IH]; intros [[st hd bd] p] H.
  - reflexivity.
  - cbn [all_valid forallb fst snd] in H. apply andb_true_iff in H as [H1 H2].
    cbn [set_all]. kexec. rewrite H1.
    change (set_all k l (mkContext st (<[lower key := val]> hd) bd, p)
            = (Done tt,
               (mkContext st
                  (fields_after ((key, val) :: l) hd) bd, p))).
    rewrite IH by exact H2. reflexivity.
Qed.

Lemma set_all_invalid l s :
  all_valid k l = false ->
  exists s', set_all k l s = (Failed (Thrown TypeError), s')
             /\ status_set (fst s') = status_set (fst s)
             /\ body_set (fst s') = body_set (fst s)
             /\ snd s' = snd s.
Proof.
  revert s. induction l as [|[key val] l IH]; intros [[st hd bd] p] H.
  - discriminate.
  - cbn [all_valid forallb fst snd] in H. cbn [set_all]. kexec.
    destruct (valid_header k key val) eqn:E.
    + cbn [andb] in H.
      destruct (IH (mkContext st (<[lower key := val]> hd) bd, p) H)
        as (s' & E' & ? & ? & ?).
      exists s'. split; [exact E'|]. auto.
    + eexists. split; [reflexivity|]. auto.
Qed.

End ServerFacts.

(** X19.  The access check.  A request whose URL [url.parse] accepts and
    has a protocol that does not start with [http], or whose token differs
    from the configured one, is answered by all three handlers with status
    403 and nothing else: no header and no body is set, the renderer is
    not called and no page is opened.  The URL is parsed before the token
    is looked at: when [url.parse] throws (on a URL it cannot decode, or
    on the missing [url] parameter of a preview request), the handler
    throws that error whatever the token, having assigned nothing and
    opened no page. *)
Theorem blocked_requests_get_403 (k : Rendertron.Koa) (P : Platform)
    (srv : Rendertron.Server) (req : Rendertron.Request) (url : string)
    (b : Browser) :
  Rendertron.renderer srv = Some b ->
  Rendertron.valid_status k 403 = true ->
  let answer :=
    (Rendertron.Done tt,
     (Rendertron.mkContext (Some 403) ∅ None, blank)) in
  let thrown (e : exn) : Rendertron.result unit * (Rendertron.Context * page) :=
    (Rendertron.Failed (Rendertron.Thrown e), (Rendertron.fresh, blank)) in
  (url_parse_throws P url = false ->
   blocked P srv req url ->
   Rendertron.handleRenderRequest k P srv req url (Rendertron.fresh, blank)
   = answer
   /\ Rendertron.handlePreviewRequest k P srv req (Some url)
        (Rendertron.fresh, blank) = answer
   /\ Rendertron.handleScreenshotRequest k P srv req url
        (Rendertron.fresh, blank) = answer)
  /\ (url_parse_throws P url = true ->
      Rendertron.handleRenderRequest k P srv req url (Rendertron.fresh, blank)
      = thrown URIError
      /\ Rendertron.handlePreviewRequest k P srv req (Some url)
           (Rendertron.fresh, blank) = thrown URIError
      /\ Rendertron.handleScreenshotRequest k P srv req url
           (Rendertron.fresh, blank) = thrown URIError)
  /\ Rendertron.handlePreviewRequest k P srv req None
       (Rendertron.fresh, blank) = thrown TypeError.
Proof.
  intros Hr Hv. cbv zeta. split; [|split].
  - intros Hu Hb.
    pose proof (admitted_blocked k P srv req url b (Rendertron.fresh, blank)
                  Hr Hv Hu Hb) as Ha.
    unfold Rendertron.handleRenderRequest, Rendertron.handlePreviewRequest,
      Rendertron.handleScreenshotRequest.
    unfold mbind, Rendertron.K_bind. rewrite Ha. repeat split.
  - intros Hu.
    pose proof (admitted_throws k P srv req url b (Rendertron.fresh, blank)
                  Hr Hu) as Ha.
    unfold Rendertron.handleRenderRequest, Rendertron.handlePreviewRequest,
      Rendertron.handleScreenshotRequest.
    unfold mbind, Rendertron.K_bind. rewrite Ha. repeat split.
  - unfold Rendertron.handlePreviewRequest, Rendertron.admitted,
      Rendertron.restricted. rewrite Hr. reflexivity.
Qed.

(** The theorem at a [file:] URL carrying the right token, and at a URL
    that cannot be decoded carrying a wrong one. *)
Lemma blocked_requests_get_403_witness :
  let srv := sample_server (Sample.loads Pages.plain Sample.ok200) in
  Rendertron.handleRenderRequest lenient_koa Sample.platform srv
    (get_with (Some "secret")) "file:///etc/passwd" (Rendertron.fresh, blank)
  = (Rendertron.Done tt, (Rendertron.mkContext (Some 403) ∅ None, blank))
  /\ Rendertron.handleRenderRequest lenient_koa Sample.platform srv
       (get_with (Some "wrong")) "http://%@example.com/"
       (Rendertron.fresh, blank)
     = (Rendertron.Failed (Rendertron.Thrown URIError),
        (Rendertron.fresh, blank)).
Proof.
  cbv zeta. split.
  - apply (blocked_requests_get_403 lenient_koa Sample.platform
             (sample_server (Sample.loads Pages.plain Sample.ok200))
             (get_with (Some "secret")) "file:///etc/passwd"
             (Sample.loads Pages.plain Sample.ok200) eq_refl eq_refl);
      [reflexivity | left; reflexivity].
  - apply (blocked_requests_get_403 lenient_koa Sample.platform
             (sample_server (Sample.loads Pages.plain Sample.ok200))
             (get_with (Some "wrong")) "http://%@example.com/"
             (Sample.loads Pages.plain Sample.ok200) eq_refl eq_refl).
    reflexivity.
Defined.

Lemma blocked_dec (P : Platform) (srv : Rendertron.Server)
    (req : Rendertron.Request) (url : string) :
  blocked P srv req url \/ ~ blocked P srv req url.
Proof.
  unfold blocked.
  destruct (startsWith "http" (default "" (fst (url_parse P url))));
    [|left; left; reflexivity].
  destruct (decide (Rendertron.token_header req
                    = Rendertron.token (Rendertron.config srv)))
    as [E|E]; [right | left; right; exact E].
  intros [H|H]; [discriminate | contradiction].
Qed.

(** The handler past the access check: the [try] block and its [catch]. *)
Lemma screenshot_handler_admitted (k : Rendertron.Koa) (P : Platform)
    (srv : Rendertron.Server) (req : Rendertron.Request) (url : string)
    (b : Browser) s :
  Rendertron.renderer srv = Some b ->
  url_parse_throws P url = false ->
  ~ blocked P srv req url ->
  Rendertron.handleScreenshotRequest k P srv req url s
  = Rendertron.try_catch
      (img ← Rendertron.await
         (screenshot b (Rendertron.renderer_config (Rendertron.config srv))
            url (Rendertron.mobile req) (requested_dimensions srv req)
            (requested_options req));
       Rendertron.set_all k (Rendertron.headers (Rendertron.config srv)) ;;
       Rendertron.set k "Content-Type" "image/jpeg" ;;
       Rendertron.set k "Content-Length" (pretty (String.length img)) ;;
       Rendertron.assign_body (Rendertron.BodyBuffer img))
      (fun error =>
         Rendertron.assign_status k
           (match error with
            | Rendertron.Thrown (ScreenshotError Forbidden) => 403
            | _ => 500
            end)) s.
Proof.
  intros Hr Hu Hb. unfold Rendertron.handleScreenshotRequest.
  unfold mbind at 1. unfold Rendertron.K_bind at 1.
  rewrite (admitted_passes k P srv req url b s Hr Hu Hb). reflexivity.
Qed.

(** X20.  Once the renderer exists, [handleScreenshotRequest] throws only
    from its access check, which stands outside the [try] block: when
    [url.parse] throws on the URL.  Whatever goes wrong after the access
    check (the renderer's typed failures, a rejected engine call, a header
    that [ctx.set] rejects) is caught and answered with a status, 403 for
    the typed failure [Forbidden] and 500 for everything else,
    [NoResponse] included; no body is set then. *)
Theorem screenshot_failures_become_status (k : Rendertron.Koa)
    (P : Platform) (srv : Rendertron.Server) (req : Rendertron.Request)
    (url : string) (b : Browser) :
  Rendertron.renderer srv = Some b ->
  Rendertron.valid_status k 403 = true ->
  Rendertron.valid_status k 500 = true ->
  if url_parse_throws P url
  then Rendertron.handleScreenshotRequest k P srv req url
         (Rendertron.fresh, blank)
       = (Rendertron.Failed (Rendertron.Thrown URIError),
          (Rendertron.fresh, blank))
  else
  exists ctx p,
    Rendertron.handleScreenshotRequest k P srv req url
      (Rendertron.fresh, blank) = (Rendertron.Done tt, (ctx, p))
    /\ (blocked P srv req url ->
        Rendertron.status_set ctx = Some 403 /\ p = blank)
    /\ (~ blocked P srv req url ->
        p = snd (requested_screenshot srv req url b)
        /\ match fst (requested_screenshot srv req url b) with
           | Raised (ScreenshotError Forbidden) =>
               ctx = Rendertron.mkContext (Some 403) ∅ None
           | Raised _ => ctx = Rendertron.mkContext (Some 500) ∅ None
           | Ok img =>
               Rendertron.status_set ctx = None
               /\ Rendertron.body_set ctx = Some (Rendertron.BodyBuffer img)
               \/ Rendertron.status_set ctx = Some 500
                  /\ Rendertron.body_set ctx = None
           end).
Proof.
  intros Hr H403 H500.
  destruct (url_parse_throws P url) eqn:Hu.
  { unfold Rendertron.handleScreenshotRequest.
    unfold mbind, Rendertron.K_bind.
    now rewrite (admitted_throws k P srv req url b _ Hr Hu). }
  destruct (blocked_dec P srv req url) as [Hb|Hb].
  - exists (Rendertron.mkContext (Some 403) ∅ None), blank.
    split; [|split; [auto | contradiction]].
    unfold Rendertron.handleScreenshotRequest.
    unfold mbind, Rendertron.K_bind.
    rewrite (admitted_blocked k P srv req url b _ Hr H403 Hu Hb). reflexivity.
  - rewrite (screenshot_handler_admitted k P srv req url b _ Hr Hu Hb).
    unfold requested_screenshot, Rendertron.try_catch.
    unfold mbind at 1. unfold Rendertron.K_bind at 1.
    unfold Rendertron.await at 1.
    destruct (screenshot b _ url _ _ _ blank) as [[img|e] p]; cbn [fst snd].
    + destruct (all_valid k (Rendertron.headers (Rendertron.config srv)))
        eqn:Ev.
      * unfold mbind at 1. unfold Rendertron.K_bind at 1.
        rewrite (set_all_valid k _ _ Ev). cbn [fst snd].
        kexec.
        destruct (Rendertron.valid_header k "Content-Type" "image/jpeg");
          [destruct (Rendertron.valid_header k "Content-Length"
                       (pretty (String.length img)))|];
          rewrite ?H500; eexists _, _;
          (split; [reflexivity|]); (split; [contradiction|]);
          intros _; (split; [reflexivity|]); cbn; auto.
      * unfold mbind at 1. unfold Rendertron.K_bind at 1.
        destruct (set_all_invalid k _ (Rendertron.fresh, p) Ev)
          as ([ctx' p'] & E & Hs & Hbd & Hp).
        rewrite E. cbn [fst snd] in *. subst p'.
        unfold Rendertron.assign_status. rewrite H500. cbn [fst snd].
        eexists _, _. split; [reflexivity|]. split; [contradiction|].
        intros _. split; [reflexivity|]. right. cbn.
        split; [reflexivity | exact Hbd].
    + unfold Rendertron.assign_status.
      destruct e as [| | |op|[|]]; rewrite ?H403, ?H500; cbn [fst snd];
        eexists _, _; (split; [reflexivity|]); (split; [contradiction|]);
        intros _; split; reflexivity.
Qed.

(** The theorem at a screenshot request whose navigation times out, and at
    one whose URL cannot be decoded. *)
Lemma screenshot_failures_become_status_witness :
  let srv := sample_server (Sample.times_out Pages.plain Sample.ok200) in
  (exists ctx p,
     Rendertron.handleScreenshotRequest lenient_koa Sample.platform srv
       (get_with (Some "secret")) "https://example.com/"
       (Rendertron.fresh, blank)
     = (Rendertron.Done tt, (ctx, p))
     /\ ctx = Rendertron.mkContext (Some 500) ∅ None)
  /\ Rendertron.handleScreenshotRequest lenient_koa Sample.platform srv
       (get_with (Some "secret")) "http://%@example.com/"
       (Rendertron.fresh, blank)
     = (Rendertron.Failed (Rendertron.Thrown URIError),
        (Rendertron.fresh, blank)).
Proof.
  cbv zeta. split.
  - destruct (screenshot_failures_become_status lenient_koa Sample.platform
                (sample_server (Sample.times_out Pages.plain Sample.ok200))
                (get_with (Some "secret")) "https://example.com/"
                (Sample.times_out Pages.plain Sample.ok200)
                eq_refl eq_refl eq_refl) as (ctx & p & H & _ & Hn).
    exists ctx, p. split; [exact H|].
    apply Hn. intros [Hb|Hb]; [discriminate Hb | apply Hb; reflexivity].
  - exact (screenshot_failures_become_status lenient_koa Sample.platform
             (sample_server (Sample.times_out Pages.plain Sample.ok200))
             (get_with (Some "secret")) "http://%@example.com/"
             (Sample.times_out Pages.plain Sample.ok200)
             eq_refl eq_refl eq_refl).
Defined.

Lemma lower_content_type : lower "Content-Type" = "content-type".
Proof. reflexivity. Qed.

Lemma lower_content_length : lower "Content-Length" = "content-length".
Proof. reflexivity. Qed.

(** X21.  A screenshot that succeeds, for a request whose URL [url.parse]
    accepts (the handler throws otherwise), is answered with the buffer as body,
    [Content-Type: image/jpeg] and the buffer's length as
    [Content-Length]; these two fields are set after the configured
    headers, so the configuration cannot replace them; the handler assigns
    no status. *)
Theorem screenshot_response (k : Rendertron.Koa) (P : Platform)
    (srv : Rendertron.Server) (req : Rendertron.Request) (url : string)
    (b : Browser) (img : string) (p : page) :
  Rendertron.renderer srv = Some b ->
  ~ blocked P srv req url ->
  requested_screenshot srv req url b = (Ok img, p) ->
  all_valid k (Rendertron.headers (Rendertron.config srv)) = true ->
  Rendertron.valid_header k "Content-Type" "image/jpeg" = true ->
  Rendertron.valid_header k "Content-Length" (pretty (String.length img))
  = true ->
  if url_parse_throws P url
  then Rendertron.handleScreenshotRequest k P srv req url
         (Rendertron.fresh, blank)
       = (Rendertron.Failed (Rendertron.Thrown URIError),
          (Rendertron.fresh, blank))
  else
  exists fields,
    Rendertron.handleScreenshotRequest k P srv req url
      (Rendertron.fresh, blank)
    = (Rendertron.Done tt,
       (Rendertron.mkContext None fields (Some (Rendertron.BodyBuffer img)),
        p))
    /\ fields !! "content-type" = Some "image/jpeg"
    /\ fields !! "content-length" = Some (pretty (String.length img))
    /\ forall name, name <> "content-type" -> name <> "content-length" ->
         fields !! name
         = fields_after (Rendertron.headers (Rendertron.config srv)) ∅
             !! name.
Proof.
  intros Hr Hb Hs Hv Hct Hcl.
  destruct (url_parse_throws P url) eqn:Hu.
  { unfold Rendertron.handleScreenshotRequest.
    unfold mbind, Rendertron.K_bind.
    now rewrite (admitted_throws k P srv req url b _ Hr Hu). }
  rewrite (screenshot_handler_admitted k P srv req url b _ Hr Hu Hb).
  unfold requested_screenshot in Hs. unfold Rendertron.try_catch.
  unfold mbind at 1. unfold Rendertron.K_bind at 1.
  unfold Rendertron.await at 1. rewrite Hs.
  unfold mbind at 1. unfold Rendertron.K_bind at 1.
  rewrite (set_all_valid k _ _ Hv). cbn [fst snd].
  kexec. rewrite Hct, Hcl. rewrite lower_content_type, lower_content_length.
  eexists. split; [reflexivity|]. repeat split.
  - rewrite lookup_insert_ne by discriminate. apply lookup_insert_eq.
  - apply lookup_insert_eq.
  - intros name H1 H2. now rewrite !lookup_insert_ne by congruence.
Qed.

(** The theorem at a server configured with its own [Content-Type]. *)
Lemma screenshot_response_witness :
  let srv := Rendertron.mkServer
               (Rendertron.mkSettings Sample.config (Some "secret")
                  [("content-type", "text/plain")])
               (Some (Sample.loads Pages.plain Sample.ok200)) in
  exists fields,
    Rendertron.handleScreenshotRequest lenient_koa Sample.platform srv
      (get_with (Some "secret")) "https://example.com/" (Rendertron.fresh, blank)
    = (Rendertron.Done tt,
       (Rendertron.mkContext None fields
          (Some (Rendertron.BodyBuffer "jpeg")),
        snd (requested_screenshot srv (get_with (Some "secret"))
               "https://example.com/"
               (Sample.loads Pages.plain Sample.ok200))))
    /\ fields !! "content-type" = Some "image/jpeg"
    /\ fields !! "content-length" = Some "4".
Proof.
  cbv zeta.
  pose proof (screenshot_response lenient_koa Sample.platform
              (Rendertron.mkServer
                 (Rendertron.mkSettings Sample.config (Some "secret")
                    [("content-type", "text/plain")])
                 (Some (Sample.loads Pages.plain Sample.ok200)))
              (get_with (Some "secret")) "https://example.com/"
              (Sample.loads Pages.plain Sample.ok200) "jpeg"
              (snd (requested_screenshot
                      (Rendertron.mkServer
                         (Rendertron.mkSettings Sample.config (Some "secret")
                            [("content-type", "text/plain")])
                         (Some (Sample.loads Pages.plain Sample.ok200)))
                      (get_with (Some "secret")) "https://example.com/"
                      (Sample.loads Pages.plain Sample.ok200))))
    as H.
  destruct H as (fields & H1 & H2 & H3 & _);
    [ reflexivity
    | intros [Hb|Hb]; [discriminate Hb | apply Hb; reflexivity]
    | vm_compute; reflexivity
    | reflexivity | reflexivity | reflexivity | ].
  exists fields. auto.
Defined.

(** The handlers past the access check. *)
Lemma render_handler_admitted (k : Rendertron.Koa) (P : Platform)
    (srv : Rendertron.Server) (req : Rendertron.Request) (url : string)
    (b : Browser) s :
  Rendertron.renderer srv = Some b ->
  url_parse_throws P url = false ->
  ~ blocked P srv req url ->
  Rendertron.handleRenderRequest k P srv req url s
  = (serialized ← Rendertron.await
       (serialize b (Rendertron.renderer_config (Rendertron.config srv)) P
          url (Rendertron.mobile req) false);
     Rendertron.set_all k (Rendertron.headers (Rendertron.config srv)) ;;
     Rendertron.set k "x-renderer" "rendertron" ;;
     match serialized with
     | Serialized s =>
         Rendertron.set_all k (map_to_list (customHeaders s)) ;;
         Rendertron.assign_status k (status s) ;;
         Rendertron.assign_body (Rendertron.BodyText (content s))
     | Preview _ => Rendertron.fail (Rendertron.Thrown TypeError)
     end) s.
Proof.
  intros Hr Hu Hb. unfold Rendertron.handleRenderRequest.
  unfold mbind at 1. unfold Rendertron.K_bind at 1.
  rewrite (admitted_passes k P srv req url b s Hr Hu Hb). reflexivity.
Qed.

Lemma preview_handler_admitted (k : Rendertron.Koa) (P : Platform)
    (srv : Rendertron.Server) (req : Rendertron.Request) (url : string)
    (b : Browser) s :
  Rendertron.renderer srv = Some b ->
  url_parse_throws P url = false ->
  ~ blocked P srv req url ->
  Rendertron.handlePreviewRequest k P srv req (Some url) s
  = (preview ← Rendertron.await
       (serialize b (Rendertron.renderer_config (Rendertron.config srv)) P
          url (Rendertron.mobile req) true);
     Rendertron.set_all k (Rendertron.headers (Rendertron.config srv)) ;;
     Rendertron.set k "x-renderer" "rendertron" ;;
     Rendertron.assign_status k (status_of preview) ;;
     Rendertron.assign_body (Rendertron.BodyObject preview)) s.
Proof.
  intros Hr Hu Hb. unfold Rendertron.handlePreviewRequest.
  unfold mbind at 1. unfold Rendertron.K_bind at 1.
  rewrite (admitted_passes k P srv req url b s Hr Hu Hb). reflexivity.
Qed.

Lemma lower_x_renderer : lower "x-renderer" = "x-renderer".
Proof. reflexivity. Qed.

(** X22.  A rendered page is answered with the configured headers, then
    [x-renderer: rendertron], then the page's custom header, so the page's
    header wins over both when the names coincide up to case; then the
    status the renderer returned is assigned, and the content becomes the
    body.  When the status setter rejects the status (as it does a status
    that is no integer), the handler throws with the headers set and
    neither status nor body assigned. *)
Theorem render_response (k : Rendertron.Koa) (P : Platform)
    (srv : Rendertron.Server) (req : Rendertron.Request) (url : string)
    (b : Browser) (s : SerializedResponse) (p : page) :
  Rendertron.renderer srv = Some b ->
  ~ blocked P srv req url ->
  serialize b (Rendertron.renderer_config (Rendertron.config srv)) P url
    (Rendertron.mobile req) false blank = (Ok (Serialized s), p) ->
  all_valid k (Rendertron.headers (Rendertron.config srv)) = true ->
  Rendertron.valid_header k "x-renderer" "rendertron" = true ->
  all_valid k (map_to_list (customHeaders s)) = true ->
  let fields :=
    fields_after (map_to_list (customHeaders s))
      (<["x-renderer" := "rendertron"]>
         (fields_after (Rendertron.headers (Rendertron.config srv)) ∅)) in
  Rendertron.handleRenderRequest k P srv req url (Rendertron.fresh, blank)
  = (if url_parse_throws P url then
       (Rendertron.Failed (Rendertron.Thrown URIError),
        (Rendertron.fresh, blank))
     else
     match status s with
     | Integer code =>
         if Rendertron.valid_status k code
         then (Rendertron.Done tt,
               (Rendertron.mkContext (Some code) fields
                  (Some (Rendertron.BodyText (content s))), p))
         else (Rendertron.Failed (Rendertron.InvalidStatus (status s)),
               (Rendertron.mkContext None fields None, p))
     | _ => (Rendertron.Failed (Rendertron.InvalidStatus (status s)),
             (Rendertron.mkContext None fields None, p))
     end)
  /\ (customHeaders s = ∅ -> fields !! "x-renderer" = Some "rendertron")
  /\ (forall key v, customHeaders s = {[ key := v ]} ->
                    fields !! lower key = Some v).
Proof.
  intros Hr Hb Hs Hv Hx Hc. cbv zeta. split; [|split].
  - destruct (url_parse_throws P url) eqn:Hu.
    { unfold Rendertron.handleRenderRequest.
      unfold mbind, Rendertron.K_bind.
      now rewrite (admitted_throws k P srv req url b _ Hr Hu). }
    rewrite (render_handler_admitted k P srv req url b _ Hr Hu Hb).
    unfold mbind at 1. unfold Rendertron.K_bind at 1.
    unfold Rendertron.await at 1. rewrite Hs.
    unfold mbind at 1. unfold Rendertron.K_bind at 1.
    rewrite (set_all_valid k _ _ Hv). cbn [fst snd].
    unfold mbind at 1. unfold Rendertron.K_bind at 1.
    unfold Rendertron.set at 1. rewrite Hx. cbn [fst snd].
    rewrite lower_x_renderer.
    unfold mbind at 1. unfold Rendertron.K_bind at 1.
    rewrite (set_all_valid k _ _ Hc). cbn [fst snd].
    kexec. destruct (status s) as [|sg|code]; try reflexivity.
    destruct (Rendertron.valid_status k code); reflexivity.
  - intros ->. rewrite map_to_list_empty. cbn [fields_after fold_left].
    apply lookup_insert_eq.
  - intros key v ->. rewrite map_to_list_singleton.
    cbn [fields_after fold_left fst snd]. apply lookup_insert_eq.
Qed.

(** The theorem at a page that declares its own [X-Renderer] header. *)
Lemma render_response_witness :
  let b := Sample.loads (Pages.with_header "X-Renderer: custom")
             Sample.ok200 in
  exists ctx p,
    Rendertron.handleRenderRequest lenient_koa Sample.platform (sample_server b)
      (get_with (Some "secret")) "https://example.com/" (Rendertron.fresh, blank)
    = (Rendertron.Done tt, (ctx, p))
    /\ Rendertron.headers_set ctx !! "x-renderer" = Some "custom"
    /\ Rendertron.status_set ctx = Some 200.
Proof.
  cbv zeta.
  destruct (serialize (Sample.loads (Pages.with_header "X-Renderer: custom")
                         Sample.ok200)
              Sample.config Sample.platform "https://example.com/" false
              false blank) as [res p] eqn:E.
  assert (Hres : exists markup,
             res = Ok (Serialized
                         (mkSerialized 200 {[ "X-Renderer" := "custom" ]}
                            markup))).
  { vm_compute in E. injection E as <- _. eexists. reflexivity. }
  destruct Hres as [markup ->].
  destruct (render_response lenient_koa Sample.platform
              (sample_server
                 (Sample.loads (Pages.with_header "X-Renderer: custom")
                    Sample.ok200))
              (get_with (Some "secret")) "https://example.com/"
              (Sample.loads (Pages.with_header "X-Renderer: custom")
                 Sample.ok200)
              (mkSerialized 200 {[ "X-Renderer" := "custom" ]} markup) p)
    as (H1 & _ & H3);
    [ reflexivity
    | intros [Hb|Hb]; [discriminate Hb | apply Hb; reflexivity]
    | exact E
    | reflexivity | reflexivity
    | cbn [customHeaders]; rewrite map_to_list_singleton; reflexivity | ].
  change (url_parse_throws Sample.platform "https://example.com/")
    with false in H1.
  cbn [Rendertron.valid_status lenient_koa status] in H1.
  eexists _, _. split; [exact H1|]. split; [|reflexivity].
  cbn [Rendertron.headers_set]. apply (H3 "X-Renderer" "custom"). reflexivity.
Defined.

(** X23.  [handleRenderRequest] and [handlePreviewRequest] catch nothing:
    when the renderer fails (for a request whose URL [url.parse] accepts;
    the handler throws before calling the renderer otherwise), the error
    leaves the handler as it is, the handler has assigned neither status
    nor header nor body, and no page has been closed: the page the
    renderer opened, if [newPage] resolved, is still open or could not be
    closed. *)
Theorem renderer_errors_escape (k : Rendertron.Koa) (P : Platform)
    (srv : Rendertron.Server) (req : Rendertron.Request) (url : string)
    (b : Browser) (preview : bool) (e : exn) (p : page) :
  Rendertron.renderer srv = Some b ->
  ~ blocked P srv req url ->
  serialize b (Rendertron.renderer_config (Rendertron.config srv)) P url
    (Rendertron.mobile req) preview blank = (Raised e, p) ->
  (if preview
   then Rendertron.handlePreviewRequest k P srv req (Some url)
          (Rendertron.fresh, blank)
   else Rendertron.handleRenderRequest k P srv req url
          (Rendertron.fresh, blank))
  = (if url_parse_throws P url
     then (Rendertron.Failed (Rendertron.Thrown URIError),
           (Rendertron.fresh, blank))
     else (Rendertron.Failed (Rendertron.Thrown e), (Rendertron.fresh, p)))
  /\ opened p = (if faults b OpNewPage then 0 else 1)%nat
  /\ closed p = 0%nat.
Proof.
  intros Hr Hb Hs. split.
  - destruct (url_parse_throws P url) eqn:Hu.
    { unfold Rendertron.handlePreviewRequest, Rendertron.handleRenderRequest.
      unfold mbind, Rendertron.K_bind.
      rewrite (admitted_throws k P srv req url b _ Hr Hu).
      destruct preview; reflexivity. }
    destruct preview.
    + rewrite (preview_handler_admitted k P srv req url b _ Hr Hu Hb).
      unfold mbind at 1. unfold Rendertron.K_bind at 1.
      unfold Rendertron.await at 1. rewrite Hs. reflexivity.
    + rewrite (render_handler_admitted k P srv req url b _ Hr Hu Hb).
      unfold mbind at 1. unfold Rendertron.K_bind at 1.
      unfold Rendertron.await at 1. rewrite Hs. reflexivity.
  - pose proof (serialize_lifecycle b
                  (Rendertron.renderer_config (Rendertron.config srv)) P url
                  (Rendertron.mobile req) preview) as Hl.
    rewrite Hs in Hl. exact Hl.
Qed.

(** The theorem at a preview request for a page without title and
    heading. *)
Lemma renderer_errors_escape_witness :
  let b := Sample.loads Pages.untitled Sample.ok200 in
  exists p,
    Rendertron.handlePreviewRequest lenient_koa Sample.platform (sample_server b)
      (get_with (Some "secret")) (Some "https://example.com/")
      (Rendertron.fresh, blank)
    = (Rendertron.Failed (Rendertron.Thrown TypeError),
       (Rendertron.fresh, p))
    /\ opened p = 1%nat /\ closed p = 0%nat.
Proof.
  cbv zeta. eexists.
  apply (renderer_errors_escape lenient_koa Sample.platform
           (sample_server (Sample.loads Pages.untitled Sample.ok200))
           (get_with (Some "secret")) "https://example.com/"
           (Sample.loads Pages.untitled Sample.ok200) true TypeError);
    [ reflexivity
    | intros [Hb|Hb]; [discriminate Hb | apply Hb; reflexivity]
    | vm_compute; reflexivity ].
Defined.

(** X24.  A preview is answered with the configured headers and
    [x-renderer: rendertron], the status the renderer returned and the
    returned object as body.  The page's custom header is not applied in
    preview mode, so [x-renderer] is always [rendertron] there.  When the
    status setter rejects the status (as it does a status that is no
    integer), the handler throws with the headers set and neither status
    nor body assigned. *)
Theorem preview_response (k : Rendertron.Koa) (P : Platform)
    (srv : Rendertron.Server) (req : Rendertron.Request) (url : string)
    (b : Browser) (r : rendered) (p : page) :
  Rendertron.renderer srv = Some b ->
  ~ blocked P srv req url ->
  serialize b (Rendertron.renderer_config (Rendertron.config srv)) P url
    (Rendertron.mobile req) true blank = (Ok r, p) ->
  all_valid k (Rendertron.headers (Rendertron.config srv)) = true ->
  Rendertron.valid_header k "x-renderer" "rendertron" = true ->
  let fields :=
    <["x-renderer" := "rendertron"]>
      (fields_after (Rendertron.headers (Rendertron.config srv)) ∅) in
  Rendertron.handlePreviewRequest k P srv req (Some url)
    (Rendertron.fresh, blank)
  = (if url_parse_throws P url then
       (Rendertron.Failed (Rendertron.Thrown URIError),
        (Rendertron.fresh, blank))
     else
     match status_of r with
     | Integer code =>
         if Rendertron.valid_status k code
         then (Rendertron.Done tt,
               (Rendertron.mkContext (Some code) fields
                  (Some (Rendertron.BodyObject r)), p))
         else (Rendertron.Failed (Rendertron.InvalidStatus (status_of r)),
               (Rendertron.mkContext None fields None, p))
     | _ => (Rendertron.Failed (Rendertron.InvalidStatus (status_of r)),
             (Rendertron.mkContext None fields None, p))
     end)
  /\ fields !! "x-renderer" = Some "rendertron".
Proof.
  intros Hr Hb Hs Hv Hx. cbv zeta. split; [|apply lookup_insert_eq].
  destruct (url_parse_throws P url) eqn:Hu.
  { unfold Rendertron.handlePreviewRequest.
    unfold mbind, Rendertron.K_bind.
    now rewrite (admitted_throws k P srv req url b _ Hr Hu). }
  rewrite (preview_handler_admitted k P srv req url b _ Hr Hu Hb).
  unfold mbind at 1. unfold Rendertron.K_bind at 1.
  unfold Rendertron.await at 1. rewrite Hs.
  unfold mbind at 1. unfold Rendertron.K_bind at 1.
  rewrite (set_all_valid k _ _ Hv). cbn [fst snd].
  unfold mbind at 1. unfold Rendertron.K_bind at 1.
  unfold Rendertron.set at 1. rewrite Hx. cbn [fst snd].
  rewrite lower_x_renderer.
  kexec. destruct (status_of r) as [|sg|code]; try reflexivity.
  destruct (Rendertron.valid_status k code); reflexivity.
Qed.

(** The theorem at a preview of a page that declares its own
    [X-Renderer] header. *)
Lemma preview_response_witness :
  let b := Sample.loads (Pages.with_header "X-Renderer: custom")
             Sample.ok200 in
  exists ctx p,
    Rendertron.handlePreviewRequest lenient_koa Sample.platform (sample_server b)
      (get_with (Some "secret")) (Some "https://example.com/")
      (Rendertron.fresh, blank)
    = (Rendertron.Done tt, (ctx, p))
    /\ Rendertron.headers_set ctx !! "x-renderer" = Some "rendertron"
    /\ Rendertron.status_set ctx = Some 200.
Proof.
  cbv zeta.
  destruct (serialize (Sample.loads (Pages.with_header "X-Renderer: custom")
                         Sample.ok200)
              Sample.config Sample.platform "https://example.com/" false
              true blank) as [res p] eqn:E.
  assert (Hres : exists r, res = Ok r /\ status_of r = Integer 200).
  { vm_compute in E. injection E as <- _. eexists. split; reflexivity. }
  destruct Hres as (r & -> & Hst).
  destruct (preview_response lenient_koa Sample.platform
              (sample_server
                 (Sample.loads (Pages.with_header "X-Renderer: custom")
                    Sample.ok200))
              (get_with (Some "secret")) "https://example.com/"
              (Sample.loads (Pages.with_header "X-Renderer: custom")
                 Sample.ok200) r p)
    as (H1 & H2);
    [ reflexivity
    | intros [Hb|Hb]; [discriminate Hb | apply Hb; reflexivity]
    | exact E | reflexivity | reflexivity | ].
  change (url_parse_throws Sample.platform "https://example.com/")
    with false in H1.
  rewrite Hst in H1. cbn [Rendertron.valid_status lenient_koa] in H1.
  eexists _, _. split; [exact H1|]. split; [exact H2 | reflexivity].
Defined.

(** The page of a screenshot request that passed the access check is the
    one its renderer call leaves. *)
Lemma screenshot_handler_page (k : Rendertron.Koa) (P : Platform)
    (srv : Rendertron.Server) (req : Rendertron.Request) (url : string)
    (b : Browser) :
  Rendertron.renderer srv = Some b ->
  url_parse_throws P url = false ->
  ~ blocked P srv req url ->
  snd (snd (Rendertron.handleScreenshotRequest k P srv req url
              (Rendertron.fresh, blank)))
  = snd (requested_screenshot srv req url b).
Proof.
  intros Hr Hu Hb.
  rewrite (screenshot_handler_admitted k P srv req url b _ Hr Hu Hb).
  unfold requested_screenshot, Rendertron.try_catch.
  unfold mbind at 1. unfold Rendertron.K_bind at 1.
  unfold Rendertron.await at 1.
  destruct (screenshot b _ url _ _ _ blank) as [[img|e] p]; cbn [fst snd].
  - destruct (all_valid k (Rendertron.headers (Rendertron.config srv)))
      eqn:Ev.
    + unfold mbind at 1. unfold Rendertron.K_bind at 1.
      rewrite (set_all_valid k _ _ Ev). cbn [fst snd]. kexec.
      destruct (Rendertron.valid_header k "Content-Type" "image/jpeg");
        [destruct (Rendertron.valid_header k "Content-Length"
                     (pretty (String.length img)))|];
        try destruct (Rendertron.valid_status k 500); reflexivity.
    + unfold mbind at 1. unfold Rendertron.K_bind at 1.
      destruct (set_all_invalid k _ (Rendertron.fresh, p) Ev)
        as ([ctx' p'] & E & _ & _ & Hp).
      rewrite E. cbn [fst snd] in *. subst p'.
      unfold Rendertron.assign_status.
      destruct (Rendertron.valid_status k 500); reflexivity.
  - unfold Rendertron.assign_status.
    destruct e as [| | |op|[|]];
      match goal with
      | |- context [Rendertron.valid_status k ?c] =>
          destruct (Rendertron.valid_status k c)
      end; reflexivity.
Qed.

(** X25.  The viewport of a screenshot comes from the query (when the
    handler throws on a URL [url.parse] rejects, or [newPage] rejects, no
    viewport is set), each side
    falling back to the configured one when its parameter is missing, not
    a number, or 0; and the options of the capture come from the body of a
    [POST] request only: for any other method the capture, if one is made,
    is made with exactly [type: jpeg] and [encoding: binary]. *)
Theorem screenshot_request_defaults (k : Rendertron.Koa) (P : Platform)
    (srv : Rendertron.Server) (req : Rendertron.Request) (url : string)
    (b : Browser) :
  Rendertron.renderer srv = Some b ->
  ~ blocked P srv req url ->
  faults b OpSetViewport = false ->
  let p := snd (snd (Rendertron.handleScreenshotRequest k P srv req url
                       (Rendertron.fresh, blank))) in
  let cfg := Rendertron.renderer_config (Rendertron.config srv) in
  if url_parse_throws P url || faults b OpNewPage then history p = []
  else
  exists w h rest,
    history p
    = NewPage :: SetViewport w h (Rendertron.mobile req) :: rest
    /\ (Rendertron.width_query req = NaN
        \/ Rendertron.width_query req = Num 0 -> w = width cfg)
    /\ (forall z, Rendertron.width_query req = Num z -> z <> 0 -> w = z)
    /\ (Rendertron.height_query req = NaN
        \/ Rendertron.height_query req = Num 0 -> h = height cfg)
    /\ (forall z, Rendertron.height_query req = Num z -> z <> 0 -> h = z)
    /\ (Rendertron.method req <> "POST" ->
        scripts p = []
        \/ scripts p
           = [Screenshot {[ "type" := "jpeg"; "encoding" := "binary" ]}])
    /\ (Rendertron.method req = "POST" ->
        scripts p = []
        \/ scripts p
           = [Screenshot (screenshot_options (Rendertron.posted req))]).
Proof.
  intros Hr Hb Hv. cbv zeta.
  destruct (url_parse_throws P url) eqn:Hu.
  { unfold Rendertron.handleScreenshotRequest.
    unfold mbind, Rendertron.K_bind.
    now rewrite (admitted_throws k P srv req url b _ Hr Hu). }
  rewrite (screenshot_handler_page k P srv req url b Hr Hu Hb).
  unfold requested_screenshot.
  pose proof (screenshot_run b
                (Rendertron.renderer_config (Rendertron.config srv)) url
                (Rendertron.mobile req) (requested_dimensions srv req)
                (requested_options req)) as Ht.
  destruct (screenshot b _ url _ _ _ blank) as [res p]. cbn [snd orb].
  destruct (faults b OpNewPage) eqn:Hn.
  { destruct Ht as [_ Ht]. unfold history. now rewrite Ht. }
  rewrite Hv in Ht. destruct Ht as (_ & [rest Hh] & Hs).
  assert (Hscripts : scripts p = []
                     \/ scripts p
                        = [Screenshot
                             (screenshot_options (requested_options req))]).
  { destruct (captured_by_screenshot b) as [r|]; [|left; apply Hs].
    destruct (is_metadata r); [left | right]; apply Hs. }
  exists (fst (requested_dimensions srv req)),
         (snd (requested_dimensions srv req)).
  eexists. split; [rewrite Hh; unfold screenshot_setup; reflexivity|].
  unfold requested_dimensions, Rendertron.or_config. cbn [fst snd].
  repeat split.
  - intros [->| ->]; reflexivity.
  - intros z -> Hz. apply Z.eqb_neq in Hz. now rewrite Hz.
  - intros [->| ->]; reflexivity.
  - intros z -> Hz. apply Z.eqb_neq in Hz. now rewrite Hz.
  - intros Hm. unfold requested_options in Hscripts.
    apply String.eqb_neq in Hm. rewrite Hm in Hscripts.
    destruct Hscripts as [H|H]; [left; exact H | right].
    rewrite H. unfold screenshot_options. cbn [default].
    rewrite insert_empty. reflexivity.
  - intros Hm. unfold requested_options in Hscripts.
    apply String.eqb_eq in Hm. rewrite Hm in Hscripts.
    exact Hscripts.
Qed.

(** The theorem at a [GET] request with [width=0] and [height=600] whose
    body carries options. *)
Lemma screenshot_request_defaults_witness :
  let b := Sample.loads Pages.plain Sample.ok200 in
  let req := Rendertron.mkRequest "GET" (Some "secret") true (Num 0)
               (Num 600) (Some {[ "type" := "png" ]}) in
  let p := snd (snd (Rendertron.handleScreenshotRequest lenient_koa
                       Sample.platform (sample_server b) req
                       "https://example.com/" (Rendertron.fresh, blank))) in
  exists rest,
    history p = NewPage :: SetViewport 1000 600 true :: rest
    /\ (scripts p = []
        \/ scripts p
           = [Screenshot {[ "type" := "jpeg"; "encoding" := "binary" ]}]).
Proof.
  cbv zeta.
  pose proof (screenshot_request_defaults lenient_koa Sample.platform
              (sample_server (Sample.loads Pages.plain Sample.ok200))
              (Rendertron.mkRequest "GET" (Some "secret") true (Num 0)
                 (Num 600) (Some {[ "type" := "png" ]}))
              "https://example.com/"
              (Sample.loads Pages.plain Sample.ok200)) as H.
  destruct H as (w & h & rest & Hh & Hw0 & _ & _ & Hhz & Hget & _);
    [ reflexivity
    | intros [Hb|Hb]; [discriminate Hb | apply Hb; reflexivity]
    | reflexivity | ].
  exists rest. split.
  - rewrite Hh, (Hw0 (or_intror eq_refl)).
    rewrite (Hhz 600 eq_refl); [reflexivity | discriminate].
  - apply Hget. discriminate.
Defined.

